(** * Verification of the Alibaba RFQ scraper

    A shallow embedding of [alibaba_rfq_scraper_improved.py]: the container
    locator, the field extractor, the per-page record filter with its
    seen-set, and the pagination loop, followed by the properties stated in
    the specification and by further properties of the same code and of the
    table that [save_to_csv] writes.

    Modelling conventions.
    - A Python [str] is a [string]; text is taken to be ASCII, so [len]
      counts characters, [lower] maps [A-Z] to [a-z], and the classes
      [\s], [\d] and [\w] are their ASCII parts.
    - The [rfq_data] dictionary is a [gmap string string]; [self.seen_urls]
      and [processed_urls] are [gset string].
    - A parsed page is a tree of [node]s; a BeautifulSoup handle is the path
      of the node from the document root.
    - What the program gets from outside (the rendered page of each fetch,
      [urllib.parse.urljoin], the current date) is a variable of a section.
    - Pauses, printing and the interruption of a run by the user are left
      out: a run is the page loop run to its end. *)

From Stdlib Require Import Ascii String.
From stdpp Require Import gmap strings list pretty.

Local Open Scope nat_scope.
Local Open Scope stdpp_scope.

(** ** Python string operations *)

Module Py.

(** [len(s)] *)
Definition len (s : string) : nat := String.length s.

(** [c.isspace()] on ASCII, which is also the class [\s]. *)
Definition is_space (c : ascii) : bool :=
  let n := nat_of_ascii c in
  ((9 <=? n) && (n <=? 13)) || ((28 <=? n) && (n <=? 32)).

Definition is_digit (c : ascii) : bool :=
  let n := nat_of_ascii c in (48 <=? n) && (n <=? 57).

Definition is_upper (c : ascii) : bool :=
  let n := nat_of_ascii c in (65 <=? n) && (n <=? 90).

Definition is_lower (c : ascii) : bool :=
  let n := nat_of_ascii c in (97 <=? n) && (n <=? 122).

(** the class [\w] *)
Definition is_word (c : ascii) : bool :=
  is_upper c || is_lower c || is_digit c || Ascii.eqb c "_"%char.

Definition lower_char (c : ascii) : ascii :=
  if is_upper c then ascii_of_nat (nat_of_ascii c + 32) else c.

Definition upper_char (c : ascii) : ascii :=
  if is_lower c then ascii_of_nat (nat_of_ascii c - 32) else c.

(** [s.lower()] *)
Fixpoint lower (s : string) : string :=
  match s with
  | EmptyString => EmptyString
  | String c s' => String (lower_char c) (lower s')
  end.

(** [s.startswith(p)] *)
Fixpoint startswith (s p : string) : bool :=
  match p, s with
  | EmptyString, _ => true
  | String _ _, EmptyString => false
  | String a p', String b s' => Ascii.eqb a b && startswith s' p'
  end.

(** [sub in s] *)
Fixpoint contains (sub s : string) : bool :=
  startswith s sub ||
  match s with
  | EmptyString => false
  | String _ s' => contains sub s'
  end.

(** [s.find(sub)], counted from the start of [s]; [None] is Python's -1. *)
Fixpoint find (s sub : string) : option nat :=
  if startswith s sub then Some 0
  else match s with
       | EmptyString => None
       | String _ s' => S <$> find s' sub
       end.

(** [s[n:]] *)
Fixpoint drop (n : nat) (s : string) : string :=
  match n, s with
  | 0, _ => s
  | S _, EmptyString => EmptyString
  | S n', String _ s' => drop n' s'
  end.

(** [s[:n]] *)
Fixpoint take (n : nat) (s : string) : string :=
  match n, s with
  | 0, _ => EmptyString
  | S _, EmptyString => EmptyString
  | S n', String c s' => String c (take n' s')
  end.

(** [s[a:b]] for indices that are not negative *)
Definition slice (a b : nat) (s : string) : string := take (b - a) (drop a s).

(** [s.find(sub, start)]: the index is an index of [s]. *)
Definition find_from (s sub : string) (start : nat) : option nat :=
  if String.length s <? start then None
  else (λ i, start + i) <$> find (drop start s) sub.

(** [s.lstrip()], [s.rstrip()], [s.strip()] *)
Fixpoint lstrip (s : string) : string :=
  match s with
  | EmptyString => EmptyString
  | String c s' => if is_space c then lstrip s' else s
  end.

Fixpoint rstrip (s : string) : string :=
  match s with
  | EmptyString => EmptyString
  | String c s' =>
      match rstrip s' with
      | EmptyString => if is_space c then EmptyString else String c EmptyString
      | r => String c r
      end
  end.

Definition strip (s : string) : string := rstrip (lstrip s).

(** [s.replace(old, new)]: occurrences are replaced from the left and do
    not overlap.  The program only calls it with a non-empty [old]. *)
Fixpoint replace_go (fuel : nat) (s old new : string) : string :=
  match fuel with
  | 0 => s
  | S fuel' =>
      if startswith s old
      then new +:+ replace_go fuel' (drop (String.length old) s) old new
      else match s with
           | EmptyString => EmptyString
           | String c s' => String c (replace_go fuel' s' old new)
           end
  end.

Definition replace (s old new : string) : string :=
  match old with
  | EmptyString => s
  | _ => replace_go (S (String.length s)) s old new
  end.

(** [any(w in s for w in ws)] *)
Definition any_in (ws : list string) (s : string) : bool :=
  existsb (λ w, contains w s) ws.

End Py.

(** ** Regular expressions

    The patterns of the program, as syntax trees, and a backtracking matcher
    with the priorities of Python's [re]: the left alternative first, greedy
    repetition.  Every pattern of the program has at most one capturing
    group, so a match carries one captured string. *)

Module Re.

Inductive regex : Type :=
| Eps
| Cls (p : ascii → bool)
| NotCls (p : ascii → bool)
| Cat (r1 r2 : regex)
| Or (r1 r2 : regex)
| Star (r : regex)
| Group (r : regex).

Definition Chr (c : ascii) : regex := Cls (Ascii.eqb c).

Fixpoint Lit (s : string) : regex :=
  match s with
  | EmptyString => Eps
  | String c s' => Cat (Chr c) (Lit s')
  end.

Definition Plus (r : regex) : regex := Cat r (Star r).
Definition Opt (r : regex) : regex := Or r Eps.
Definition Alts (rs : list regex) : regex :=
  match rs with
  | [] => Eps
  | r :: rs' => foldl Or r rs'
  end.

Definition ws : regex := Cls Py.is_space.
Definition digit : regex := Cls Py.is_digit.
Definition range (a b : ascii) : regex :=
  Cls (λ c, (nat_of_ascii a <=? nat_of_ascii c) && (nat_of_ascii c <=? nat_of_ascii b)).
Definition none_of (cs : list ascii) : regex :=
  NotCls (λ c, existsb (Ascii.eqb c) cs).
Definition Seq (rs : list regex) : regex := foldr Cat Eps rs.

(** A character against the set of a class; with [re.IGNORECASE] the
    character is also in the set through its other case.  [NotCls] is the
    complemented class [[^...]]. *)
Definition cls_match (ic : bool) (p : ascii → bool) (c : ascii) : bool :=
  p c || (ic && (p (Py.lower_char c) || p (Py.upper_char c))).

(** [matchk ic r s cap k]: match [r] at the start of [s], then go on with
    [k] on the rest and the capture; [None] makes the matcher backtrack. *)
Fixpoint matchk {R : Type} (ic : bool) (r : regex) (s : string)
    (cap : option string) (k : string → option string → option R) : option R :=
  match r with
  | Eps => k s cap
  | Cls p =>
      match s with
      | String c s' => if cls_match ic p c then k s' cap else None
      | EmptyString => None
      end
  | NotCls p =>
      match s with
      | String c s' => if cls_match ic p c then None else k s' cap
      | EmptyString => None
      end
  | Cat r1 r2 => matchk ic r1 s cap (λ s' cap', matchk ic r2 s' cap' k)
  | Or r1 r2 =>
      match matchk ic r1 s cap k with
      | Some x => Some x
      | None => matchk ic r2 s cap k
      end
  | Star r' =>
      (fix loop (fuel : nat) (s : string) (cap : option string) : option R :=
         match fuel with
         | 0 => k s cap
         | S fuel' =>
             match matchk ic r' s cap
                     (λ s' cap', if String.length s' <? String.length s
                                 then loop fuel' s' cap' else None) with
             | Some x => Some x
             | None => k s cap
             end
         end) (String.length s) s cap
  | Group r' =>
      matchk ic r' s cap
        (λ s' _, k s' (Some (Py.take (String.length s - String.length s') s)))
  end.

(** A match: group 1 (the empty string when the group took no part, which
    no pattern of the program allows) and the text after the match. *)
Record found := { group1 : string; rest : string }.

Definition match_here (ic : bool) (r : regex) (s : string) : option found :=
  matchk ic r s None (λ s' cap, Some {| group1 := default "" cap; rest := s' |}).

(** [re.search(r, s)]: the leftmost match. *)
Fixpoint search (ic : bool) (r : regex) (s : string) : option found :=
  match match_here ic r s with
  | Some m => Some m
  | None => match s with
            | EmptyString => None
            | String _ s' => search ic r s'
            end
  end.

(** [re.findall(r, s)] for a pattern with one group: group 1 of the
    successive matches, which do not overlap. *)
Fixpoint findall_go (fuel : nat) (r : regex) (s : string) : list string :=
  match fuel with
  | 0 => []
  | S fuel' =>
      match match_here false r s with
      | Some m =>
          if String.length (rest m) <? String.length s
          then group1 m :: findall_go fuel' r (rest m)
          else match s with
               | EmptyString => [group1 m]
               | String _ s' => group1 m :: findall_go fuel' r s'
               end
      | None => match s with
                | EmptyString => []
                | String _ s' => findall_go fuel' r s'
                end
      end
  end.

Definition findall (r : regex) (s : string) : list string :=
  findall_go (S (String.length s)) r s.

(** [re.sub(r, repl, s)] for a pattern that matches no empty string and a
    replacement without group references. *)
Fixpoint sub_go (fuel : nat) (r : regex) (repl s : string) : string :=
  match fuel with
  | 0 => s
  | S fuel' =>
      match s with
      | EmptyString => EmptyString
      | String c s' =>
          match match_here false r s with
          | Some m =>
              if String.length (rest m) <? String.length s
              then repl +:+ sub_go fuel' r repl (rest m)
              else String c (sub_go fuel' r repl s')
          | None => String c (sub_go fuel' r repl s')
          end
      end
  end.

Definition sub (r : regex) (repl s : string) : string :=
  sub_go (String.length s) r repl s.

End Re.


(** ** The parsed page

    BeautifulSoup's tree: strings, comments and tags with a name, an
    attribute dictionary and children.  The document object itself is a tag
    (named [[document]]) without a parent. *)

#[warnings="-register-all"]
Inductive node : Type :=
| NavigableString (s : string)
| Comment (s : string)
| Tag (name : string) (attrs : gmap string string) (contents : list node).

Definition contents_of (n : node) : list node :=
  match n with
  | Tag _ _ cs => cs
  | _ => []
  end.

(** [n.get_text()]: the strings below [n] in document order, comments left out. *)
Fixpoint get_text (n : node) : string :=
  match n with
  | NavigableString s => s
  | Comment _ => ""
  | Tag _ _ cs =>
      (fix go (l : list node) : string :=
         match l with
         | [] => ""
         | c :: l' => get_text c +:+ go l'
         end) cs
  end.

(** [a == b] on page elements: strings by their characters, tags by name,
    attributes and, pairwise, contents. *)
Fixpoint tag_eq (a b : node) : bool :=
  match a, b with
  | Tag n1 at1 cs1, Tag n2 at2 cs2 =>
      String.eqb n1 n2 && bool_decide (at1 = at2) &&
      (fix go (l1 l2 : list node) : bool :=
         match l1, l2 with
         | [], [] => true
         | c1 :: l1', c2 :: l2' => tag_eq c1 c2 && go l1' l2'
         | _, _ => false
         end) cs1 cs2
  | Tag _ _ _, _ | _, Tag _ _ _ => false
  | (NavigableString s1 | Comment s1), (NavigableString s2 | Comment s2) =>
      String.eqb s1 s2
  end.

(** A handle on an element: the child indices from the element up to the
    document, innermost first.  The document is [[]]. *)
Abbreviation handle := (list nat).

Fixpoint subtree (soup : node) (h : handle) : option node :=
  match h with
  | [] => Some soup
  | i :: parent => subtree soup parent ≫= λ p, contents_of p !! i
  end.

(** [h.parent]; the document has none. *)
Definition parent (h : handle) : option handle :=
  match h with
  | [] => None
  | _ :: p => Some p
  end.

(** The elements below [n], in document order, with their handles. *)
Fixpoint descendants (base : handle) (n : node) : list (handle * node) :=
  match n with
  | Tag _ _ cs =>
      (fix go (i : nat) (l : list node) : list (handle * node) :=
         match l with
         | [] => []
         | c :: l' => (i :: base, c) :: descendants (i :: base) c ++ go (S i) l'
         end) 0 cs
  | _ => []
  end.

Definition is_tag (name : string) (n : node) : bool :=
  match n with
  | Tag nm _ _ => String.eqb nm name
  | _ => false
  end.

(** [n.get(key)] *)
Definition get_attr (n : node) (key : string) : option string :=
  match n with
  | Tag _ ats _ => ats !! key
  | _ => None
  end.

(** [re.compile(r'rfq_detail\.htm')] *)
Definition detail_re : Re.regex := Re.Lit "rfq_detail.htm".

(** the filter of [find('a', href=re.compile(r'rfq_detail\.htm'))] *)
Definition is_detail_link (n : node) : bool :=
  is_tag "a" n &&
  match get_attr n "href" with
  | Some href => bool_decide (is_Some (Re.search false detail_re href))
  | None => false
  end.

(** ** ContainerLocator: [get_rfq_containers] *)

Definition text_at (soup : node) (h : handle) : string :=
  from_option get_text "" (subtree soup h).

(** The [for _ in range(5)] walk towards the document. *)
Fixpoint widen (soup : node) (levels : nat) (container : handle) : handle :=
  match levels with
  | 0 => container
  | S levels' =>
      match parent container with
      | None => container
      | Some p =>
          if 100 <? Py.len (text_at soup p)
          then widen soup levels' p
          else container
      end
  end.

(** [container in rfq_elements] *)
Definition tag_in (soup : node) (container : handle) (rfq_elements : list handle) : bool :=
  existsb
    (λ e, match subtree soup e, subtree soup container with
          | Some a, Some b => tag_eq a b
          | _, _ => bool_decide (e = container)
          end)
    rfq_elements.

Definition detail_links (soup : node) : list handle :=
  (filter (λ d, is_detail_link d.2 = true) (descendants [] soup)).*1.

(** The body of [for link in detail_links]. *)
Definition collect_step (soup : node) (rfq_elements : list handle) (link : handle)
    : list handle :=
  let container := widen soup 5 link in
  if tag_in soup container rfq_elements
  then rfq_elements
  else rfq_elements ++ [container].

Definition collect_containers (soup : node) (links : list handle) : list handle :=
  foldl (collect_step soup) [] links.

Definition get_rfq_containers (soup : node) : list handle :=
  take 50 (collect_containers soup (detail_links soup)).

(** ** FieldPatterns: the regular expressions of the extractor *)

Module Patterns.
Import Re.

Definition upper_ : regex := range "A" "Z".
Definition lower_ : regex := range "a" "z".

(** The two name patterns, each one group:
    [[A-Z][a-z]+\s+[A-Z][a-z]+(?:\s+[A-Z][a-z]+)?] and
    [[A-Z][a-z]+\s+[A-Z]+[a-z]*]. *)
Definition name_patterns : list regex :=
  [ Group (Seq [upper_; Plus lower_; Plus ws; upper_; Plus lower_;
                Opt (Seq [Plus ws; upper_; Plus lower_])]);
    Group (Seq [upper_; Plus lower_; Plus ws; Plus upper_; Star lower_]) ].

Definition time_unit : regex :=
  Alts [Lit "hour"; Lit "hours"; Lit "minute"; Lit "minutes"; Lit "day"; Lit "days"].

(** The two time patterns, each one group:
    [\d+\s+(?:hour|hours|minute|minutes|day|days)\s+(?:ago|before)] and
    [\d+\s+(?:hour|hours|minute|minutes|day|days)]. *)
Definition time_patterns : list regex :=
  [ Group (Seq [Plus digit; Plus ws; time_unit; Plus ws; Alts [Lit "ago"; Lit "before"]]);
    Group (Seq [Plus digit; Plus ws; time_unit]) ].

(** [Quotes?\s+Left\s+(\d+)] and [(\d+)\s+quote[s]?\s+left] *)
Definition quotes_patterns : list regex :=
  [ Seq [Lit "Quote"; Opt (Chr "s"); Plus ws; Lit "Left"; Plus ws; Group (Plus digit)];
    Seq [Group (Plus digit); Plus ws; Lit "quote"; Opt (Chr "s"); Plus ws; Lit "left"] ].

(** [[^,\n\r]] *)
Definition not_sep : regex := none_of [","%char; "010"%char; "013"%char].

(** The two quantity patterns.  The first is [Quantity\s+Required:\s*]
    followed by the group
    [\d+[^,\n\r]*(?:Piece|Unit|Box|Carton|Meter|Kilogram|Ton|Liter)[^,\n\r]*];
    the second is the group [\d+\s*(?:Piece|Pieces|Unit|Units|Box|Boxes|
    Carton|Cartons|Meter|Meters|Kilogram|Ton|Liter)[^,\n\r]*]. *)
Definition quantity_patterns : list regex :=
  [ Seq [Lit "Quantity"; Plus ws; Lit "Required:"; Star ws;
         Group (Seq [Plus digit; Star not_sep;
                     Alts [Lit "Piece"; Lit "Unit"; Lit "Box"; Lit "Carton"; Lit "Meter";
                           Lit "Kilogram"; Lit "Ton"; Lit "Liter"];
                     Star not_sep])];
    Group (Seq [Plus digit; Star ws;
                Alts [Lit "Piece"; Lit "Pieces"; Lit "Unit"; Lit "Units"; Lit "Box";
                      Lit "Boxes"; Lit "Carton"; Lit "Cartons"; Lit "Meter"; Lit "Meters";
                      Lit "Kilogram"; Lit "Ton"; Lit "Liter"];
                Star not_sep]) ].

(** [[^\w\s\-\.\,\(\)\/\&\%\#\@\!\?\:\;]] *)
Definition unsafe_char : regex :=
  NotCls (λ c, Py.is_word c || Py.is_space c ||
               existsb (Ascii.eqb c)
                 ["-"; "."; ","; "("; ")"; "/"; "&"; "%"; "#"; "@"; "!"; "?"; ":"; ";"]%char).

End Patterns.

(** ** The record: a dictionary with the sixteen columns *)

Abbreviation dict := (gmap string string).

Definition required_columns : list string :=
  [ "RFQ ID"; "Title"; "Buyer Name"; "Buyer Image"; "Inquiry Time";
    "Quotes Left"; "Country"; "Quantity Required"; "Email Confirmed";
    "Experienced Buyer"; "Complete Order via RFQ"; "Typical Replies";
    "Interactive User"; "Inquiry URL"; "Inquiry Date"; "Scraping Date" ].

(** [d[key]] for a key that is present *)
Definition field (d : dict) (key : string) : string := d !!! key.

(** ** Helpers of the scraper class *)

(** [self.base_url] *)
Definition self_base_url : string := "https://sourcing.alibaba.com".

(** [clean_text] *)
Definition clean_text (text : string) : string :=
  match text with
  | EmptyString => ""
  | _ =>
      let text := Re.sub (Re.Plus Re.ws) " " (Py.strip text) in
      let text := Re.sub Patterns.unsafe_char "" text in
      text
  end.

(** [extract_rfq_id_from_url].  [url.find] cannot miss after the [in] test;
    its -1 would make [start] equal to 1. *)
Definition extract_rfq_id_from_url (url : string) : string :=
  if Py.contains "p=ID1" url then
    let start := match Py.find url "p=ID1" with Some i => i + 2 | None => 1 end in
    let end_ := match Py.find_from url "&" start with
                | Some e => e
                | None => Py.len url
                end in
    if start + 10 <=? Py.len url
    then Py.slice start (start + 10) url
    else Py.slice start end_ url
  else "N/A".

(** ** Errors inside the extractor

    The body of [extract_rfq_data_improved] is one [try] block: a step
    either goes on with the dictionary or raises, and then the dictionary
    is returned as it stands. *)

Inductive outcome : Type :=
| Done (rfq_data : dict)
| Raised (rfq_data : dict).

Definition and_then (o : outcome) (step : dict → outcome) : outcome :=
  match o with
  | Done d => step d
  | Raised d => Raised d
  end.

Definition pure_step (f : dict → dict) : dict → outcome := λ d, Done (f d).

Definition except_pass (o : outcome) : dict :=
  match o with
  | Done d | Raised d => d
  end.

Notation "o >>> step" := (and_then o step) (at level 50, left associativity).

(** ** FieldExtractor and RecordFilter *)

Section Scraper.

(** [urllib.parse.urljoin]; [None] when it raises [ValueError]. *)
Variable urljoin : string → string → option string.

(** [datetime.now().strftime('%d-%m-%Y')] *)
Variable current_date : string.

Definition defaults : dict :=
  list_to_map
    [ ("RFQ ID", "N/A"); ("Title", "N/A"); ("Buyer Name", "N/A");
      ("Buyer Image", "N/A"); ("Inquiry Time", "N/A"); ("Quotes Left", "N/A");
      ("Country", "United Arab Emirates"); ("Quantity Required", "N/A");
      ("Email Confirmed", "No"); ("Experienced Buyer", "No");
      ("Complete Order via RFQ", "No"); ("Typical Replies", "No");
      ("Interactive User", "No"); ("Inquiry URL", "N/A");
      ("Inquiry Date", current_date); ("Scraping Date", current_date) ].

(** [container.find('a', href=re.compile(r'rfq_detail\.htm'))] *)
Definition find_detail_link (container : node) : option node :=
  List.find is_detail_link (descendants [] container).*2.

(** [container.find_all('img')] *)
Definition find_all_img (container : node) : list node :=
  List.filter (is_tag "img") (descendants [] container).*2.

(** Title and URL. *)
Definition title_and_url (container : node) (rfq_data : dict) : outcome :=
  match find_detail_link container with
  | None => Done rfq_data
  | Some title_link =>
      let title := clean_text (get_text title_link) in
      let rfq_data :=
        if 10 <? Py.len title then <["Title" := title]> rfq_data else rfq_data in
      match get_attr title_link "href" with
      | None | Some EmptyString => Done rfq_data
      | Some href =>
          let joined :=
            if Py.startswith href "/" then urljoin self_base_url href else Some href in
          match joined with
          | None => Raised rfq_data
          | Some href =>
              let rfq_data := <["Inquiry URL" := href]> rfq_data in
              Done (<["RFQ ID" := extract_rfq_id_from_url href]> rfq_data)
          end
      end
  end.

(** Buyer name. *)
Definition exclude_words : list string :=
  [ "Posted"; "Quote"; "United"; "Arab"; "Emirates"; "Date"; "Quantity";
    "Required"; "Email"; "Confirmed"; "Quotes"; "Left"; "Before"; "Piece" ].

Definition name_ok (m : string) : bool :=
  negb (Py.any_in exclude_words m) && (5 <? Py.len m).

Fixpoint name_loop (patterns : list Re.regex) (container_text : string)
    (rfq_data : dict) : dict :=
  match patterns with
  | [] => rfq_data
  | pattern :: patterns' =>
      let matches := Re.findall pattern container_text in
      let rfq_data :=
        match List.find name_ok matches with
        | Some m => <["Buyer Name" := Py.strip m]> rfq_data
        | None => rfq_data
        end in
      if negb (String.eqb (field rfq_data "Buyer Name") "N/A")
      then rfq_data
      else name_loop patterns' container_text rfq_data
  end.

(** Buyer image. *)
Definition image_ok (src : string) : bool :=
  (Py.contains "50x50" src || Py.contains "avatar" (Py.lower src)) &&
  Py.contains "alicdn.com" src.

Definition buyer_image (container : node) (rfq_data : dict) : dict :=
  let srcs := (λ img, default "" (get_attr img "src")) <$> find_all_img container in
  match List.find image_ok srcs with
  | Some src =>
      let src := if Py.startswith src "//" then "https:" +:+ src else src in
      <["Buyer Image" := src]> rfq_data
  | None => rfq_data
  end.

(** Time posted and quotes left: the first pattern that matches. *)
Fixpoint first_match (patterns : list Re.regex) (container_text : string)
    : option string :=
  match patterns with
  | [] => None
  | pattern :: patterns' =>
      match Re.search true pattern container_text with
      | Some m => Some (Re.group1 m)
      | None => first_match patterns' container_text
      end
  end.

Definition set_first_match (key : string) (patterns : list Re.regex)
    (container_text : string) (rfq_data : dict) : dict :=
  match first_match patterns container_text with
  | Some g => <[key := g]> rfq_data
  | None => rfq_data
  end.

(** Quantity required: a match that is too long passes to the next pattern. *)
Fixpoint quantity_loop (patterns : list Re.regex) (container_text : string)
    (rfq_data : dict) : dict :=
  match patterns with
  | [] => rfq_data
  | pattern :: patterns' =>
      match Re.search true pattern container_text with
      | Some m =>
          let quantity := clean_text (Re.group1 m) in
          if Py.len quantity <? 100
          then <["Quantity Required" := quantity]> rfq_data
          else quantity_loop patterns' container_text rfq_data
      | None => quantity_loop patterns' container_text rfq_data
      end
  end.

(** Flags. *)
Definition set_flag (phrase key : string) (text_lower : string) (rfq_data : dict) : dict :=
  if Py.contains phrase text_lower then <[key := "Yes"]> rfq_data else rfq_data.

Definition flags (container_text : string) (rfq_data : dict) : dict :=
  let text_lower := Py.lower container_text in
  let rfq_data := set_flag "email confirmed" "Email Confirmed" text_lower rfq_data in
  let rfq_data := set_flag "typically replies" "Typical Replies" text_lower rfq_data in
  let rfq_data := set_flag "interactive user" "Interactive User" text_lower rfq_data in
  let rfq_data := set_flag "experienced buyer" "Experienced Buyer" text_lower rfq_data in
  rfq_data.

(** The [try] block of [extract_rfq_data_improved]. *)
Definition extract_body (container : node) (rfq_data : dict) : outcome :=
  let container_text := get_text container in
  title_and_url container rfq_data
  >>> pure_step (name_loop Patterns.name_patterns container_text)
  >>> pure_step (buyer_image container)
  >>> pure_step (set_first_match "Inquiry Time" Patterns.time_patterns container_text)
  >>> pure_step (set_first_match "Quotes Left" Patterns.quotes_patterns container_text)
  >>> pure_step (quantity_loop Patterns.quantity_patterns container_text)
  >>> pure_step (flags container_text).

Definition extract_rfq_data_improved (container : node) : dict :=
  except_pass (extract_body container defaults).

(** Whether the [try] block is left through its [except] clause. *)
Definition raises (container : node) : bool :=
  match extract_body container defaults with
  | Raised _ => true
  | Done _ => false
  end.

(** *** RecordFilter: the candidate loop of [scrape_page_with_selenium] *)

Definition skip_words : list string :=
  [ "buy access"; "submit buying"; "join free"; "sign in" ].

(** The two [continue] tests, as one decision. *)
Definition accept (rfq_data : dict) (processed_urls seen_urls : gset string) : bool :=
  let title := field rfq_data "Title" in
  let url := field rfq_data "Inquiry URL" in
  if String.eqb title "N/A" || (Py.len title <? 10) ||
     bool_decide (url ∈ processed_urls) || bool_decide (url ∈ seen_urls)
  then false
  else if Py.any_in skip_words (Py.lower title) then false
  else true.

Fixpoint containers_loop (rfq_containers : list node) (page_data : list dict)
    (processed_urls seen_urls : gset string) : list dict * gset string :=
  match rfq_containers with
  | [] => (page_data, seen_urls)
  | container :: rest =>
      let rfq_data := extract_rfq_data_improved container in
      if accept rfq_data processed_urls seen_urls then
        let url := field rfq_data "Inquiry URL" in
        let processed_urls := {[url]} ∪ processed_urls in
        let seen_urls := {[url]} ∪ seen_urls in
        let page_data := page_data ++ [rfq_data] in
        if 20 <=? length page_data
        then (page_data, seen_urls)
        else containers_loop rest page_data processed_urls seen_urls
      else containers_loop rest page_data processed_urls seen_urls
  end.

(** *** The run

    The scraper object keeps [seen_urls].  [fetched] is a ghost log of the
    calls of [scrape_page_with_selenium]: page number, URL and number of
    records the call returned. *)

Record fetch_event : Type := { ev_page : nat; ev_url : string; ev_yield : nat }.

Definition event (page : nat) (url : string) (n : nat) : fetch_event :=
  {| ev_page := page; ev_url := url; ev_yield := n |}.

Record scraper : Type := { seen_urls : gset string; fetched : list fetch_event }.

(** The rendered and parsed page that the [n]-th fetch of the run gets for
    a URL; [None] when rendering raises, which the function turns into an
    empty page result. *)
Variable render : nat → string → option node.

Definition resolve (soup : node) (hs : list handle) : list node :=
  omap (subtree soup) hs.

Definition scrape_page_with_selenium (self : scraper) (url : string) (page_num : nat)
    : list dict * scraper :=
  let '(page_data, seen) :=
    match render (length (fetched self)) url with
    | Some soup =>
        let rfq_containers := resolve soup (get_rfq_containers soup) in
        containers_loop rfq_containers [] ∅ (seen_urls self)
    | None => ([], seen_urls self)
    end in
  (page_data,
   {| seen_urls := seen;
      fetched := fetched self ++
                 [{| ev_page := page_num; ev_url := url; ev_yield := length page_data |}] |}).

(** PaginationController: [scrape_multiple_pages]. *)
Definition page_url (base_url : string) (page : nat) : string :=
  if page =? 1 then base_url
  else if Py.contains "?" base_url
       then base_url +:+ "&page=" +:+ pretty page
       else base_url +:+ "?page=" +:+ pretty page.

Definition alt_url (base_url : string) (page : nat) : string :=
  Py.replace base_url "&recently=Y"
    ("&recently=Y&startIndex=" +:+ pretty ((page - 1) * 20)).

Definition is_empty (page_data : list dict) : bool :=
  match page_data with
  | [] => true
  | _ => false
  end.

Fixpoint pages_loop (pages : list nat) (base_url : string) (self : scraper)
    (all_data : list dict) : list dict * scraper :=
  match pages with
  | [] => (all_data, self)
  | page :: pages' =>
      let url := page_url base_url page in
      let '(page_data, self) := scrape_page_with_selenium self url page in
      if is_empty page_data then
        let alt_url := alt_url base_url page in
        let '(page_data, self) :=
          if negb (String.eqb alt_url url)
          then scrape_page_with_selenium self alt_url page
          else (page_data, self) in
        if is_empty page_data
        then (all_data, self)
        else pages_loop pages' base_url self (all_data ++ page_data)
      else pages_loop pages' base_url self (all_data ++ page_data)
  end.

(** The body of the page loop: the fetch of the page and, when it gives
    nothing, the fetch of the alternative URL. *)
Definition page_attempt (base_url : string) (self : scraper) (page : nat)
    : list dict * scraper :=
  let url := page_url base_url page in
  let '(page_data, self) :=
    scrape_page_with_selenium self url page in
  if is_empty page_data then
    let alt_url := alt_url base_url page in
    if negb (String.eqb alt_url url)
    then scrape_page_with_selenium self alt_url page
    else (page_data, self)
  else (page_data, self).

(** [setup_ok] is the result of [setup_selenium]. *)
Definition scrape_multiple_pages (setup_ok : bool) (self : scraper)
    (base_url : string) (max_pages : nat) : list dict * scraper :=
  if setup_ok
  then pages_loop (seq 1 max_pages) base_url self []
  else ([], self).

End Scraper.

(** ** CsvWriter: [save_to_csv]

    The data frame of [save_to_csv] as the list of its rows.  A cell is the
    value of a record at a column, [None] for pandas' NaN where the record
    has no such key.  The result is the frame handed to [to_csv]; it is
    [None] where the function returns [None] before it.  The values of
    the records are strings, so [str(x)] is [x]; the file name and the
    writing of the file, taken to succeed, are left out. *)

(** Whether the frame built from the records has the column. *)
Definition has_column (data : list dict) (col : string) : bool :=
  existsb (λ d, bool_decide (is_Some (d !! col))) data.

(** [df.drop_duplicates(subset=[key], keep='first')]: a row goes when a row
    before it has the same cell at [key]. *)
Fixpoint drop_duplicates_go (key : string) (before : list (option string))
    (data : list dict) : list dict :=
  match data with
  | [] => []
  | d :: rest =>
      if bool_decide (d !! key ∈ before)
      then drop_duplicates_go key before rest
      else d :: drop_duplicates_go key (d !! key :: before) rest
  end.

Definition drop_duplicates (key : string) (data : list dict) : list dict :=
  drop_duplicates_go key [] data.

Definition cleaned_columns : list string := [ "Title"; "Buyer Name"; "Quantity Required" ].

(** A cell after the cleaning loop. *)
Definition cell (d : dict) (col : string) : option string :=
  if bool_decide (col ∈ cleaned_columns)
  then Some (match d !! col with
             | Some x => clean_text x
             | None => "N/A"
             end)
  else d !! col.

(** A row of [df[required_columns]]. *)
Definition row (d : dict) : list (option string) := cell d <$> required_columns.

Definition save_to_csv (data : list dict) : option (list (list (option string))) :=
  if is_empty data then None
  else if negb (has_column data "Inquiry URL") then None
  else
    let df := drop_duplicates "Inquiry URL" data in
    if forallb (has_column data) required_columns
    then Some (row <$> df)
    else None.

(** ** Concrete pages and collaborators used in the examples *)

Module Scenario.

(** [urljoin] on the references of the examples: one that starts with two
    slashes names a host, and a host with an unmatched square bracket
    makes [urljoin] raise [ValueError]; one that starts with one slash
    replaces the path of the base, which here has none. *)
Fixpoint until_delimiter (s : string) : string :=
  match s with
  | EmptyString => EmptyString
  | String c s' =>
      if existsb (Ascii.eqb c) ["/"; "?"; "#"]%char
      then EmptyString
      else String c (until_delimiter s')
  end.

Definition host_of (url : string) : string := until_delimiter (Py.drop 2 url).

Definition urljoin (base url : string) : option string :=
  if Py.startswith url "//" then
    if xorb (Py.contains "[" (host_of url)) (Py.contains "]" (host_of url))
    then None
    else Some ("https:" +:+ url)
  else Some (base +:+ url).

Definition today : string := "03-11-2026".

Definition film_title : string := "Need 200 pieces of packaging film".
Definition film_href : string := "/rfq/rfq_detail.htm?p=ID1234567890".
Definition film_text : string :=
  "Posted 3 hours ago... Quotes Left 5... Quantity Required: 200 Pieces... Email Confirmed".

Definition card (href title text : string) : node :=
  Tag "div" ∅
    [ Tag "a" {[ "href" := href ]} [NavigableString title];
      NavigableString text ].

Definition film_container : node := card film_href film_title film_text.

(** the same card with a link that [urljoin] refuses *)
Definition bad_href_container : node :=
  card "//[/rfq_detail.htm" film_title film_text.

Definition complete_order_container : node :=
  Tag "div" ∅ [NavigableString "Buyer tags: Complete order via RFQ"].

(** a card whose title has exactly ten characters *)
Definition ten_char_container : node :=
  card film_href "Steel pipe" film_text.

Definition sign_in_container : node :=
  card film_href "Please Sign In to see this request" film_text.

Definition film_page : node := Tag "[document]" ∅ [film_container].

(** a page whose two detail links lie in one card *)
Definition two_link_page : node :=
  Tag "[document]" ∅
    [ Tag "div" ∅
        [ Tag "a" {[ "href" := film_href ]} [NavigableString film_title];
          Tag "a" {[ "href" := film_href ]} [NavigableString "details"];
          NavigableString film_text ] ].



(** The first fetch of the run gets [film_page]; later fetches fail. *)
Definition render_once (n : nat) (url : string) : option node :=
  if n =? 0 then Some film_page else None.

Definition fresh : scraper := {| seen_urls := ∅; fetched := [] |}.

(** a listing URL without the recency marker *)
Definition plain_url : string :=
  "https://sourcing.alibaba.com/rfq/rfq_search_list.htm?country=AE".

End Scenario.

(** ** Vocabulary of the properties *)


(** [patch K d d']: [d'] is [d] after assignments to keys of [K]. *)
Inductive patch (K : gset string) (d : dict) : dict → Prop :=
| patch_id : patch K d d
| patch_insert k v d' : k ∈ K → patch K d d' → patch K d (<[k:=v]> d').

(** The keys of the link step and of the flags. *)
Definition link_keys : gset string := {[ "Title"; "Inquiry URL"; "RFQ ID" ]}.
Definition flag_keys : gset string :=
  {[ "Email Confirmed"; "Typical Replies"; "Interactive User"; "Experienced Buyer" ]}.

(** Every key the extractor may assign. *)
Definition written_keys : gset string :=
  link_keys ∪ {[ "Buyer Name"; "Buyer Image"; "Inquiry Time"; "Quotes Left";
                 "Quantity Required" ]} ∪ flag_keys.

(** The four phrases and the keys they set. *)
Definition flag_phrases : list (string * string) :=
  [ ("Email Confirmed", "email confirmed");
    ("Typical Replies", "typically replies");
    ("Interactive User", "interactive user");
    ("Experienced Buyer", "experienced buyer") ].

(** What the fields after the link hold when each is extracted on its
    own from the container: the reading of "extraction of the remaining
    fields continues". *)
Definition later_fields_extracted (current_date : string) (container : node)
    (r : dict) : Prop :=
  let text := get_text container in
  r !! "Buyer Name" = name_loop Patterns.name_patterns text (defaults current_date) !! "Buyer Name" ∧
  r !! "Buyer Image" = buyer_image container (defaults current_date) !! "Buyer Image" ∧
  r !! "Inquiry Time" = Some (default "N/A" (first_match Patterns.time_patterns text)) ∧
  r !! "Quotes Left" = Some (default "N/A" (first_match Patterns.quotes_patterns text)) ∧
  r !! "Quantity Required" =
    quantity_loop Patterns.quantity_patterns text (defaults current_date) !! "Quantity Required" ∧
  (∀ key phrase, (key, phrase) ∈ flag_phrases →
     r !! key = Some (if Py.contains phrase (Py.lower text) then "Yes" else "No")).

(** [phrase] occurs in [text] when case is ignored: some stretch of [text]
    is [phrase] once lowered. *)
Definition occurs_ignoring_case (phrase text : string) : Prop :=
  ∃ pre mid post, text = pre +:+ mid +:+ post ∧ Py.lower mid = phrase.

(** The absolute URL of the film card. *)
Definition film_url : string :=
  "https://sourcing.alibaba.com/rfq/rfq_detail.htm?p=ID1234567890".

Definition url_of (r : dict) : string := field r "Inquiry URL".
Definition title_of (r : dict) : string := field r "Title".

(** What the filter lets through. *)
Definition passes_filter (r : dict) : Prop :=
  title_of r ≠ "N/A" ∧
  10 ≤ Py.len (title_of r) ∧
  Py.any_in skip_words (Py.lower (title_of r)) = false.

(** The log of a loop over [done]: every event belongs to a page of
    [done], every page of [done] has an event, and every page but the last
    has an event with records. *)
Definition visited_in_order (done : list nat) (evs : list fetch_event) : Prop :=
  (∀ e, e ∈ evs → ev_page e ∈ done) ∧
  (∀ q, q ∈ done → ∃ e, e ∈ evs ∧ ev_page e = q) ∧
  (∀ d1 q d2, done = d1 ++ q :: d2 → d2 ≠ [] →
     ∃ e, e ∈ evs ∧ ev_page e = q ∧ 0 < ev_yield e).

(** What the link step leaves as title and as URL. *)
Definition title_value (container : node) : string :=
  match find_detail_link container with
  | Some title_link =>
      let title := clean_text (get_text title_link) in
      if 10 <? Py.len title then title else "N/A"
  | None => "N/A"
  end.

Definition url_value (urljoin : string → string → option string)
    (container : node) : string :=
  match find_detail_link container with
  | Some title_link =>
      match get_attr title_link "href" with
      | None | Some EmptyString => "N/A"
      | Some href =>
          if Py.startswith href "/"
          then default "N/A" (urljoin self_base_url href)
          else href
      end
  | None => "N/A"
  end.


(** The words a regular expression matches, with the capture before and
    after: the declarative counterpart of [Re.matchk]. *)
Inductive matches (ic : bool) :
    Re.regex → string → option string → option string → Prop :=
| matches_eps cap : matches ic Re.Eps "" cap cap
| matches_cls p ch cap :
    Re.cls_match ic p ch = true → matches ic (Re.Cls p) (String ch "") cap cap
| matches_notcls p ch cap :
    Re.cls_match ic p ch = false → matches ic (Re.NotCls p) (String ch "") cap cap
| matches_cat r1 r2 w1 w2 cap cap1 cap2 :
    matches ic r1 w1 cap cap1 → matches ic r2 w2 cap1 cap2 →
    matches ic (Re.Cat r1 r2) (w1 +:+ w2) cap cap2
| matches_or_l r1 r2 w cap cap1 :
    matches ic r1 w cap cap1 → matches ic (Re.Or r1 r2) w cap cap1
| matches_or_r r1 r2 w cap cap1 :
    matches ic r2 w cap cap1 → matches ic (Re.Or r1 r2) w cap cap1
| matches_star_nil r cap : matches ic (Re.Star r) "" cap cap
| matches_star_cons r w1 w2 cap cap1 cap2 :
    matches ic r w1 cap cap1 → matches ic (Re.Star r) w2 cap1 cap2 →
    matches ic (Re.Star r) (w1 +:+ w2) cap cap2
| matches_group r w cap cap1 :
    matches ic r w cap cap1 → matches ic (Re.Group r) w cap (Some w).

(** Every character of a string passes a test. *)
Fixpoint all_chars (p : ascii → bool) (s : string) : bool :=
  match s with
  | EmptyString => true
  | String c s' => p c && all_chars p s'
  end.


(** Whether a pattern has a capturing group. *)
Fixpoint has_group (r : Re.regex) : bool :=
  match r with
  | Re.Eps | Re.Cls _ | Re.NotCls _ => false
  | Re.Cat r1 r2 | Re.Or r1 r2 => has_group r1 || has_group r2
  | Re.Star r' => has_group r'
  | Re.Group _ => true
  end.


(** The characters [clean_text] lets through: word characters, the space
    and the listed punctuation. *)
Definition safe_char (c : ascii) : bool :=
  Py.is_word c || Ascii.eqb c " " ||
  existsb (Ascii.eqb c)
    ["-"; "."; ","; "("; ")"; "/"; "&"; "%"; "#"; "@"; "!"; "?"; ":"; ";"]%char.

(** No white space but the space itself. *)
Definition plain_space (c : ascii) : bool :=
  negb (Py.is_space c) || Ascii.eqb c " ".

(** The record has every column of the template. *)
Definition complete (d : dict) : Prop :=
  list_to_set required_columns ⊆ dom d.

(** The record of the film card. *)
Definition film_record : dict :=
  extract_rfq_data_improved Scenario.urljoin Scenario.today Scenario.film_container.

(** Every character class of a pattern lies within [q], and the pattern
    has no complemented class. *)
Fixpoint classes_within (q : ascii → bool) (r : Re.regex) : Prop :=
  match r with
  | Re.Eps => True
  | Re.Cls p => ∀ c, p c = true → q c = true
  | Re.NotCls _ => False
  | Re.Cat r1 r2 | Re.Or r1 r2 => classes_within q r1 ∧ classes_within q r2
  | Re.Star r' | Re.Group r' => classes_within q r'
  end.

(** A letter or white space. *)
Definition letter_or_space (c : ascii) : bool :=
  Py.is_upper c || Py.is_lower c || Py.is_space c.

(** * Properties *)

(** ** The container locator *)





Lemma foldl_collect_from soup (links acc : list handle) (c : handle) :
  c ∈ foldl (collect_step soup) acc links →
  c ∈ acc ∨ ∃ link, link ∈ links ∧ c = widen soup 5 link.
Proof.
  revert acc. induction links as [|l links IH]; intros acc Hc; [by left|].
  cbn [foldl] in Hc. apply IH in Hc as [Hc|(link & Hl & ->)].
  - unfold collect_step in Hc. cbv zeta in Hc.
    destruct (tag_in soup (widen soup 5 l) acc).
    + by left.
    + apply elem_of_app in Hc as [Hc|Hc]; [by left|].
      apply list_elem_of_singleton in Hc. right. exists l. split; [left|done].
  - right. exists link. split; [by right|done].
Qed.









(** Handles are live: every handle the locator returns stands for an
    element of the page, so [resolve] loses no container. *)
Lemma descendants_subtree soup :
  ∀ n base, subtree soup base = Some n →
  ∀ h m, (h, m) ∈ descendants base n → subtree soup h = Some m.
Proof.
  fix IH 1. intros [s|s|name ats cs] base Hb h m Hin; cbn in Hin;
    try by apply elem_of_nil in Hin.
  revert h m Hin.
  assert (Hkids : ∀ j c, cs !! j = Some c → subtree soup ((0 + j) :: base) = Some c).
  { intros j c Hj. cbn. by rewrite Hb. }
  revert Hkids. generalize 0 as i. clear Hb.
  induction cs as [|c cs IHcs]; intros i Hkids h m Hin.
  - by apply elem_of_nil in Hin.
  - apply elem_of_cons in Hin as [[= -> ->]|Hin].
    + rewrite <- (Nat.add_0_r i). by apply Hkids.
    + apply elem_of_app in Hin as [Hin|Hin].
      * apply (IH c (i :: base)); [|done].
        rewrite <- (Nat.add_0_r i). by apply Hkids.
      * apply (IHcs (S i)); [|done].
        intros j c' Hj. replace (S i + j) with (i + S j) by lia. by apply Hkids.
Qed.

Lemma widen_live soup levels h :
  is_Some (subtree soup h) → is_Some (subtree soup (widen soup levels h)).
Proof.
  revert h. induction levels as [|k IH]; intros h Hh; [done|].
  cbn [widen]. destruct h as [|i p]; [done|]. cbn [parent].
  destruct (100 <? Py.len (text_at soup p)); [|done].
  apply IH. cbn in Hh. destruct (subtree soup p); [done|].
  by destruct Hh.
Qed.

Lemma get_rfq_containers_live soup h :
  h ∈ get_rfq_containers soup → is_Some (subtree soup h).
Proof.
  intros Hh. unfold get_rfq_containers in Hh. apply subseteq_take in Hh.
  apply foldl_collect_from in Hh as [Hh|(link & Hl & ->)].
  - by apply elem_of_nil in Hh.
  - apply widen_live. unfold detail_links in Hl.
    apply list_elem_of_fmap in Hl as ([h' n] & -> & Hl).
    apply list_elem_of_filter in Hl as [_ Hl].
    exists n. by apply (descendants_subtree soup soup []).
Qed.

Lemma resolve_length soup :
  length (resolve soup (get_rfq_containers soup)) = length (get_rfq_containers soup).
Proof.
  unfold resolve.
  pose proof (get_rfq_containers_live soup) as Hlive.
  induction (get_rfq_containers soup) as [|h hs IH]; [done|].
  cbn. destruct (Hlive h) as [n ->]; [left|].
  cbn. f_equal. apply IH. intros h' Hh'. apply Hlive. by right.
Qed.




(** ** The extractor: which keys a step writes *)

#[local] Hint Constructors patch : core.

#[local] Set Warnings "-clear-no-such-hyp".

Lemma patch_lookup K d d' k : patch K d d' → k ∉ K → d' !! k = d !! k.
Proof.
  induction 1 as [|k' v d' Hk' Hp IH]; intros Hk; [done|].
  rewrite lookup_insert_ne by set_solver. by apply IH.
Qed.

Lemma patch_dom K d d' : patch K d d' → K ⊆ dom d → dom d' = dom d.
Proof.
  induction 1 as [|k' v d' Hk' Hp IH]; intros HK; [done|].
  rewrite dom_insert_L, IH by done. set_solver.
Qed.

Lemma patch_trans K d1 d2 d3 : patch K d1 d2 → patch K d2 d3 → patch K d1 d3.
Proof. intros H12. induction 1 as [|k v d3 Hk Hp IH]; [done|]. by constructor. Qed.

Lemma patch_weaken K K' d d' : K ⊆ K' → patch K d d' → patch K' d d'.
Proof. intros HK. induction 1; [done|]. constructor; [set_solver|done]. Qed.

Ltac patch_steps :=
  repeat first
    [ apply patch_id
    | apply patch_insert; [set_solver|] ].

Section ExtractorFacts.

Variable urljoin : string → string → option string.
Variable current_date : string.

Lemma title_and_url_patch container d :
  patch link_keys d (except_pass (title_and_url urljoin container d)).
Proof.
  unfold title_and_url, link_keys.
  repeat (case_match; cbn [except_pass]); patch_steps.
Qed.

(** When the link step raises, at most the title has been written. *)
Lemma title_and_url_raised container d d' :
  title_and_url urljoin container d = Raised d' → patch {[ "Title" ]} d d'.
Proof.
  unfold title_and_url.
  repeat case_match; intros [= <-]; patch_steps.
Qed.

Lemma name_loop_patch patterns text d :
  patch {[ "Buyer Name" ]} d (name_loop patterns text d).
Proof.
  revert d. induction patterns as [|p ps IH]; intros d; cbn [name_loop]; [done|].
  cbv zeta. repeat case_match; patch_steps.
  all: eapply patch_trans; [|apply IH]; patch_steps.
Qed.

Lemma buyer_image_patch container d :
  patch {[ "Buyer Image" ]} d (buyer_image container d).
Proof. unfold buyer_image. cbv zeta. repeat case_match; patch_steps. Qed.

Lemma set_first_match_patch key patterns text d :
  patch {[ key ]} d (set_first_match key patterns text d).
Proof. unfold set_first_match. case_match; patch_steps. Qed.

Lemma quantity_loop_patch patterns text d :
  patch {[ "Quantity Required" ]} d (quantity_loop patterns text d).
Proof.
  revert d. induction patterns as [|p ps IH]; intros d; cbn [quantity_loop]; [done|].
  cbv zeta. repeat case_match; try apply IH; patch_steps.
Qed.

Lemma set_flag_patch phrase key text_lower d :
  key ∈ flag_keys → patch flag_keys d (set_flag phrase key text_lower d).
Proof. intros Hk. unfold set_flag. case_match; [by apply patch_insert|done]. Qed.

Lemma flags_patch text d : patch flag_keys d (flags text d).
Proof.
  unfold flags. cbv zeta.
  repeat (eapply patch_trans; [|apply set_flag_patch; unfold flag_keys; set_solver]).
  apply patch_id.
Qed.

End ExtractorFacts.

(** ** The extractor: what each field holds *)

Section ExtractorResults.

Variable urljoin : string → string → option string.
Variable current_date : string.

Lemma defaults_dom : dom (defaults current_date) = list_to_set required_columns.
Proof. unfold defaults. rewrite dom_list_to_map_L. reflexivity. Qed.

Lemma defaults_columns k : k ∈ required_columns → is_Some ((defaults current_date) !! k).
Proof.
  intros Hk. apply elem_of_dom. rewrite defaults_dom. by apply elem_of_list_to_set.
Qed.

(** A step's own key: its value after the step only depends on its value
    before. *)
Lemma name_loop_own patterns text (d d' : dict) :
  d !! "Buyer Name" = d' !! "Buyer Name" →
  name_loop patterns text d !! "Buyer Name" = name_loop patterns text d' !! "Buyer Name".
Proof.
  revert d d'. induction patterns as [|p ps IH]; intros d d' Heq; [done|].
  cbn [name_loop]. cbv zeta. destruct (List.find name_ok (Re.findall p text)) as [m|].
  - unfold field. rewrite !lookup_total_insert_eq.
    destruct (negb (String.eqb (Py.strip m) "N/A")).
    + by rewrite !lookup_insert_eq.
    + apply IH. by rewrite !lookup_insert_eq.
  - unfold field. rewrite !lookup_total_alt, Heq.
    destruct (negb (String.eqb (default inhabitant (d' !! "Buyer Name")) "N/A")); auto.
Qed.

Lemma buyer_image_own container (d d' : dict) :
  d !! "Buyer Image" = d' !! "Buyer Image" →
  buyer_image container d !! "Buyer Image" = buyer_image container d' !! "Buyer Image".
Proof.
  intros Heq. unfold buyer_image. cbv zeta. case_match; [|done].
  by rewrite !lookup_insert_eq.
Qed.

Lemma set_first_match_own key patterns text (d : dict) :
  set_first_match key patterns text d !! key =
    match first_match patterns text with
    | Some g => Some g
    | None => d !! key
    end.
Proof. unfold set_first_match. case_match; [|done]. by rewrite lookup_insert_eq. Qed.

Lemma quantity_loop_own patterns text (d d' : dict) :
  d !! "Quantity Required" = d' !! "Quantity Required" →
  quantity_loop patterns text d !! "Quantity Required" =
  quantity_loop patterns text d' !! "Quantity Required".
Proof.
  intros Heq. induction patterns as [|p ps IH]; [done|].
  cbn [quantity_loop]. cbv zeta. repeat case_match; try done.
  by rewrite !lookup_insert_eq.
Qed.

Lemma set_flag_lookup phrase key text_lower (d : dict) k :
  set_flag phrase key text_lower d !! k =
    if decide (key = k)
    then (if Py.contains phrase text_lower then Some "Yes" else d !! k)
    else d !! k.
Proof.
  unfold set_flag. destruct (Py.contains phrase text_lower).
  - by rewrite lookup_insert.
  - by destruct (decide (key = k)).
Qed.

Lemma flags_own text (d : dict) key phrase :
  (key, phrase) ∈ flag_phrases →
  flags text d !! key =
    if Py.contains phrase (Py.lower text) then Some "Yes" else d !! key.
Proof.
  intros Hin. unfold flag_phrases in Hin.
  repeat (apply elem_of_cons in Hin as [[= -> ->]|Hin]);
    [..|by apply elem_of_nil in Hin];
    unfold flags; cbv zeta; rewrite !set_flag_lookup;
    repeat (case_decide; try discriminate); done.
Qed.

Ltac frame L := rewrite (patch_lookup _ _ _ _ L) by (unfold link_keys; set_solver).
Ltac frame_flags :=
  erewrite (patch_lookup flag_keys _ _ _ (flags_patch _ _))
    by (unfold flag_keys; set_solver).
Ltac frame_quantity :=
  erewrite (patch_lookup _ _ _ _ (quantity_loop_patch _ _ _)) by set_solver.
Ltac frame_quotes :=
  erewrite (patch_lookup _ _ _ _ (set_first_match_patch "Quotes Left" _ _ _))
    by set_solver.
Ltac frame_time :=
  erewrite (patch_lookup _ _ _ _ (set_first_match_patch "Inquiry Time" _ _ _))
    by set_solver.
Ltac frame_image :=
  erewrite (patch_lookup _ _ _ _ (buyer_image_patch _ _)) by set_solver.
Ltac frame_name :=
  erewrite (patch_lookup _ _ _ _ (name_loop_patch _ _ _)) by set_solver.

Lemma extract_body_done container d1 :
  title_and_url urljoin container (defaults current_date) = Done d1 →
  extract_rfq_data_improved urljoin current_date container =
    flags (get_text container)
      (quantity_loop Patterns.quantity_patterns (get_text container)
         (set_first_match "Quotes Left" Patterns.quotes_patterns (get_text container)
            (set_first_match "Inquiry Time" Patterns.time_patterns (get_text container)
               (buyer_image container
                  (name_loop Patterns.name_patterns (get_text container) d1))))).
Proof.
  intros Hd. unfold extract_rfq_data_improved, extract_body. cbv zeta.
  rewrite Hd. reflexivity.
Qed.

Lemma extract_body_raised container d1 :
  title_and_url urljoin container (defaults current_date) = Raised d1 →
  extract_rfq_data_improved urljoin current_date container = d1.
Proof.
  intros Hd. unfold extract_rfq_data_improved, extract_body. cbv zeta.
  rewrite Hd. reflexivity.
Qed.

Lemma raises_link container :
  raises urljoin current_date container =
    match title_and_url urljoin container (defaults current_date) with
    | Raised _ => true
    | Done _ => false
    end.
Proof.
  unfold raises, extract_body. cbv zeta.
  by destruct (title_and_url urljoin container (defaults current_date)).
Qed.

Lemma link_done_patch container d1 :
  title_and_url urljoin container (defaults current_date) = Done d1 → patch link_keys (defaults current_date) d1.
Proof.
  intros Hd. pose proof (title_and_url_patch urljoin container (defaults current_date)) as Hp.
  by rewrite Hd in Hp.
Qed.

Lemma extract_later_fields container :
  raises urljoin current_date container = false →
  later_fields_extracted current_date container
    (extract_rfq_data_improved urljoin current_date container).
Proof.
  rewrite raises_link.
  destruct (title_and_url urljoin container (defaults current_date)) as [d1|d1] eqn:Hd; [|done].
  intros _. rewrite (extract_body_done _ _ Hd).
  pose proof (link_done_patch _ _ Hd) as Hp.
  unfold later_fields_extracted. cbv zeta. split_and!.
  - frame_flags. frame_quantity. frame_quotes. frame_time. frame_image.
    apply name_loop_own. by frame Hp.
  - frame_flags. frame_quantity. frame_quotes. frame_time.
    apply buyer_image_own. frame_name. by frame Hp.
  - frame_flags. frame_quantity. frame_quotes.
    rewrite set_first_match_own. case_match; [done|].
    frame_image. frame_name. by frame Hp.
  - frame_flags. frame_quantity.
    rewrite set_first_match_own. case_match; [done|].
    frame_time. frame_image. frame_name. by frame Hp.
  - frame_flags. apply quantity_loop_own.
    frame_quotes. frame_time. frame_image. frame_name. by frame Hp.
  - intros key phrase Hin. rewrite (flags_own _ _ _ _ Hin).
    case_match; [done|].
    unfold flag_phrases in Hin.
    repeat (apply elem_of_cons in Hin as [[= -> ->]|Hin]);
      [..|by apply elem_of_nil in Hin];
      frame_quantity; frame_quotes; frame_time; frame_image; frame_name;
      by frame Hp.
Qed.

Lemma extract_link_fields container d1 k :
  title_and_url urljoin container (defaults current_date) = Done d1 →
  k ∈ link_keys →
  extract_rfq_data_improved urljoin current_date container !! k = d1 !! k.
Proof.
  intros Hd Hk. rewrite (extract_body_done _ _ Hd).
  unfold link_keys in Hk.
  frame_flags. frame_quantity. frame_quotes. frame_time. frame_image.
  by frame_name.
Qed.

Lemma extract_patch container :
  patch written_keys (defaults current_date)
    (extract_rfq_data_improved urljoin current_date container).
Proof.
  destruct (title_and_url urljoin container (defaults current_date)) as [d1|d1] eqn:Hd.
  - rewrite (extract_body_done _ _ Hd).
    eapply patch_trans;
      [|eapply patch_weaken; [|apply flags_patch]; unfold written_keys; set_solver].
    eapply patch_trans;
      [|eapply patch_weaken; [|apply quantity_loop_patch]; unfold written_keys; set_solver].
    eapply patch_trans;
      [|eapply patch_weaken; [|apply set_first_match_patch]; unfold written_keys; set_solver].
    eapply patch_trans;
      [|eapply patch_weaken; [|apply set_first_match_patch]; unfold written_keys; set_solver].
    eapply patch_trans;
      [|eapply patch_weaken; [|apply buyer_image_patch]; unfold written_keys; set_solver].
    eapply patch_trans;
      [|eapply patch_weaken; [|apply name_loop_patch]; unfold written_keys; set_solver].
    eapply patch_weaken; [|by apply (link_done_patch container)].
    unfold written_keys. set_solver.
  - rewrite (extract_body_raised _ _ Hd).
    eapply patch_weaken; [|by apply (title_and_url_raised urljoin container)].
    unfold written_keys, link_keys. set_solver.
Qed.

Lemma written_keys_columns : written_keys ⊆ list_to_set required_columns.
Proof.
  unfold written_keys, link_keys, flag_keys, required_columns. set_solver.
Qed.

Lemma extract_dom container :
  dom (extract_rfq_data_improved urljoin current_date container) =
    list_to_set required_columns.
Proof.
  rewrite (patch_dom _ _ _ (extract_patch container)); [apply defaults_dom|].
  rewrite defaults_dom. apply written_keys_columns.
Qed.

Lemma extract_raised_defaults container k :
  raises urljoin current_date container = true →
  k ≠ "Title" →
  extract_rfq_data_improved urljoin current_date container !! k = (defaults current_date) !! k.
Proof.
  rewrite raises_link.
  destruct (title_and_url urljoin container (defaults current_date)) as [d1|d1] eqn:Hd; [done|].
  intros _ Hk. rewrite (extract_body_raised _ _ Hd).
  apply (patch_lookup {[ "Title" ]});
    [by apply (title_and_url_raised urljoin container)|set_solver].
Qed.

End ExtractorResults.

Lemma field_lookup (d : dict) (k v : string) : d !! k = Some v → field d k = v.
Proof. intros H. unfold field. by rewrite lookup_total_alt, H. Qed.

Lemma extract_id_default : extract_rfq_id_from_url "N/A" = "N/A".
Proof. reflexivity. Qed.

Lemma defaults_link_keys current_date :
  defaults current_date !! "Title" = Some "N/A" ∧
  defaults current_date !! "Inquiry URL" = Some "N/A" ∧
  defaults current_date !! "RFQ ID" = Some "N/A".
Proof. split_and!; reflexivity. Qed.

(** The three fields of the link step, whether it raises or not. *)
Lemma extract_link_values urljoin current_date container :
  let r := extract_rfq_data_improved urljoin current_date container in
  r !! "Title" = Some (title_value container) ∧
  r !! "Inquiry URL" = Some (url_value urljoin container) ∧
  r !! "RFQ ID" = Some (extract_rfq_id_from_url (url_value urljoin container)).
Proof.
  cbv zeta.
  destruct (defaults_link_keys current_date) as (HT & HU & HI).
  assert (Hr : ∃ d1,
    (∀ k, k ∈ link_keys →
       extract_rfq_data_improved urljoin current_date container !! k = d1 !! k) ∧
    except_pass (title_and_url urljoin container (defaults current_date)) = d1).
  { destruct (title_and_url urljoin container (defaults current_date)) as [d1|d1] eqn:Hd.
    - exists d1. split; [|done]. intros k Hk. by apply extract_link_fields.
    - exists d1. split; [|done]. intros k _. by rewrite (extract_body_raised _ _ _ _ Hd). }
  destruct Hr as (d1 & Hk & Hd).
  rewrite !Hk by (unfold link_keys; set_solver).
  subst d1. unfold title_and_url, title_value, url_value.
  destruct (find_detail_link container) as [a|]; cbn [except_pass]; [|done].
  cbv zeta.
  assert (Hne1 : "RFQ ID" ≠ "Inquiry URL") by discriminate.
  assert (Hne2 : "RFQ ID" ≠ "Title") by discriminate.
  assert (Hne3 : "Inquiry URL" ≠ "Title") by discriminate.
  assert (Hne4 : "Title" ≠ "Inquiry URL") by discriminate.
  assert (Hne5 : "Title" ≠ "RFQ ID") by discriminate.
  assert (Hne6 : "Inquiry URL" ≠ "RFQ ID") by discriminate.
  destruct (get_attr a "href") as [[|c h]|];
    destruct (10 <? Py.len (clean_text (get_text a)));
    [..|destruct (Py.startswith (String c h) "/");
        [destruct (urljoin self_base_url (String c h)) as [u|]|]
       |destruct (Py.startswith (String c h) "/");
        [destruct (urljoin self_base_url (String c h)) as [u|]|]| |];
    cbn [except_pass default];
    repeat first
      [ rewrite lookup_insert_eq
      | rewrite lookup_insert_ne by assumption ];
    rewrite ?HT, ?HU, ?HI; split_and!; reflexivity.
Qed.

(** C2 (amended).  Extraction is total and keeps the shape of the record:
    for every container the result has exactly the sixteen columns, each
    holding a parsed value or its default.  When no step raises, every field
    after the link holds what its own step extracts from the container.
    When the link step raises, extraction ends there: the title parsed
    before the error is kept and every other field is left at its default.
    The title is in every case what the link step parses before it
    resolves the reference: the cleaned text of the first detail link when
    that has more than ten characters, the default otherwise. *)
Theorem extract_total_all_fields
    (urljoin : string → string → option string) (current_date : string)
    (container : node) :
  let r := extract_rfq_data_improved urljoin current_date container in
  dom r = list_to_set required_columns ∧
  (∀ k, k ∈ required_columns → is_Some (r !! k)) ∧
  (∀ k, k ∉ written_keys → r !! k = defaults current_date !! k) ∧
  (raises urljoin current_date container = false →
     later_fields_extracted current_date container r) ∧
  (raises urljoin current_date container = true →
     r !! "Title" = Some (title_value container) ∧
     ∀ k, k ≠ "Title" → r !! k = defaults current_date !! k) ∧
  r !! "Title" = Some (title_value container).
Proof.
  cbv zeta.
  destruct (extract_link_values urljoin current_date container) as (Htitle & _).
  split_and!.
  - apply extract_dom.
  - intros k Hk. apply elem_of_dom. rewrite extract_dom.
    by apply elem_of_list_to_set.
  - intros k Hk. by apply (patch_lookup written_keys); [apply extract_patch|].
  - apply extract_later_fields.
  - intros Hr. split; [exact Htitle|].
    intros k Hk. by apply extract_raised_defaults.
  - exact Htitle.
Qed.

(** On the card whose link [urljoin] refuses, the title of the link is kept
    and the quotes are left at the default although the text has them. *)
Lemma extract_total_bad_href :
  raises Scenario.urljoin Scenario.today Scenario.bad_href_container = true ∧
  extract_rfq_data_improved Scenario.urljoin Scenario.today
    Scenario.bad_href_container !! "Title" = Some Scenario.film_title ∧
  extract_rfq_data_improved Scenario.urljoin Scenario.today
    Scenario.bad_href_container !! "Quotes Left" = Some "N/A".
Proof.
  assert (Hr : raises Scenario.urljoin Scenario.today Scenario.bad_href_container = true)
    by (vm_compute; reflexivity).
  split; [exact Hr|].
  destruct (extract_total_all_fields Scenario.urljoin Scenario.today
              Scenario.bad_href_container) as (_ & _ & _ & _ & Hraised & _).
  destruct (Hraised Hr) as [Htitle Hrest]. split.
  - rewrite Htitle. vm_compute. reflexivity.
  - rewrite (Hrest "Quotes Left"); [reflexivity|discriminate].
Defined.

(** C2, counterexample.  The card with the refused link has the time, the
    quotes and the e-mail phrase in its text; the link step raises and
    none of these fields is extracted. *)
Lemma extract_stops_at_link_error :
  let c := Scenario.bad_href_container in
  let r := extract_rfq_data_improved Scenario.urljoin Scenario.today c in
  raises Scenario.urljoin Scenario.today c = true ∧
  first_match Patterns.time_patterns (get_text c) = Some "3 hours ago" ∧
  field r "Inquiry Time" = "N/A" ∧
  first_match Patterns.quotes_patterns (get_text c) = Some "5" ∧
  field r "Quotes Left" = "N/A" ∧
  Py.contains "email confirmed" (Py.lower (get_text c)) = true ∧
  field r "Email Confirmed" = "No" ∧
  ¬ later_fields_extracted Scenario.today c r.
Proof.
  cbv zeta. split_and!; try (vm_compute; reflexivity).
  intros (_ & _ & Htime & _). vm_compute in Htime. discriminate.
Qed.

(** ** Strings *)

Lemma startswith_app (s p : string) :
  Py.startswith s p = true ↔ ∃ t, s = p +:+ t.
Proof.
  revert s. induction p as [|a p IH]; intros [|b s]; simpl.
  - split; [intros _; by exists ""|done].
  - split; [intros _; by exists (String b s)|done].
  - split; [done|intros [t Ht]; discriminate].
  - rewrite andb_true_iff, IH. split.
    + intros [Hab [t ->]]. apply Ascii.eqb_eq in Hab as ->. by exists t.
    + intros [t Ht]. injection Ht as -> ->.
      split; [apply Ascii.eqb_refl|by exists t].
Qed.

Lemma contains_split (sub s : string) :
  Py.contains sub s = true ↔ ∃ a b, s = a +:+ sub +:+ b.
Proof.
  induction s as [|c s IH].
  - cbn [Py.contains]. rewrite orb_false_r, startswith_app. split.
    + intros [t Ht]. by exists "", t.
    + intros (a & b & Hab). destruct a; [by exists b|discriminate].
  - cbn [Py.contains]. rewrite orb_true_iff, startswith_app, IH. split.
    + intros [[t Ht]|(a & b & ->)].
      * by exists "", t.
      * by exists (String c a), b.
    + intros (a & b & Hab). destruct a as [|c' a].
      * left. by exists b.
      * right. injection Hab as -> ->. by exists a, b.
Qed.

Lemma lower_app (a b : string) : Py.lower (a +:+ b) = Py.lower a +:+ Py.lower b.
Proof. induction a as [|c a IH]; simpl; [done|by rewrite IH]. Qed.

Lemma lower_split (s a b : string) :
  Py.lower s = a +:+ b → ∃ a' b', s = a' +:+ b' ∧ Py.lower a' = a ∧ Py.lower b' = b.
Proof.
  revert s. induction a as [|c a IH]; intros s Hs.
  - by exists "", s.
  - destruct s as [|c' s]; [discriminate|].
    simpl in Hs. injection Hs as Hc Hs.
    destruct (IH _ Hs) as (a' & b' & -> & <- & <-).
    exists (String c' a'), b'. simpl. by rewrite Hc.
Qed.

Lemma str_length_app (a b : string) :
  String.length (a +:+ b) = String.length a + String.length b.
Proof. induction a as [|c a IH]; simpl; [done|by rewrite IH]. Qed.

Lemma contains_lower_occurs (phrase text : string) :
  Py.contains phrase (Py.lower text) = true ↔ occurs_ignoring_case phrase text.
Proof.
  rewrite contains_split. split.
  - intros (a & b & Hab).
    apply lower_split in Hab as (pre & rest & -> & _ & Hrest).
    apply lower_split in Hrest as (mid & post & -> & Hmid & _).
    by exists pre, mid, post.
  - intros (pre & mid & post & -> & <-).
    exists (Py.lower pre), (Py.lower post). by rewrite !lower_app.
Qed.

Lemma replace_go_absent (fuel : nat) (s old new : string) :
  Py.contains old s = false → Py.replace_go fuel s old new = s.
Proof.
  revert s. induction fuel as [|fuel IH]; intros s Hs; [done|].
  destruct s as [|c s]; cbn [Py.contains] in Hs;
    apply orb_false_iff in Hs as [Hstart Hrest]; cbn [Py.replace_go]; rewrite Hstart.
  - done.
  - by rewrite IH.
Qed.

Lemma replace_absent (s old new : string) :
  Py.contains old s = false → Py.replace s old new = s.
Proof.
  intros Hs. unfold Py.replace. destruct old; [done|]. by apply replace_go_absent.
Qed.

(** ** The flags *)

(** The fifth flag is assigned nowhere. *)
Lemma complete_order_always_no urljoin current_date container :
  field (extract_rfq_data_improved urljoin current_date container)
    "Complete Order via RFQ" = "No".
Proof.
  apply field_lookup.
  rewrite (patch_lookup written_keys _ _ _ (extract_patch urljoin current_date container)).
  - reflexivity.
  - unfold written_keys, link_keys, flag_keys. set_solver.
Qed.

(** C3 (amended).  For every container whose extraction raises no error and
    for each of the four flags that the extractor looks for (e-mail
    confirmed, typically replies, interactive user, experienced buyer), the
    flag is Yes exactly when its phrase occurs in the text of the container
    with case ignored, and No exactly when it does not. *)
Theorem flags_iff_phrase
    (urljoin : string → string → option string) (current_date : string)
    (container : node) (key phrase : string) :
  raises urljoin current_date container = false →
  (key, phrase) ∈ flag_phrases →
  let r := extract_rfq_data_improved urljoin current_date container in
  (field r key = "Yes" ↔ occurs_ignoring_case phrase (get_text container)) ∧
  (field r key = "No" ↔ ¬ occurs_ignoring_case phrase (get_text container)).
Proof.
  intros Hr Hin. cbv zeta.
  destruct (extract_later_fields urljoin current_date container Hr)
    as (_ & _ & _ & _ & _ & Hflags).
  rewrite (field_lookup _ _ _ (Hflags key phrase Hin)).
  rewrite <- contains_lower_occurs.
  destruct (Py.contains phrase (Py.lower (get_text container))).
  - split; split; try done; intros Hn; by destruct Hn.
  - split; split; try done; intros Hn; by destruct Hn.
Qed.

(** The film card is extracted without an error and has the e-mail phrase. *)
Lemma flags_iff_phrase_film :
  field (extract_rfq_data_improved Scenario.urljoin Scenario.today
           Scenario.film_container) "Email Confirmed" = "Yes".
Proof.
  destruct (flags_iff_phrase Scenario.urljoin Scenario.today
              Scenario.film_container "Email Confirmed" "email confirmed")
    as [[_ Hyes] _].
  - vm_compute. reflexivity.
  - unfold flag_phrases. left.
  - apply Hyes. apply contains_lower_occurs. vm_compute. reflexivity.
Defined.

(** C3, counterexample.  Two containers whose text has a flag's phrase while
    the record says No: the card whose link makes the extractor raise
    before it reaches the flags, and a container with the phrase of the
    fifth flag, which the extractor never looks for. *)
Lemma flags_missed :
  Py.contains "email confirmed"
    (Py.lower (get_text Scenario.bad_href_container)) = true ∧
  field (extract_rfq_data_improved Scenario.urljoin Scenario.today
           Scenario.bad_href_container) "Email Confirmed" = "No" ∧
  Py.contains "complete order via rfq"
    (Py.lower (get_text Scenario.complete_order_container)) = true ∧
  field (extract_rfq_data_improved Scenario.urljoin Scenario.today
           Scenario.complete_order_container) "Complete Order via RFQ" = "No".
Proof. split_and!; vm_compute; reflexivity. Qed.

(** ** The packaging film scenario *)

(** C4.  A container whose detail link has the text and the reference of
    the scenario, and whose text is the text of the scenario (alone, or
    after the text of the link, which a container's text includes), gives
    a record with the time, the quotes, a quantity with the pieces, the
    e-mail flag, the title, the absolute URL, and the ten characters after
    [p=] of the URL as identifier. *)
Theorem packaging_film_scenario
    (urljoin : string → string → option string) (current_date : string)
    (container title_link : node) :
  find_detail_link container = Some title_link →
  get_text title_link = Scenario.film_title →
  get_attr title_link "href" = Some Scenario.film_href →
  urljoin self_base_url Scenario.film_href = Some film_url →
  get_text container = Scenario.film_text ∨
  get_text container = Scenario.film_title +:+ Scenario.film_text →
  let r := extract_rfq_data_improved urljoin current_date container in
  field r "Inquiry Time" = "3 hours ago" ∧
  field r "Quotes Left" = "5" ∧
  Py.contains "200 Pieces" (field r "Quantity Required") = true ∧
  field r "Email Confirmed" = "Yes" ∧
  field r "Title" = "Need 200 pieces of packaging film" ∧
  field r "Inquiry URL" = film_url ∧
  Py.startswith (field r "Inquiry URL") "https://" = true ∧
  field r "RFQ ID" = "ID12345678" ∧
  Py.contains ("p=" +:+ field r "RFQ ID") (field r "Inquiry URL") = true.
Proof.
  intros Hfind Htitle Hhref Hjoin Htext. cbv zeta.
  assert (Hd : title_and_url urljoin container (defaults current_date) =
               Done (<["RFQ ID" := "ID12345678"]>
                       (<["Inquiry URL" := film_url]>
                          (<["Title" := Scenario.film_title]> (defaults current_date))))).
  { unfold title_and_url. rewrite Hfind. cbv zeta. rewrite Htitle, Hhref.
    change (Py.startswith Scenario.film_href "/") with true. cbv iota.
    unfold Scenario.film_href at 1. rewrite Hjoin.
    replace (clean_text Scenario.film_title) with Scenario.film_title
      by (vm_compute; reflexivity).
    replace (10 <? Py.len Scenario.film_title) with true by (vm_compute; reflexivity).
    replace (extract_rfq_id_from_url film_url) with "ID12345678"
      by (vm_compute; reflexivity).
    reflexivity. }
  assert (Hr : raises urljoin current_date container = false)
    by (by rewrite raises_link, Hd).
  destruct (extract_later_fields urljoin current_date container Hr)
    as (_ & _ & Htime & Hquotes & Hquantity & Hflags).
  specialize (Hflags "Email Confirmed" "email confirmed").
  assert (Hlink : ∀ k, k ∈ link_keys →
            extract_rfq_data_improved urljoin current_date container !! k =
            (<["RFQ ID" := "ID12345678"]>
               (<["Inquiry URL" := film_url]>
                  (<["Title" := Scenario.film_title]> (defaults current_date)))) !! k)
    by (intros k Hk; by apply extract_link_fields).
  assert (HT : field (extract_rfq_data_improved urljoin current_date container) "Title"
               = "Need 200 pieces of packaging film").
  { apply field_lookup. rewrite Hlink by (unfold link_keys; set_solver). reflexivity. }
  assert (HU : field (extract_rfq_data_improved urljoin current_date container)
                 "Inquiry URL" = film_url).
  { apply field_lookup. rewrite Hlink by (unfold link_keys; set_solver). reflexivity. }
  assert (HI : field (extract_rfq_data_improved urljoin current_date container)
                 "RFQ ID" = "ID12345678").
  { apply field_lookup. rewrite Hlink by (unfold link_keys; set_solver). reflexivity. }
  rewrite HT, HU, HI.
  assert (Hq : ∃ q, extract_rfq_data_improved urljoin current_date container
                      !! "Quantity Required" = Some q ∧
                    Py.contains "200 Pieces" q = true).
  { rewrite Hquantity.
    destruct Htext as [-> | ->]; eexists; (split; [vm_compute; reflexivity|reflexivity]). }
  destruct Hq as (q & Hq & Hq').
  rewrite (field_lookup _ _ _ Hq).
  split_and!; try reflexivity; try done.
  - apply field_lookup. rewrite Htime. by destruct Htext as [-> | ->].
  - apply field_lookup. rewrite Hquotes. by destruct Htext as [-> | ->].
  - apply field_lookup. rewrite Hflags by (unfold flag_phrases; left).
    by destruct Htext as [-> | ->].
Qed.

(** The scenario on the film card. *)
Lemma packaging_film_card :
  let r := extract_rfq_data_improved Scenario.urljoin Scenario.today
             Scenario.film_container in
  field r "Inquiry Time" = "3 hours ago" ∧
  field r "Quotes Left" = "5" ∧
  Py.contains "200 Pieces" (field r "Quantity Required") = true ∧
  field r "Email Confirmed" = "Yes" ∧
  field r "Title" = "Need 200 pieces of packaging film" ∧
  field r "Inquiry URL" = film_url ∧
  Py.startswith (field r "Inquiry URL") "https://" = true ∧
  field r "RFQ ID" = "ID12345678" ∧
  Py.contains ("p=" +:+ field r "RFQ ID") (field r "Inquiry URL") = true.
Proof.
  apply (packaging_film_scenario Scenario.urljoin Scenario.today
           Scenario.film_container
           (Tag "a" {[ "href" := Scenario.film_href ]}
              [NavigableString Scenario.film_title])).
  - vm_compute. reflexivity.
  - reflexivity.
  - vm_compute. reflexivity.
  - vm_compute. reflexivity.
  - right. reflexivity.
Defined.

(** ** The record filter and the run *)

Lemma accept_true r (processed_urls seen : gset string) :
  accept r processed_urls seen = true →
  passes_filter r ∧ (url_of r ∉ processed_urls) ∧ (url_of r ∉ seen).
Proof.
  unfold accept, passes_filter, url_of, title_of. cbv zeta.
  destruct (String.eqb (field r "Title") "N/A") eqn:Ht; [done|].
  destruct (Py.len (field r "Title") <? 10) eqn:Hl; [done|].
  destruct (bool_decide (field r "Inquiry URL" ∈ processed_urls)) eqn:Hp; [done|].
  destruct (bool_decide (field r "Inquiry URL" ∈ seen)) eqn:Hs; [done|].
  destruct (Py.any_in skip_words (Py.lower (field r "Title"))) eqn:Hw; [done|].
  intros _. apply String.eqb_neq in Ht. apply Nat.ltb_ge in Hl.
  apply bool_decide_eq_false in Hp, Hs. done.
Qed.

Lemma accept_passes r (processed_urls seen : gset string) :
  ¬ passes_filter r → accept r processed_urls seen = false.
Proof.
  intros Hn. destruct (accept r processed_urls seen) eqn:Ha; [|done].
  by apply accept_true in Ha as [? _].
Qed.

Section RunFacts.

Variable urljoin : string → string → option string.
Variable current_date : string.
Variable render : nat → string → option node.

(** The invariant of [containers_loop]: the records added are extractions
    that pass the filter, their URLs differ from each other and from the
    URLs seen before, and they are the URLs added to the seen-set. *)
Lemma containers_loop_spec rfq_containers page_data processed_urls seen :
  seen ⊆ seen ∪ processed_urls →
  ∃ new,
    containers_loop urljoin current_date rfq_containers page_data processed_urls seen =
      (page_data ++ new, seen ∪ list_to_set (url_of <$> new)) ∧
    Forall passes_filter new ∧
    Forall (λ r, ∃ c, c ∈ rfq_containers ∧
                      r = extract_rfq_data_improved urljoin current_date c) new ∧
    NoDup (url_of <$> new) ∧
    (∀ u, u ∈ (url_of <$> new) → (u ∉ processed_urls) ∧ (u ∉ seen)).
Proof.
  intros _. revert page_data processed_urls seen.
  induction rfq_containers as [|c cs IH]; intros page_data processed_urls seen.
  - exists []. cbn [containers_loop]. rewrite app_nil_r. split_and!.
    + f_equal. set_solver.
    + constructor.
    + constructor.
    + constructor.
    + intros u Hu. by apply elem_of_nil in Hu.
  - cbn [containers_loop]. cbv zeta.
    set (r := extract_rfq_data_improved urljoin current_date c).
    destruct (accept r processed_urls seen) eqn:Ha.
    + apply accept_true in Ha as (Hpass & Hp & Hs).
      fold (url_of r).
      destruct (20 <=? length (page_data ++ [r])).
      * exists [r]. split_and!.
        -- f_equal. set_solver.
        -- by constructor.
        -- constructor; [|done]. exists c. split; [left|done].
        -- apply NoDup_singleton.
        -- intros u Hu. apply list_elem_of_singleton in Hu as ->. done.
      * destruct (IH (page_data ++ [r]) ({[url_of r]} ∪ processed_urls)
                    ({[url_of r]} ∪ seen))
          as (new & Heq & Hpf & Hex & Hnd & Hfresh).
        exists (r :: new). split_and!.
        -- rewrite Heq. rewrite <- app_assoc. f_equal. cbn. set_solver.
        -- by constructor.
        -- constructor; [exists c; split; [left|done]|].
           eapply Forall_impl; [exact Hex|].
           intros x (c' & Hc' & ->). exists c'. split; [by right|done].
        -- cbn. constructor; [|done].
           intros Hin. apply Hfresh in Hin as [_ Hin]. set_solver.
        -- intros u Hu. cbn in Hu. apply elem_of_cons in Hu as [->|Hu]; [done|].
           apply Hfresh in Hu. set_solver.
    + destruct (IH page_data processed_urls seen)
        as (new & Heq & Hpf & Hex & Hnd & Hfresh).
      exists new. split_and!; try done.
      eapply Forall_impl; [exact Hex|].
      intros x (c' & Hc' & ->). exists c'. split; [by right|done].
Qed.

(** One call of [scrape_page_with_selenium]. *)
Lemma scrape_page_spec self url page_num :
  ∃ page_data,
    scrape_page_with_selenium urljoin current_date render self url page_num =
      (page_data,
       {| seen_urls := seen_urls self ∪ list_to_set (url_of <$> page_data);
          fetched := fetched self ++
                     [{| ev_page := page_num; ev_url := url;
                         ev_yield := length page_data |}] |}) ∧
    Forall passes_filter page_data ∧
    Forall (λ r, ∃ c, r = extract_rfq_data_improved urljoin current_date c) page_data ∧
    NoDup (url_of <$> page_data) ∧
    (∀ u, u ∈ (url_of <$> page_data) → u ∉ seen_urls self).
Proof.
  unfold scrape_page_with_selenium.
  destruct (render (length (fetched self)) url) as [soup|].
  - destruct (containers_loop_spec
                (resolve soup (get_rfq_containers soup)) [] ∅ (seen_urls self))
      as (new & Heq & Hpf & Hex & Hnd & Hfresh); [set_solver|].
    rewrite Heq. exists new. split_and!; try done.
    + eapply Forall_impl; [exact Hex|]. intros x (c & _ & ->). by exists c.
    + intros u Hu. by apply Hfresh in Hu as [_ ?].
  - exists []. split_and!.
    + cbn. repeat f_equal. set_solver.
    + constructor.
    + constructor.
    + constructor.
    + intros u Hu. by apply elem_of_nil in Hu.
Qed.

Lemma pages_loop_cons page pages' base_url self all_data :
  pages_loop urljoin current_date render (page :: pages') base_url self all_data =
    let '(page_data, self) := page_attempt urljoin current_date render base_url self page in
    if is_empty page_data
    then (all_data, self)
    else pages_loop urljoin current_date render pages' base_url self
           (all_data ++ page_data).
Proof.
  cbn [pages_loop]. unfold page_attempt. cbv zeta.
  destruct (scrape_page_with_selenium urljoin current_date render self
              (page_url base_url page) page) as [pd self1].
  destruct (is_empty pd) eqn:Hpd; [|by rewrite Hpd].
  destruct (negb (String.eqb (alt_url base_url page) (page_url base_url page))).
  - by destruct (scrape_page_with_selenium urljoin current_date render self1
                   (alt_url base_url page) page).
  - by rewrite Hpd.
Qed.

Lemma page_attempt_spec base_url self page :
  ∃ page_data evs,
    page_attempt urljoin current_date render base_url self page =
      (page_data,
       {| seen_urls := seen_urls self ∪ list_to_set (url_of <$> page_data);
          fetched := fetched self ++ evs |}) ∧
    Forall passes_filter page_data ∧
    Forall (λ r, ∃ c, r = extract_rfq_data_improved urljoin current_date c) page_data ∧
    NoDup (url_of <$> page_data) ∧
    (∀ u, u ∈ (url_of <$> page_data) → u ∉ seen_urls self) ∧
    ((evs = [event page (page_url base_url page) (length page_data)] ∧
      (page_data = [] → alt_url base_url page = page_url base_url page) ∧
      (scrape_page_with_selenium urljoin current_date render self
         (page_url base_url page) page).1 = page_data) ∨
     (evs = [event page (page_url base_url page) 0;
             event page (alt_url base_url page) (length page_data)] ∧
      alt_url base_url page ≠ page_url base_url page ∧
      (scrape_page_with_selenium urljoin current_date render self
         (page_url base_url page) page).1 = [])).
Proof.
  unfold page_attempt. cbv zeta.
  destruct (scrape_page_spec self (page_url base_url page) page)
    as (pd & Heq & Hpf & Hex & Hnd & Hfresh).
  rewrite Heq. destruct pd as [|r pd]; cbn [is_empty].
  - destruct (String.eqb (alt_url base_url page) (page_url base_url page)) eqn:He;
      cbn [negb].
    + apply String.eqb_eq in He.
      exists [], [event page (page_url base_url page) 0].
      split_and!; try done. left. by split_and!.
    + apply String.eqb_neq in He.
      match goal with
      | |- context [scrape_page_with_selenium _ _ _ ?s ?u ?p] =>
          destruct (scrape_page_spec s u p) as (pd2 & Heq2 & Hpf2 & Hex2 & Hnd2 & Hfresh2)
      end.
      rewrite Heq2. cbn [seen_urls fetched] in *.
      exists pd2, [event page (page_url base_url page) 0;
                   event page (alt_url base_url page) (length pd2)].
      split_and!; try done.
      * f_equal. f_equal; [set_solver|]. by rewrite <- app_assoc.
      * intros u Hu. apply Hfresh2 in Hu. set_solver.
      * right. by split_and!.
  - exists (r :: pd), [event page (page_url base_url page) (length (r :: pd))].
    split_and!; try done. left. by split_and!.
Qed.

Lemma pages_loop_spec pages base_url self all_data :
  ∃ new evs done rest,
    pages_loop urljoin current_date render pages base_url self all_data =
      (all_data ++ new,
       {| seen_urls := seen_urls self ∪ list_to_set (url_of <$> new);
          fetched := fetched self ++ evs |}) ∧
    Forall passes_filter new ∧
    Forall (λ r, ∃ c, r = extract_rfq_data_improved urljoin current_date c) new ∧
    NoDup (url_of <$> new) ∧
    (∀ u, u ∈ (url_of <$> new) → u ∉ seen_urls self) ∧
    pages = done ++ rest ∧
    visited_in_order done evs.
Proof.
  revert self all_data. induction pages as [|page pages' IH]; intros self all_data.
  - exists [], [], [], []. cbn [pages_loop]. rewrite !app_nil_r. split_and!.
    + destruct self as [seen log]. cbn. f_equal. f_equal. set_solver.
    + constructor.
    + constructor.
    + constructor.
    + intros u Hu. by apply elem_of_nil in Hu.
    + done.
    + split_and!.
      * intros e He. by apply elem_of_nil in He.
      * intros q Hq. by apply elem_of_nil in Hq.
      * intros d1 q d2 Hd. by destruct d1.
  - rewrite pages_loop_cons.
    destruct (page_attempt_spec base_url self page)
      as (pd & evs0 & Heq & Hpf & Hex & Hnd & Hfresh & Hshape).
    rewrite Heq.
    assert (Hpage : ∀ e, e ∈ evs0 → ev_page e = page).
    { intros e He. destruct Hshape as [(-> & _ & _)|(-> & _ & _)].
      - by apply list_elem_of_singleton in He as ->.
      - apply elem_of_cons in He as [->|He]; [done|].
        by apply list_elem_of_singleton in He as ->. }
    assert (Hsome : ∃ e, e ∈ evs0 ∧ ev_page e = page ∧ (pd ≠ [] → 0 < ev_yield e)).
    { destruct Hshape as [(-> & _ & _)|(-> & _ & _)].
      - eexists. split; [left|]. split; [done|]. intros Hne. cbn.
        destruct pd; [done|cbn; lia].
      - eexists. split; [right; left|]. split; [done|]. intros Hne. cbn.
        destruct pd; [done|cbn; lia]. }
    destruct pd as [|r pd]; cbn [is_empty].
    + exists [], evs0, [page], pages'. rewrite app_nil_r. split_and!; try done.
      split_and!.
      * intros e He. rewrite (Hpage e He). left.
      * intros q Hq. apply list_elem_of_singleton in Hq as ->.
        destruct Hsome as (e & He & Hp & _). by exists e.
      * intros d1 q d2 Hd Hd2. destruct d1 as [|x d1]; cbn in Hd.
        -- injection Hd as _ Hd. by subst d2.
        -- injection Hd as _ Hd. by destruct d1.
    + match goal with
      | |- context [pages_loop _ _ _ _ _ ?s ?a] =>
          destruct (IH s a)
            as (new & evs & done & rest & Heq' & Hpf' & Hex' & Hnd' & Hfresh' & Hsplit & Hvis)
      end.
      rewrite Heq'. cbn [seen_urls fetched] in *.
      exists ((r :: pd) ++ new), (evs0 ++ evs), (page :: done), rest.
      split_and!.
      * rewrite <- !app_assoc, fmap_app, list_to_set_app_L.
        rewrite <- (assoc_L (∪)). reflexivity.
      * by apply Forall_app.
      * by apply Forall_app.
      * rewrite fmap_app. apply NoDup_app. split_and!; [done| |done].
        intros u Hu Hu'. apply Hfresh' in Hu'. set_solver.
      * intros u Hu. rewrite fmap_app in Hu. apply elem_of_app in Hu as [Hu|Hu].
        -- by apply Hfresh.
        -- apply Hfresh' in Hu. set_solver.
      * by rewrite Hsplit.
      * destruct Hvis as (Hv1 & Hv2 & Hv3). split_and!.
        -- intros e He. apply elem_of_app in He as [He|He].
           ++ rewrite (Hpage e He). left.
           ++ right. by apply Hv1.
        -- intros q Hq. apply elem_of_cons in Hq as [->|Hq].
           ++ destruct Hsome as (e & He & Hp & _). exists e.
              split; [apply elem_of_app; by left|done].
           ++ destruct (Hv2 q Hq) as (e & He & Hp). exists e.
              split; [apply elem_of_app; by right|done].
        -- intros d1 q d2 Hd Hd2. destruct d1 as [|x d1]; cbn in Hd.
           ++ injection Hd as -> _.
              destruct Hsome as (e & He & Hp & Hy). exists e.
              split_and!; [apply elem_of_app; by left|done|by apply Hy].
           ++ injection Hd as _ Hd.
              destruct (Hv3 d1 q d2 Hd Hd2) as (e & He & Hp & Hy). exists e.
              split_and!; [apply elem_of_app; by right|done|done].
Qed.

End RunFacts.

(** ** The run as a whole *)

Lemma run_spec urljoin current_date render setup_ok self base_url max_pages :
  ∃ new evs done rest,
    scrape_multiple_pages urljoin current_date render setup_ok self base_url max_pages =
      (new,
       {| seen_urls := seen_urls self ∪ list_to_set (url_of <$> new);
          fetched := fetched self ++ evs |}) ∧
    Forall passes_filter new ∧
    Forall (λ r, ∃ c, r = extract_rfq_data_improved urljoin current_date c) new ∧
    NoDup (url_of <$> new) ∧
    seq 1 max_pages = done ++ rest ∧
    visited_in_order done evs.
Proof.
  unfold scrape_multiple_pages. destruct setup_ok.
  - destruct (pages_loop_spec urljoin current_date render
                (seq 1 max_pages) base_url self [])
      as (new & evs & done & rest & Heq & Hpf & Hex & Hnd & _ & Hsplit & Hvis).
    exists new, evs, done, rest. by rewrite Heq.
  - exists [], [], [], (seq 1 max_pages). split_and!.
    + destruct self as [seen log]. cbn. rewrite app_nil_r. f_equal. f_equal. set_solver.
    + constructor.
    + constructor.
    + constructor.
    + done.
    + unfold visited_in_order. split_and!.
      * intros e He. by apply elem_of_nil in He.
      * intros q Hq. by apply elem_of_nil in Hq.
      * intros d1 q d2 Hd. by destruct d1.
Qed.

Lemma run_passes_filter urljoin current_date render setup_ok self base_url max_pages :
  Forall passes_filter
    (scrape_multiple_pages urljoin current_date render setup_ok self base_url max_pages).1.
Proof.
  destruct (run_spec urljoin current_date render setup_ok self base_url max_pages)
    as (new & evs & done & rest & Heq & Hpf & _).
  by rewrite Heq.
Qed.

Lemma run_excludes urljoin current_date render setup_ok self base_url max_pages r :
  ¬ passes_filter r →
  r ∉ (scrape_multiple_pages urljoin current_date render setup_ok self base_url max_pages).1.
Proof.
  intros Hn Hin.
  pose proof (run_passes_filter urljoin current_date render setup_ok self
                base_url max_pages) as Hall.
  rewrite Forall_forall in Hall. by apply Hn, Hall.
Qed.

(** C1.  In every run, whatever the scraper has seen before, the URLs of
    the records of the result differ from each other: no two accepted
    records share the inquiry URL, on one page or across pages. *)
Theorem accepted_urls_unique
    (urljoin : string → string → option string) (current_date : string)
    (render : nat → string → option node) (setup_ok : bool) (self : scraper)
    (base_url : string) (max_pages : nat) :
  NoDup (url_of <$>
           (scrape_multiple_pages urljoin current_date render setup_ok self
              base_url max_pages).1).
Proof.
  destruct (run_spec urljoin current_date render setup_ok self base_url max_pages)
    as (new & evs & done & rest & Heq & _ & _ & Hnd & _).
  by rewrite Heq.
Qed.

(** C7.  A record whose lowered title contains a phrase of the deny list is
    rejected by the filter, whatever has been seen, and is in the result of
    no run. *)
Theorem denylisted_title_rejected (rfq_data : dict) :
  Py.any_in skip_words (Py.lower (field rfq_data "Title")) = true →
  (∀ processed_urls seen, accept rfq_data processed_urls seen = false) ∧
  (∀ urljoin current_date render setup_ok self base_url max_pages,
     rfq_data ∉ (scrape_multiple_pages urljoin current_date render setup_ok self
                   base_url max_pages).1).
Proof.
  intros Hw.
  assert (Hn : ¬ passes_filter rfq_data).
  { intros (_ & _ & Hf). unfold title_of in Hf. congruence. }
  split.
  - intros. by apply accept_passes.
  - intros. by apply run_excludes.
Qed.

(** The record of the card that asks to sign in is rejected. *)
Lemma denylisted_title_sign_in :
  accept (extract_rfq_data_improved Scenario.urljoin Scenario.today
            Scenario.sign_in_container) ∅ ∅ = false.
Proof.
  apply (denylisted_title_rejected
           (extract_rfq_data_improved Scenario.urljoin Scenario.today
              Scenario.sign_in_container)).
  vm_compute. reflexivity.
Defined.

(** C8.  A record whose title is the default [N/A] or has fewer than ten
    characters is rejected by the filter, whatever has been seen, and is in
    the result of no run. *)
Theorem short_title_rejected (rfq_data : dict) :
  field rfq_data "Title" = "N/A" ∨ Py.len (field rfq_data "Title") < 10 →
  (∀ processed_urls seen, accept rfq_data processed_urls seen = false) ∧
  (∀ urljoin current_date render setup_ok self base_url max_pages,
     rfq_data ∉ (scrape_multiple_pages urljoin current_date render setup_ok self
                   base_url max_pages).1).
Proof.
  intros Ht.
  assert (Hn : ¬ passes_filter rfq_data).
  { intros (Hna & Hlen & _). unfold title_of in *. destruct Ht as [Ht|Ht]; [done|lia]. }
  split.
  - intros. by apply accept_passes.
  - intros. by apply run_excludes.
Qed.

(** The record with all defaults is rejected. *)
Lemma short_title_defaults :
  accept (defaults Scenario.today) ∅ ∅ = false.
Proof.
  apply (short_title_rejected (defaults Scenario.today)).
  left. vm_compute. reflexivity.
Defined.

(** ** Titles of exactly ten characters *)

Lemma extract_title_short urljoin current_date container title_link :
  find_detail_link container = Some title_link →
  (10 <? Py.len (clean_text (get_text title_link))) = false →
  extract_rfq_data_improved urljoin current_date container !! "Title" = Some "N/A".
Proof.
  intros Hf Hl.
  destruct (title_and_url urljoin container (defaults current_date)) as [d1|d1] eqn:Hd.
  - rewrite (extract_link_fields _ _ _ _ "Title" Hd) by (unfold link_keys; set_solver).
    unfold title_and_url in Hd. rewrite Hf in Hd. cbv zeta in Hd. rewrite Hl in Hd.
    repeat case_match; try discriminate; injection Hd as <-;
      rewrite ?lookup_insert_ne by done; reflexivity.
  - rewrite (extract_body_raised _ _ _ _ Hd).
    unfold title_and_url in Hd. rewrite Hf in Hd. cbv zeta in Hd. rewrite Hl in Hd.
    repeat case_match; try discriminate; injection Hd as <-; reflexivity.
Qed.

(** C10.  When the cleaned text of a container's detail link has exactly
    ten characters, the extractor leaves the title at [N/A], since it
    assigns a title only beyond ten characters.  The filter's own length
    test would let ten characters through, yet the record is rejected for
    its default title and is in the result of no run. *)
Theorem ten_char_title_never_emitted
    (urljoin : string → string → option string) (current_date : string)
    (container title_link : node) :
  find_detail_link container = Some title_link →
  Py.len (clean_text (get_text title_link)) = 10 →
  let r := extract_rfq_data_improved urljoin current_date container in
  field r "Title" = "N/A" ∧
  (Py.len (clean_text (get_text title_link)) <? 10) = false ∧
  (∀ processed_urls seen, accept r processed_urls seen = false) ∧
  (∀ render setup_ok self base_url max_pages,
     r ∉ (scrape_multiple_pages urljoin current_date render setup_ok self
            base_url max_pages).1).
Proof.
  intros Hf Hlen. cbv zeta.
  assert (Ht : field (extract_rfq_data_improved urljoin current_date container) "Title"
               = "N/A").
  { apply field_lookup. apply (extract_title_short _ _ _ title_link); [done|].
    by rewrite Hlen. }
  assert (Hn : ¬ passes_filter (extract_rfq_data_improved urljoin current_date container)).
  { intros (Hna & _). by unfold title_of in Hna. }
  split_and!.
  - done.
  - by rewrite Hlen.
  - intros. by apply accept_passes.
  - intros. by apply run_excludes.
Qed.

(** The card titled [Steel pipe]. *)
Lemma ten_char_title_steel_pipe :
  field (extract_rfq_data_improved Scenario.urljoin Scenario.today
           Scenario.ten_char_container) "Title" = "N/A".
Proof.
  apply (ten_char_title_never_emitted Scenario.urljoin Scenario.today
           Scenario.ten_char_container
           (Tag "a" {[ "href" := Scenario.film_href ]} [NavigableString "Steel pipe"])).
  - vm_compute. reflexivity.
  - vm_compute. reflexivity.
Defined.

(** ** Pagination *)

Lemma prefix_of_seq (done rest : list nat) (n : nat) :
  seq 1 n = done ++ rest → done = seq 1 (length done).
Proof.
  intros Hs.
  assert (Hlen : length done ≤ n).
  { apply (f_equal length) in Hs. rewrite length_seq, length_app in Hs. lia. }
  rewrite <- (take_app_length done rest) at 1. rewrite <- Hs, take_seq.
  f_equal. lia.
Qed.

(** C5.  In the log of a run, let page [p] have been fetched and let every
    fetch of page [p], the alternative URL included, have given no record.
    Then the loop stopped after page [p]: no fetch belongs to a later page,
    and each of the pages 1 to [p] has been fetched. *)
Theorem pagination_stops_after_empty_page
    (urljoin : string → string → option string) (current_date : string)
    (render : nat → string → option node) (setup_ok : bool) (self : scraper)
    (base_url : string) (max_pages : nat) (log : list fetch_event) (p : nat) :
  fetched (scrape_multiple_pages urljoin current_date render setup_ok self
             base_url max_pages).2 = fetched self ++ log →
  (∃ e, e ∈ log ∧ ev_page e = p) →
  (∀ e, e ∈ log → ev_page e = p → ev_yield e = 0) →
  (∀ e, e ∈ log → ev_page e ≤ p) ∧
  (∀ q, 1 ≤ q ≤ p → ∃ e, e ∈ log ∧ ev_page e = q).
Proof.
  intros Hlog (e0 & He0 & Hp0) Hzero.
  destruct (run_spec urljoin current_date render setup_ok self base_url max_pages)
    as (new & evs & done & rest & Heq & _ & _ & _ & Hsplit & Hv1 & Hv2 & Hv3).
  rewrite Heq in Hlog. cbn in Hlog. apply app_inv_head in Hlog. subst evs.
  assert (Hp : p ∈ done) by (rewrite <- Hp0; by apply Hv1).
  apply list_elem_of_split in Hp as (d1 & d2 & Hd).
  destruct d2 as [|x d2].
  - assert (Hdone : done = seq 1 p).
    { pose proof (prefix_of_seq _ _ _ Hsplit) as Hpre.
      rewrite Hd in Hpre at 2. rewrite length_app in Hpre. cbn in Hpre.
      rewrite Nat.add_1_r, seq_S, Hd in Hpre.
      apply app_inj_tail in Hpre as [_ Hpq].
      rewrite (prefix_of_seq _ _ _ Hsplit).
      rewrite Hd, length_app. cbn. f_equal. lia. }
    split.
    + intros e He. apply Hv1 in He. rewrite Hdone in He.
      apply elem_of_seq in He. lia.
    + intros q Hq. apply Hv2. rewrite Hdone. apply elem_of_seq. lia.
  - destruct (Hv3 d1 p (x :: d2) Hd) as (e & He & Hpe & Hy); [done|].
    specialize (Hzero e He Hpe). lia.
Qed.

(** The run on the plain URL: the first page gives the film record, the
    second page and its alternative give nothing. *)
Lemma plain_run_log :
  fetched (scrape_multiple_pages Scenario.urljoin Scenario.today Scenario.render_once
             true Scenario.fresh Scenario.plain_url 5).2 =
    [ event 1 Scenario.plain_url 1;
      event 2 (Scenario.plain_url +:+ "&page=2") 0;
      event 2 Scenario.plain_url 0 ].
Proof. vm_compute. reflexivity. Qed.

(** In that run no fetch goes beyond the second page. *)
Lemma pagination_stops_plain_run :
  Forall (λ e, ev_page e ≤ 2)
    (fetched (scrape_multiple_pages Scenario.urljoin Scenario.today Scenario.render_once
                true Scenario.fresh Scenario.plain_url 5).2).
Proof.
  apply Forall_forall. intros e He.
  refine (proj1 (pagination_stops_after_empty_page
                   Scenario.urljoin Scenario.today Scenario.render_once true
                   Scenario.fresh Scenario.plain_url 5 _ 2 _ _ _) e He).
  - reflexivity.
  - rewrite plain_run_log. eexists. split; [right; left|reflexivity].
  - rewrite plain_run_log. intros e' He' Hp.
    apply elem_of_cons in He' as [->|He']; [discriminate|].
    apply elem_of_cons in He' as [->|He']; [done|].
    apply list_elem_of_singleton in He' as ->. done.
Defined.

Lemma page_url_longer base_url page :
  page ≠ 1 → String.length base_url < String.length (page_url base_url page).
Proof.
  intros Hp. unfold page_url.
  destruct (Nat.eqb_spec page 1) as [|_]; [done|].
  destruct (Py.contains "?" base_url); rewrite !str_length_app; cbn; lia.
Qed.

(** C6 (amended).  For a base URL without the recency marker the
    alternative URL is the base URL itself.  On page 1, where the base URL
    is what has been fetched, the alternative is the fetched URL and the page
    is fetched once.  On a later page the fetched URL carries the page
    number, so the alternative differs from it, and when the page gives no
    record the base URL is fetched as well. *)
Theorem alt_url_without_marker (base_url : string) (page : nat) :
  Py.contains "&recently=Y" base_url = false →
  alt_url base_url page = base_url ∧
  (page = 1 →
     alt_url base_url page = page_url base_url page ∧
     ∀ urljoin current_date render self, ∃ n,
       fetched (page_attempt urljoin current_date render base_url self page).2 =
         fetched self ++ [event page base_url n]) ∧
  (page ≠ 1 →
     alt_url base_url page ≠ page_url base_url page ∧
     ∀ urljoin current_date render self,
       (scrape_page_with_selenium urljoin current_date render self
          (page_url base_url page) page).1 = [] →
       ∃ n,
         fetched (page_attempt urljoin current_date render base_url self page).2 =
           fetched self ++ [event page (page_url base_url page) 0;
                            event page base_url n]).
Proof.
  intros Hm.
  assert (Halt : alt_url base_url page = base_url) by (by apply replace_absent).
  split_and!; [done| |].
  - intros ->. split; [by rewrite Halt|].
    intros urljoin current_date render self.
    destruct (page_attempt_spec urljoin current_date render base_url self 1)
      as (pd & evs & Heq & _ & _ & _ & _ & [(-> & _ & _)|(_ & Hne & _)]).
    + rewrite Heq. by exists (length pd).
    + by rewrite Halt in Hne.
  - intros Hp.
    assert (Hne : alt_url base_url page ≠ page_url base_url page).
    { rewrite Halt. intros Heq. pose proof (page_url_longer base_url page Hp) as Hl.
      rewrite <- Heq in Hl. lia. }
    split; [done|].
    intros urljoin current_date render self Hempty.
    destruct (page_attempt_spec urljoin current_date render base_url self page)
      as (pd & evs & Heq & _ & _ & _ & _ & [(-> & Hsame & Hpd)|(-> & _ & _)]).
    + exfalso. apply Hne, Hsame. by rewrite <- Hpd.
    + rewrite Heq, Halt. by exists (length pd).
Qed.

(** On the plain URL the alternative of page 2 is the plain URL. *)
Lemma alt_url_plain_page_2 : alt_url Scenario.plain_url 2 = Scenario.plain_url.
Proof.
  apply (alt_url_without_marker Scenario.plain_url 2).
  vm_compute. reflexivity.
Defined.

(** C6, counterexample.  The plain URL has no recency marker.  Page 2 of
    the run gives no record; its alternative URL, the plain URL, is not the
    URL fetched for page 2, and it is fetched next. *)
Lemma alt_url_refetches_base :
  Py.contains "&recently=Y" Scenario.plain_url = false ∧
  page_url Scenario.plain_url 2 = Scenario.plain_url +:+ "&page=2" ∧
  alt_url Scenario.plain_url 2 = Scenario.plain_url ∧
  alt_url Scenario.plain_url 2 ≠ page_url Scenario.plain_url 2 ∧
  fetched (scrape_multiple_pages Scenario.urljoin Scenario.today Scenario.render_once
             true Scenario.fresh Scenario.plain_url 5).2 =
    [ event 1 Scenario.plain_url 1;
      event 2 (Scenario.plain_url +:+ "&page=2") 0;
      event 2 Scenario.plain_url 0 ].
Proof.
  split_and!.
  - vm_compute. reflexivity.
  - vm_compute. reflexivity.
  - vm_compute. reflexivity.
  - vm_compute. discriminate.
  - apply plain_run_log.
Qed.

(** * Further properties of the extractor *)

(** X1.  The identifier of a record is always [extract_rfq_id_from_url] of
    its inquiry URL, also when no URL was found or the link step raised. *)
Theorem rfq_id_follows_url
    (urljoin : string → string → option string) (current_date : string)
    (container : node) :
  let r := extract_rfq_data_improved urljoin current_date container in
  field r "RFQ ID" = extract_rfq_id_from_url (field r "Inquiry URL").
Proof.
  cbv zeta.
  destruct (extract_link_values urljoin current_date container) as (_ & HU & HI).
  by rewrite (field_lookup _ _ _ HU), (field_lookup _ _ _ HI).
Qed.

(** X2.  A container with no detail link below it, such as a detail link
    that is its own container, gives a record without title, URL and
    identifier; the extractor does not raise on it, the filter rejects the
    record and no run returns it. *)
Theorem container_without_link_rejected
    (urljoin : string → string → option string) (current_date : string)
    (container : node) :
  find_detail_link container = None →
  let r := extract_rfq_data_improved urljoin current_date container in
  field r "Title" = "N/A" ∧
  field r "Inquiry URL" = "N/A" ∧
  field r "RFQ ID" = "N/A" ∧
  raises urljoin current_date container = false ∧
  (∀ processed_urls seen, accept r processed_urls seen = false) ∧
  (∀ render setup_ok self base_url max_pages,
     r ∉ (scrape_multiple_pages urljoin current_date render setup_ok self
            base_url max_pages).1).
Proof.
  intros Hf. cbv zeta.
  destruct (extract_link_values urljoin current_date container) as (HT & HU & HI).
  unfold title_value, url_value in *. rewrite Hf in *.
  assert (Ht : field (extract_rfq_data_improved urljoin current_date container) "Title"
               = "N/A") by by apply field_lookup.
  assert (Hn : ¬ passes_filter (extract_rfq_data_improved urljoin current_date container)).
  { intros (Hna & _). by unfold title_of in Hna. }
  split_and!.
  - done.
  - by apply field_lookup.
  - by apply field_lookup.
  - rewrite raises_link. unfold title_and_url. by rewrite Hf.
  - intros. by apply accept_passes.
  - intros. by apply run_excludes.
Qed.

(** A detail link taken as its own container. *)
Lemma container_without_link_anchor :
  field (extract_rfq_data_improved Scenario.urljoin Scenario.today
           (Tag "a" {[ "href" := Scenario.film_href ]}
              [NavigableString Scenario.film_title])) "Title" = "N/A".
Proof.
  apply (container_without_link_rejected Scenario.urljoin Scenario.today
           (Tag "a" {[ "href" := Scenario.film_href ]}
              [NavigableString Scenario.film_title])).
  vm_compute. reflexivity.
Defined.

(** X4.  A reference that does not start with a slash is stored as the
    inquiry URL as it stands, relative or not, and [urljoin] is not asked:
    the extractor does not raise. *)
Theorem href_without_slash_kept
    (urljoin : string → string → option string) (current_date : string)
    (container title_link : node) (href : string) :
  find_detail_link container = Some title_link →
  get_attr title_link "href" = Some href →
  href ≠ "" →
  Py.startswith href "/" = false →
  field (extract_rfq_data_improved urljoin current_date container) "Inquiry URL" = href ∧
  raises urljoin current_date container = false.
Proof.
  intros Hf Hh Hne Hs. split.
  - apply field_lookup.
    destruct (extract_link_values urljoin current_date container) as (_ & -> & _).
    unfold url_value. rewrite Hf, Hh, Hs. by destruct href.
  - rewrite raises_link. unfold title_and_url. rewrite Hf, Hh, Hs. cbv zeta.
    by destruct href.
Qed.

(** A card with a relative reference. *)
Lemma href_without_slash_relative :
  field (extract_rfq_data_improved Scenario.urljoin Scenario.today
           (Scenario.card "rfq_detail.htm?p=ID1" Scenario.film_title Scenario.film_text))
    "Inquiry URL" = "rfq_detail.htm?p=ID1".
Proof.
  apply (href_without_slash_kept Scenario.urljoin Scenario.today
           (Scenario.card "rfq_detail.htm?p=ID1" Scenario.film_title Scenario.film_text)
           (Tag "a" {[ "href" := "rfq_detail.htm?p=ID1" ]}
              [NavigableString Scenario.film_title])
           "rfq_detail.htm?p=ID1").
  - vm_compute. reflexivity.
  - vm_compute. reflexivity.
  - discriminate.
  - reflexivity.
Defined.

(** The title of an extracted record. *)
Lemma extract_title_shape urljoin current_date container :
  let r := extract_rfq_data_improved urljoin current_date container in
  field r "Title" = "N/A" ∨
  ∃ title_link,
    find_detail_link container = Some title_link ∧
    field r "Title" = clean_text (get_text title_link) ∧
    10 < Py.len (field r "Title").
Proof.
  cbv zeta.
  destruct (extract_link_values urljoin current_date container) as (HT & _).
  rewrite (field_lookup _ _ _ HT). unfold title_value.
  destruct (find_detail_link container) as [a|]; [|by left]. cbv zeta.
  destruct (10 <? Py.len (clean_text (get_text a))) eqn:Hl; [|by left].
  right. exists a. apply Nat.ltb_lt in Hl. done.
Qed.

(** X5.  Every record of the result of a run has a title of more than ten
    characters, which is the cleaned text of the first detail link of the
    container it was extracted from. *)
Theorem emitted_titles_long
    (urljoin : string → string → option string) (current_date : string)
    (render : nat → string → option node) (setup_ok : bool) (self : scraper)
    (base_url : string) (max_pages : nat) :
  Forall (λ r, 10 < Py.len (field r "Title") ∧
               ∃ container title_link,
                 r = extract_rfq_data_improved urljoin current_date container ∧
                 find_detail_link container = Some title_link ∧
                 field r "Title" = clean_text (get_text title_link))
    (scrape_multiple_pages urljoin current_date render setup_ok self
       base_url max_pages).1.
Proof.
  destruct (run_spec urljoin current_date render setup_ok self base_url max_pages)
    as (new & evs & done & rest & Heq & Hpf & Hex & _).
  rewrite Heq. cbn [fst].
  rewrite Forall_forall in Hpf, Hex. apply Forall_forall. intros r Hr.
  destruct (Hex r Hr) as [c ->]. destruct (Hpf _ Hr) as (Hna & _).
  unfold title_of in Hna.
  destruct (extract_title_shape urljoin current_date c) as [Ht|(a & Ha & Ht & Hl)].
  - done.
  - split; [done|]. by exists c, a.
Qed.

(** * Slices and searches of strings *)

Lemma app_cons (c : ascii) (a b : string) : String c a +:+ b = String c (a +:+ b).
Proof. reflexivity. Qed.

Lemma str_take_drop (n : nat) (s : string) : Py.take n s +:+ Py.drop n s = s.
Proof.
  revert s. induction n as [|n IH]; intros [|c s]; try done.
  cbn [Py.take Py.drop]. by rewrite app_cons, IH.
Qed.

Lemma str_length_take (n : nat) (s : string) :
  String.length (Py.take n s) = n `min` String.length s.
Proof.
  revert s. induction n as [|n IH]; intros [|c s]; try done.
  cbn [Py.take String.length Nat.min]. by rewrite IH.
Qed.

Lemma str_length_drop (n : nat) (s : string) :
  String.length (Py.drop n s) = String.length s - n.
Proof.
  revert s. induction n as [|n IH]; intros [|c s]; try done.
  cbn [Py.drop String.length Nat.sub]. apply IH.
Qed.

Lemma str_drop_drop (a b : nat) (s : string) :
  Py.drop b (Py.drop a s) = Py.drop (a + b) s.
Proof.
  revert s. induction a as [|a IH]; intros s; simpl; [done|].
  destruct s as [|c s]; [by destruct b|]. apply IH.
Qed.

Lemma take_app_string (n : nat) (a b : string) :
  n ≤ String.length a → Py.take n (a +:+ b) = Py.take n a.
Proof.
  revert a. induction n as [|n IH]; intros [|c a] Hn; cbn in *; try done; try lia.
  rewrite app_cons. cbn. f_equal. apply IH. lia.
Qed.

Lemma app_assoc_string (a b c : string) : (a +:+ b) +:+ c = a +:+ (b +:+ c).
Proof. induction a as [|x a IH]; [done|]. by rewrite !app_cons, IH. Qed.

Lemma find_drop (s sub : string) (i : nat) :
  Py.find s sub = Some i →
  Py.startswith (Py.drop i s) sub = true ∧ i ≤ String.length s.
Proof.
  revert i. induction s as [|c s IH]; intros i; cbn [Py.find].
  - destruct (Py.startswith "" sub) eqn:Hs; [|done]. intros [= <-]. done.
  - destruct (Py.startswith (String c s) sub) eqn:Hs.
    + intros [= <-]. split; [done|simpl; lia].
    + destruct (Py.find s sub) as [j|]; [|done]. intros [= <-].
      destruct (IH j eq_refl) as [Hd Hl]. split; [done|simpl; lia].
Qed.

Lemma contains_find (s sub : string) :
  Py.contains sub s = true → is_Some (Py.find s sub).
Proof.
  induction s as [|c s IH]; cbn [Py.contains Py.find].
  - rewrite orb_false_r. by intros ->.
  - destruct (Py.startswith (String c s) sub); [done|]. cbn.
    intros Hc. destruct (IH Hc) as [j ->]. done.
Qed.

Lemma find_none (s sub : string) :
  Py.find s sub = None → Py.contains sub s = false.
Proof.
  intros Hf. destruct (Py.contains sub s) eqn:Hc; [|done].
  apply contains_find in Hc as [i Hi]. congruence.
Qed.

(** * The identifier of a URL *)

Lemma find_amp_after_id (post : string) (j : nat) :
  Py.find ("ID1" +:+ post) "&" = Some j → 3 ≤ j.
Proof.
  change ("ID1" +:+ post)
    with (String "I" (String "D" (String "1" post))).
  cbn. destruct (Py.find post "&") as [k|]; [|done]. intros [= <-]. lia.
Qed.

Lemma take_after_id (post : string) (j : nat) :
  3 ≤ j → Py.take j ("ID1" +:+ post) = "ID1" +:+ Py.take (j - 3) post.
Proof.
  intros Hj. destruct j as [|[|[|j]]]; try lia.
  change ("ID1" +:+ post) with (String "I" (String "D" (String "1" post))).
  cbn. by rewrite Nat.sub_0_r.
Qed.

(** X6.  The identifier is [N/A] exactly for a URL without [p=ID1].
    Otherwise it starts with [ID1], has between three and ten characters,
    and stands in the URL right after [p=]. *)
Theorem rfq_id_shape (url : string) :
  (Py.contains "p=ID1" url = false → extract_rfq_id_from_url url = "N/A") ∧
  (Py.contains "p=ID1" url = true →
     Py.startswith (extract_rfq_id_from_url url) "ID1" = true ∧
     3 ≤ Py.len (extract_rfq_id_from_url url) ≤ 10 ∧
     Py.contains ("p=" +:+ extract_rfq_id_from_url url) url = true).
Proof.
  unfold extract_rfq_id_from_url. split; [by intros ->|].
  intros Hc. rewrite Hc. cbv zeta.
  destruct (contains_find _ _ Hc) as [i Hi]. rewrite Hi.
  destruct (find_drop _ _ _ Hi) as [Hs Hle].
  apply startswith_app in Hs as [post Hpost].
  assert (Hd2 : Py.drop (i + 2) url = "ID1" +:+ post).
  { rewrite <- str_drop_drop, Hpost. reflexivity. }
  assert (Hlen : String.length url = i + 5 + String.length post).
  { rewrite <- (str_take_drop i url), str_length_app, str_length_take, Hpost at 1.
    rewrite str_length_app. cbn. lia. }
  assert (Hin : ∀ n, Py.contains ("p=" +:+ Py.take n ("ID1" +:+ post)) url = true).
  { intros n. apply contains_split.
    exists (Py.take i url), (Py.drop n ("ID1" +:+ post)).
    rewrite <- (str_take_drop i url) at 1. f_equal. rewrite Hpost.
    change ("p=ID1" +:+ post) with ("p=" +:+ ("ID1" +:+ post)).
    by rewrite app_assoc_string, str_take_drop. }
  unfold Py.slice, Py.len. rewrite Hd2.
  destruct (i + 2 + 10 <=? String.length url) eqn:Hten.
  - apply Nat.leb_le in Hten.
    replace (i + 2 + 10 - (i + 2)) with 10 by lia.
    split_and!; [| | |apply Hin].
    + rewrite take_after_id by lia. apply startswith_app. by eexists.
    + rewrite str_length_take, str_length_app. cbn. lia.
    + rewrite str_length_take. lia.
  - apply Nat.leb_gt in Hten.
    unfold Py.find_from. destruct (String.length url <? i + 2) eqn:Hlt.
    { apply Nat.ltb_lt in Hlt. lia. }
    rewrite Hd2.
    destruct (Py.find ("ID1" +:+ post) "&") as [j|] eqn:Hj; cbn [fmap option_fmap option_map].
    + apply find_amp_after_id in Hj as Hj3.
      replace (i + 2 + j - (i + 2)) with j by lia.
      split_and!; [| | |apply Hin].
      * rewrite take_after_id by lia. apply startswith_app. by eexists.
      * rewrite str_length_take, str_length_app. cbn. lia.
      * rewrite str_length_take, str_length_app. cbn. lia.
    + replace (String.length url - (i + 2)) with (String.length ("ID1" +:+ post))
        by (rewrite str_length_app; cbn; lia).
      assert (Hall : ∀ s, Py.take (String.length s) s = s).
      { intros s. induction s as [|c s IH]; [done|]. cbn. by rewrite IH. }
      rewrite Hall. split_and!; [apply startswith_app; by eexists| | |].
      * rewrite str_length_app. cbn. lia.
      * rewrite str_length_app. cbn. lia.
      * rewrite <- (Hall ("ID1" +:+ post)) at 1. apply Hin.
Qed.

(** A URL whose identifier has fewer than ten characters before the next
    parameter: the ten characters taken run past the ampersand. *)
Lemma rfq_id_shape_short_id :
  let url := "https://sourcing.alibaba.com/rfq/rfq_detail.htm?p=ID1abc&tracelog=x" in
  extract_rfq_id_from_url url = "ID1abc&tra" ∧
  Py.startswith (extract_rfq_id_from_url url) "ID1" = true ∧
  3 ≤ Py.len (extract_rfq_id_from_url url) ≤ 10 ∧
  Py.contains ("p=" +:+ extract_rfq_id_from_url url) url = true.
Proof.
  cbv zeta. split; [vm_compute; reflexivity|].
  apply (rfq_id_shape
           "https://sourcing.alibaba.com/rfq/rfq_detail.htm?p=ID1abc&tracelog=x").
  vm_compute. reflexivity.
Defined.

(** * The matcher against the declarative meaning of the patterns *)

Lemma app_nil_r_string (s : string) : s +:+ "" = s.
Proof. induction s as [|c s IH]; [done|]. by rewrite app_cons, IH. Qed.

Lemma take_length_app (w s : string) :
  Py.take (String.length (w +:+ s) - String.length s) (w +:+ s) = w.
Proof.
  rewrite str_length_app. replace (String.length w + String.length s - String.length s)
    with (String.length w) by lia.
  induction w as [|c w IH]; [by destruct s|].
  rewrite app_cons. cbn. by rewrite IH.
Qed.

(** Soundness of the matcher: when it succeeds, the text splits into a word
    of the pattern and the rest handed to the continuation. *)
Lemma matchk_sound {R : Type} (ic : bool) (r : Re.regex) :
  ∀ (s : string) (cap : option string) (k : string → option string → option R) (x : R),
    Re.matchk ic r s cap k = Some x →
    ∃ w s' cap', s = w +:+ s' ∧ matches ic r w cap cap' ∧ k s' cap' = Some x.
Proof.
  induction r as [|p|p|r1 IH1 r2 IH2|r1 IH1 r2 IH2|r IH|r IH]; intros s cap k x Hm;
    cbn [Re.matchk] in Hm.
  - exists "", s, cap. split_and!; [done|constructor|done].
  - destruct s as [|c s]; [done|].
    destruct (Re.cls_match ic p c) eqn:Hc; [|done].
    exists (String c ""), s, cap. split_and!; [done|by constructor|done].
  - destruct s as [|c s]; [done|].
    destruct (Re.cls_match ic p c) eqn:Hc; [done|].
    exists (String c ""), s, cap. split_and!; [done|by constructor|done].
  - apply IH1 in Hm as (w1 & s1 & cap1 & -> & Hw1 & Hm).
    apply IH2 in Hm as (w2 & s2 & cap2 & -> & Hw2 & Hk).
    exists (w1 +:+ w2), s2, cap2. split_and!; [|by econstructor|done].
    by rewrite app_assoc_string.
  - destruct (Re.matchk ic r1 s cap k) as [y|] eqn:H1.
    + injection Hm as ->. apply IH1 in H1 as (w & s' & cap' & -> & Hw & Hk).
      exists w, s', cap'. split_and!; [done|by apply matches_or_l|done].
    + apply IH2 in Hm as (w & s' & cap' & -> & Hw & Hk).
      exists w, s', cap'. split_and!; [done|by apply matches_or_r|done].
  - match type of Hm with
    | ?loop (String.length s) s cap = Some x =>
        assert (Hloop : ∀ fuel s cap, loop fuel s cap = Some x →
                  ∃ w s' cap', s = w +:+ s' ∧ matches ic (Re.Star r) w cap cap' ∧
                               k s' cap' = Some x)
    end.
    { clear s cap Hm. induction fuel as [|fuel IHfuel]; intros s cap Hm.
      - exists "", s, cap. split_and!; [done|constructor|done].
      - match type of Hm with
        | match ?m with _ => _ end = _ => destruct m as [y|] eqn:Hr
        end.
        + injection Hm as ->.
          apply IH in Hr as (w1 & s1 & cap1 & -> & Hw1 & Hk).
          destruct (String.length s1 <? String.length (w1 +:+ s1)); [|done].
          apply IHfuel in Hk as (w2 & s2 & cap2 & -> & Hw2 & Hk).
          exists (w1 +:+ w2), s2, cap2. split_and!; [|by econstructor|done].
          by rewrite app_assoc_string.
        + exists "", s, cap. split_and!; [done|constructor|done]. }
    by apply (Hloop _ _ _ Hm).
  - apply IH in Hm as (w & s' & cap' & -> & Hw & Hk).
    rewrite take_length_app in Hk.
    exists w, s', (Some w). split_and!; [done|by econstructor|done].
Qed.

Lemma match_here_sound (ic : bool) (r : Re.regex) (s : string) (m : Re.found) :
  Re.match_here ic r s = Some m →
  ∃ w cap, s = w +:+ Re.rest m ∧ matches ic r w None cap ∧
           Re.group1 m = default "" cap.
Proof.
  unfold Re.match_here. intros Hm.
  apply matchk_sound in Hm as (w & s' & cap' & -> & Hw & [= <-]).
  by exists w, cap'.
Qed.

(** [re.search] finds a word of the pattern inside the text. *)
Lemma search_sound (ic : bool) (r : Re.regex) (s : string) (m : Re.found) :
  Re.search ic r s = Some m →
  ∃ pre w cap, s = pre +:+ w +:+ Re.rest m ∧ matches ic r w None cap ∧
               Re.group1 m = default "" cap.
Proof.
  induction s as [|c s IH]; cbn [Re.search].
  - destruct (Re.match_here ic r "") as [m'|] eqn:Hm; [|done]. intros [= ->].
    apply match_here_sound in Hm as (w & cap & Hs & Hw & Hg). by exists "", w, cap.
  - destruct (Re.match_here ic r (String c s)) as [m'|] eqn:Hm.
    + intros [= ->].
      apply match_here_sound in Hm as (w & cap & Hs & Hw & Hg). by exists "", w, cap.
    + intros Hs. apply IH in Hs as (pre & w & cap & -> & Hw & Hg).
      by exists (String c pre), w, cap.
Qed.

(** A pattern without a group leaves the capture as it was. *)
Lemma matches_no_group ic r w cap cap' :
  matches ic r w cap cap' → has_group r = false → cap' = cap.
Proof.
  induction 1 as [ | | |r1 r2 w1 w2 c c1 c2 _ IH1 _ IH2|r1 r2 w c c1 _ IH
                 |r1 r2 w c c1 _ IH| |r w1 w2 c c1 c2 _ IH1 _ IH2|];
    cbn [has_group]; intros Hg; try done.
  - apply orb_false_iff in Hg as [Hg1 Hg2]. by rewrite IH2, IH1.
  - apply orb_false_iff in Hg as [Hg1 Hg2]. by apply IH.
  - apply orb_false_iff in Hg as [Hg1 Hg2]. by apply IH.
  - by rewrite IH2, IH1.
Qed.

(** The words of a repeated character class. *)
Lemma matches_star_cls ic p w cap cap' :
  matches ic (Re.Star (Re.Cls p)) w cap cap' →
  all_chars (Re.cls_match ic p) w = true.
Proof.
  intros Hm. remember (Re.Star (Re.Cls p)) as r eqn:Hr.
  induction Hm as [ | | | | | | |r' w1 w2 c c1 c2 H1 _ H2 IH2|]; try done.
  injection Hr as ->. specialize (IH2 eq_refl).
  inversion H1 as [ |p' ch c' Hc| | | | | | |]; subst.
  rewrite app_cons. cbn [all_chars]. change ("" +:+ w2) with w2.
  by rewrite Hc, IH2.
Qed.

Lemma matches_plus_cls ic p w cap cap' :
  matches ic (Re.Plus (Re.Cls p)) w cap cap' →
  all_chars (Re.cls_match ic p) w = true ∧
  ∃ c w', w = String c w' ∧ Re.cls_match ic p c = true.
Proof.
  unfold Re.Plus. intros Hm. inversion Hm as [ | | |r1 r2 w1 w2 c c1 c2 H1 H2| | | | |]; subst.
  inversion H1 as [ |p' ch c' Hc| | | | | | |]; subst. apply matches_star_cls in H2.
  rewrite app_cons. cbn [all_chars]. change ("" +:+ w2) with w2.
  split; [by rewrite Hc, H2|]. by eexists _, _.
Qed.

Lemma cls_match_digit ic c : Re.cls_match ic Py.is_digit c = Py.is_digit c.
Proof.
  destruct ic; [|unfold Re.cls_match; by rewrite orb_false_r].
  by destruct c as [[] [] [] [] [] [] [] []].
Qed.

Lemma all_chars_ext (p q : ascii → bool) (s : string) :
  (∀ c, p c = q c) → all_chars p s = all_chars q s.
Proof. intros H. induction s as [|c s IH]; cbn; [done|]. by rewrite H, IH. Qed.

(** The words of [\d+]: digits, at least one. *)
Lemma matches_digits ic w cap cap' :
  matches ic (Re.Plus Re.digit) w cap cap' →
  all_chars Py.is_digit w = true ∧
  ∃ c w', w = String c w' ∧ Py.is_digit c = true.
Proof.
  intros Hm. apply matches_plus_cls in Hm as (Hall & c & w' & -> & Hc).
  rewrite cls_match_digit in Hc.
  rewrite (all_chars_ext _ Py.is_digit) in Hall by apply cls_match_digit.
  split; [done|]. by exists c, w'.
Qed.

Lemma matches_cat_inv ic r1 r2 w cap cap2 :
  matches ic (Re.Cat r1 r2) w cap cap2 →
  ∃ w1 w2 cap1, w = w1 +:+ w2 ∧ matches ic r1 w1 cap cap1 ∧ matches ic r2 w2 cap1 cap2.
Proof. inversion 1; subst. by eexists _, _, _. Qed.

Lemma matches_group_inv ic r w cap cap' :
  matches ic (Re.Group r) w cap cap' →
  cap' = Some w ∧ ∃ cap1, matches ic r w cap cap1.
Proof. inversion 1; subst. split; [done|]. by eexists. Qed.

Lemma matches_eps_inv ic w cap cap' :
  matches ic Re.Eps w cap cap' → w = "" ∧ cap' = cap.
Proof. by inversion 1. Qed.

(** A sequence that starts with a part without group. *)
Lemma seq_skip ic r rs w cap cap' :
  matches ic (Re.Seq (r :: rs)) w cap cap' →
  has_group r = false →
  ∃ w1 w2, w = w1 +:+ w2 ∧ matches ic (Re.Seq rs) w2 cap cap'.
Proof.
  intros Hm Hg. apply matches_cat_inv in Hm as (w1 & w2 & cap1 & -> & H1 & H2).
  rewrite (matches_no_group _ _ _ _ _ H1 Hg) in H2. by exists w1, w2.
Qed.

(** A sequence that ends with its group. *)
Lemma seq_last_group ic g w cap cap' :
  matches ic (Re.Seq [Re.Group g]) w cap cap' →
  ∃ cap1, cap' = Some w ∧ matches ic g w cap cap1.
Proof.
  intros Hm. apply matches_cat_inv in Hm as (w1 & w2 & cap1 & -> & H1 & H2).
  apply matches_eps_inv in H2 as [-> ->].
  apply matches_group_inv in H1 as [-> [c1 H1]].
  rewrite app_nil_r_string. by exists c1.
Qed.

(** A sequence that starts with its group. *)
Lemma seq_first_group ic g rs w cap cap' :
  matches ic (Re.Seq (Re.Group g :: rs)) w cap cap' →
  has_group (Re.Seq rs) = false →
  ∃ w1 w2 cap1, w = w1 +:+ w2 ∧ cap' = Some w1 ∧ matches ic g w1 cap cap1.
Proof.
  intros Hm Hg. apply matches_cat_inv in Hm as (w1 & w2 & cap1 & -> & H1 & H2).
  apply matches_group_inv in H1 as [-> [c1 H1]].
  rewrite (matches_no_group _ _ _ _ _ H2 Hg). by exists w1, w2, c1.
Qed.

(** * Quotes left, time posted, quantity *)

Ltac destruct_search H :=
  match goal with
  | |- context [match Re.search true ?p ?text with _ => _ end] =>
      destruct (Re.search true p text) as [?m|] eqn:H
  end.

Lemma first_match_quotes text g :
  first_match Patterns.quotes_patterns text = Some g →
  all_chars Py.is_digit g = true ∧ g ≠ "".
Proof.
  unfold Patterns.quotes_patterns. cbn [first_match].
  destruct_search H1.
  - intros [= <-]. apply search_sound in H1 as (pre & w & cap & _ & Hw & ->).
    do 5 (apply seq_skip in Hw as (? & w' & _ & Hw); [|reflexivity]; clear w;
          rename w' into w).
    apply seq_last_group in Hw as (c1 & -> & Hw).
    apply matches_digits in Hw as (Hall & c & w' & -> & _).
    split; [exact Hall|discriminate].
  - destruct_search H2; [|done].
    intros [= <-]. apply search_sound in H2 as (pre & w & cap & _ & Hw & ->).
    apply seq_first_group in Hw as (w1 & w2 & c1 & _ & -> & Hw); [|reflexivity].
    apply matches_digits in Hw as (Hall & c & w' & -> & _).
    split; [exact Hall|discriminate].
Qed.

Lemma contains_app_mid (pre w post : string) :
  Py.contains w (pre +:+ w +:+ post) = true.
Proof. apply contains_split. by exists pre, post. Qed.

Lemma first_match_time text g :
  first_match Patterns.time_patterns text = Some g →
  Py.contains g text = true ∧ ∃ d g', g = String d g' ∧ Py.is_digit d = true.
Proof.
  assert (Hshape : ∀ rs w cap cap',
    matches true (Re.Group (Re.Seq (Re.Plus Re.digit :: rs))) w cap cap' →
    cap' = Some w ∧ ∃ d w', w = String d w' ∧ Py.is_digit d = true).
  { intros rs w cap cap' Hw. apply matches_group_inv in Hw as [-> [c1 Hw]].
    split; [done|].
    apply matches_cat_inv in Hw as (w1 & w2 & c2 & -> & Hd & _).
    apply matches_digits in Hd as (_ & d & w' & -> & Hd). by exists d, (w' +:+ w2). }
  unfold Patterns.time_patterns. cbn [first_match].
  destruct_search H1.
  - intros [= <-]. apply search_sound in H1 as (pre & w & cap & -> & Hw & ->).
    apply Hshape in Hw as [-> Hd]. split; [apply contains_app_mid|done].
  - destruct_search H2; [|done].
    intros [= <-]. apply search_sound in H2 as (pre & w & cap & -> & Hw & ->).
    apply Hshape in Hw as [-> Hd]. split; [apply contains_app_mid|done].
Qed.

Lemma extract_default_or_later urljoin current_date container :
  raises urljoin current_date container = true ∨
  later_fields_extracted current_date container
    (extract_rfq_data_improved urljoin current_date container).
Proof.
  destruct (raises urljoin current_date container) eqn:Hr; [by left|].
  right. by apply extract_later_fields.
Qed.

(** X7.  The quotes left of a record are [N/A] or a string of decimal
    digits, at least one. *)
Theorem quotes_left_numeric
    (urljoin : string → string → option string) (current_date : string)
    (container : node) :
  let q := field (extract_rfq_data_improved urljoin current_date container)
             "Quotes Left" in
  q = "N/A" ∨ (all_chars Py.is_digit q = true ∧ q ≠ "").
Proof.
  cbv zeta.
  destruct (extract_default_or_later urljoin current_date container)
    as [Hr|(_ & _ & _ & Hq & _)].
  - left. apply field_lookup.
    by rewrite (extract_raised_defaults _ _ _ _ Hr) by discriminate.
  - rewrite (field_lookup _ _ _ Hq).
    destruct (first_match Patterns.quotes_patterns (get_text container)) as [g|] eqn:Hg;
      [|by left].
    right. by apply first_match_quotes in Hg.
Qed.

(** X8.  The time posted of a record is [N/A] or a stretch of the text of
    the container that starts with a decimal digit. *)
Theorem inquiry_time_from_text
    (urljoin : string → string → option string) (current_date : string)
    (container : node) :
  let t := field (extract_rfq_data_improved urljoin current_date container)
             "Inquiry Time" in
  t = "N/A" ∨
  (Py.contains t (get_text container) = true ∧
   ∃ d t', t = String d t' ∧ Py.is_digit d = true).
Proof.
  cbv zeta.
  destruct (extract_default_or_later urljoin current_date container)
    as [Hr|(_ & _ & Ht & _)].
  - left. apply field_lookup.
    by rewrite (extract_raised_defaults _ _ _ _ Hr) by discriminate.
  - rewrite (field_lookup _ _ _ Ht).
    destruct (first_match Patterns.time_patterns (get_text container)) as [g|] eqn:Hg;
      [|by left].
    right. by apply first_match_time in Hg.
Qed.

(** * [clean_text] *)

Lemma clean_text_eq (text : string) :
  clean_text text =
    Re.sub Patterns.unsafe_char "" (Re.sub (Re.Plus Re.ws) " " (Py.strip text)).
Proof. by destruct text. Qed.

Lemma match_here_rest_shorter ic p (s : string) (m : Re.found) :
  Re.match_here ic (Re.Plus (Re.Cls p)) s = Some m →
  String.length (Re.rest m) < String.length s.
Proof.
  intros Hm. apply match_here_sound in Hm as (w & cap & -> & Hw & _).
  apply matches_plus_cls in Hw as (_ & c & w' & -> & _).
  rewrite str_length_app. cbn. lia.
Qed.

Lemma match_here_ws_none (c : ascii) (s : string) :
  Re.match_here false (Re.Plus Re.ws) (String c s) = None → Py.is_space c = false.
Proof.
  unfold Re.match_here, Re.Plus, Re.ws. cbn [Re.matchk].
  unfold Re.cls_match. rewrite orb_false_r.
  destruct (Py.is_space c); [|done].
  generalize (String.length s) at 1. intros fuel. revert s.
  generalize (@None string) as cap.
  induction fuel as [|fuel IH]; intros cap s; [done|].
  match goal with
  | |- match ?m with _ => _ end = None → _ => by destruct m
  end.
Qed.

Lemma match_here_unsafe (c : ascii) (s : string) :
  Re.match_here false Patterns.unsafe_char (String c s) =
    if Py.is_word c || Py.is_space c ||
       existsb (Ascii.eqb c)
         ["-"; "."; ","; "("; ")"; "/"; "&"; "%"; "#"; "@"; "!"; "?"; ":"; ";"]%char
    then None
    else Some {| Re.group1 := ""; Re.rest := s |}.
Proof.
  unfold Re.match_here, Patterns.unsafe_char. cbn [Re.matchk].
  unfold Re.cls_match. by rewrite orb_false_r.
Qed.

(** Collapsing the white space leaves no white space but single spaces
    behind, and does not lengthen the text. *)
Lemma sub_ws_spec (fuel : nat) (s : string) :
  String.length s ≤ fuel →
  all_chars plain_space (Re.sub_go fuel (Re.Plus Re.ws) " " s) = true ∧
  String.length (Re.sub_go fuel (Re.Plus Re.ws) " " s) ≤ String.length s.
Proof.
  revert s. induction fuel as [|fuel IH]; intros s Hs.
  - destruct s; [done|cbn [String.length] in Hs; lia].
  - destruct s as [|c s]; [done|]. cbn [Re.sub_go].
    destruct (Re.match_here false (Re.Plus Re.ws) (String c s)) as [m|] eqn:Hm.
    + pose proof (match_here_rest_shorter _ _ _ _ Hm) as Hlt.
      apply Nat.ltb_lt in Hlt as Hlt'. rewrite Hlt'.
      cbn [String.length] in Hs, Hlt.
      destruct (IH (Re.rest m)) as [Ha Hl]; [lia|].
      change (" " +:+ ?x) with (String " " x). cbn [all_chars String.length].
      split; [by rewrite Ha|lia].
    + apply match_here_ws_none in Hm. cbn [String.length] in Hs.
      destruct (IH s) as [Ha Hl]; [lia|].
      cbn [all_chars String.length]. unfold plain_space at 1. rewrite Hm, Ha.
      split; [done|lia].
Qed.

(** Dropping the unsafe characters keeps what holds of every character and
    does not lengthen the text. *)
Lemma sub_unsafe_spec (q : ascii → bool) (fuel : nat) (s : string) :
  String.length s ≤ fuel →
  all_chars q s = true →
  all_chars (λ c, q c && (Py.is_word c || Py.is_space c ||
       existsb (Ascii.eqb c)
         ["-"; "."; ","; "("; ")"; "/"; "&"; "%"; "#"; "@"; "!"; "?"; ":"; ";"]%char))
    (Re.sub_go fuel Patterns.unsafe_char "" s) = true ∧
  String.length (Re.sub_go fuel Patterns.unsafe_char "" s) ≤ String.length s.
Proof.
  revert s. induction fuel as [|fuel IH]; intros s Hs Hq.
  - destruct s; [done|cbn [String.length] in Hs; lia].
  - destruct s as [|c s]; [done|]. cbn [Re.sub_go].
    cbn [all_chars] in Hq. apply andb_true_iff in Hq as [Hc Hq].
    cbn [String.length] in Hs.
    destruct (IH s) as [Ha Hl]; [lia|done|].
    rewrite match_here_unsafe.
    destruct (Py.is_word c || Py.is_space c || existsb _ _) eqn:Hkeep.
    + cbn [all_chars String.length]. rewrite Hc, Hkeep, Ha. split; [done|lia].
    + cbn [Re.rest]. replace (String.length s <? String.length (String c s)) with true
        by (symmetry; apply Nat.ltb_lt; cbn; lia).
      change ("" +:+ ?x) with x. split; [done|cbn; lia].
Qed.

Lemma all_chars_impl (p q : ascii → bool) (s : string) :
  (∀ c, p c = true → q c = true) → all_chars p s = true → all_chars q s = true.
Proof.
  intros H. induction s as [|c s IH]; cbn; [done|].
  intros [Hc Hs]%andb_true_iff. by rewrite (H _ Hc), IH.
Qed.

Lemma lstrip_length (s : string) : String.length (Py.lstrip s) ≤ String.length s.
Proof.
  induction s as [|c s IH]; cbn; [done|]. destruct (Py.is_space c); cbn; lia.
Qed.

Lemma rstrip_length (s : string) : String.length (Py.rstrip s) ≤ String.length s.
Proof.
  induction s as [|c s IH]; cbn; [done|].
  destruct (Py.rstrip s); [destruct (Py.is_space c)|]; cbn in *; lia.
Qed.

Lemma safe_of_plain (c : ascii) :
  plain_space c &&
    (Py.is_word c || Py.is_space c ||
     existsb (Ascii.eqb c)
       ["-"; "."; ","; "("; ")"; "/"; "&"; "%"; "#"; "@"; "!"; "?"; ":"; ";"]%char) = true →
  safe_char c = true.
Proof. by destruct c as [[] [] [] [] [] [] [] []]. Qed.

Lemma clean_text_all_safe (text : string) :
  all_chars safe_char (clean_text text) = true.
Proof.
  rewrite clean_text_eq. unfold Re.sub.
  destruct (sub_ws_spec (String.length (Py.strip text)) (Py.strip text)) as [Hws _];
    [done|].
  destruct (sub_unsafe_spec plain_space _ _ (Nat.le_refl _) Hws) as [Hsafe _].
  eapply all_chars_impl; [|exact Hsafe]. intros c. apply safe_of_plain.
Qed.

(** X9.  [clean_text] returns only word characters, spaces and the
    punctuation it lists (no tab, line break or other character is left),
    and it never lengthens a text. *)
Theorem clean_text_safe_and_shorter (text : string) :
  all_chars safe_char (clean_text text) = true ∧
  Py.len (clean_text text) ≤ Py.len text.
Proof.
  split; [apply clean_text_all_safe|].
  rewrite clean_text_eq. unfold Re.sub, Py.len.
  destruct (sub_ws_spec (String.length (Py.strip text)) (Py.strip text)) as [Hws Hl1];
    [done|].
  destruct (sub_unsafe_spec plain_space _ _ (Nat.le_refl _) Hws) as [_ Hl2].
  unfold Py.strip in *.
  pose proof (rstrip_length (Py.lstrip text)). pose proof (lstrip_length text). lia.
Qed.

(** * Quantity, title, image and name *)

Lemma quantity_loop_value (P : string → Prop) patterns text (d : dict) :
  (∀ g, Py.len (clean_text g) < 100 → P (clean_text g)) →
  (∀ v, d !! "Quantity Required" = Some v → P v) →
  ∀ v, quantity_loop patterns text d !! "Quantity Required" = Some v → P v.
Proof.
  intros Hclean Hd. induction patterns as [|p ps IH]; [done|].
  cbn [quantity_loop]. cbv zeta.
  destruct (Re.search true p text) as [m|]; [|done].
  destruct (Py.len (clean_text (Re.group1 m)) <? 100) eqn:Hl; [|done].
  rewrite lookup_insert_eq. intros v [= <-]. apply Hclean. by apply Nat.ltb_lt.
Qed.

(** X10.  The two fields the extractor cleans, title and quantity, hold
    only safe characters in every extracted record, and the quantity has
    fewer than a hundred characters. *)
Theorem cleaned_fields_safe
    (urljoin : string → string → option string) (current_date : string)
    (container : node) :
  let r := extract_rfq_data_improved urljoin current_date container in
  all_chars safe_char (field r "Title") = true ∧
  all_chars safe_char (field r "Quantity Required") = true ∧
  Py.len (field r "Quantity Required") < 100.
Proof.
  cbv zeta. split.
  - destruct (extract_title_shape urljoin current_date container)
      as [->|(a & _ & -> & _)]; [reflexivity|apply clean_text_all_safe].
  - assert (Hq : ∃ v,
      extract_rfq_data_improved urljoin current_date container
        !! "Quantity Required" = Some v ∧
      all_chars safe_char v = true ∧ Py.len v < 100).
    { destruct (extract_default_or_later urljoin current_date container)
        as [Hr|(_ & _ & _ & _ & Hq & _)].
      - exists "N/A". split; [|split; [reflexivity|cbn; lia]].
        rewrite (extract_raised_defaults _ _ _ _ Hr) by discriminate. reflexivity.
      - rewrite Hq.
        destruct (quantity_loop Patterns.quantity_patterns (get_text container)
                    (defaults current_date) !! "Quantity Required") as [v|] eqn:Hv.
        + exists v. split; [done|]. clear Hq. revert v Hv.
          apply (quantity_loop_value
                   (λ v, all_chars safe_char v = true ∧ Py.len v < 100)).
          * intros g Hg. split; [apply clean_text_all_safe|done].
          * assert (Hdq : defaults current_date !! "Quantity Required" = Some "N/A")
              by reflexivity.
            rewrite Hdq. intros v [= <-]. split; [reflexivity|cbn; lia].
        + exfalso. revert Hv.
          assert (Hsome : ∀ ps (d : dict), is_Some (d !! "Quantity Required") →
                    is_Some (quantity_loop ps (get_text container) d
                               !! "Quantity Required")).
          { induction ps as [|p ps IH]; intros d Hd; [done|].
            cbn [quantity_loop]. cbv zeta. repeat case_match; auto.
            rewrite lookup_insert_eq. done. }
          intros Hnone. destruct (Hsome Patterns.quantity_patterns (defaults current_date))
            as [v Hv']; [exists "N/A"; reflexivity|congruence]. }
    destruct Hq as (v & Hv & Hsafe & Hlen). by rewrite (field_lookup _ _ _ Hv).
Qed.

Lemma contains_app_r (w a b : string) :
  Py.contains w b = true → Py.contains w (a +:+ b) = true.
Proof.
  intros (x & y & ->)%contains_split. apply contains_split.
  exists (a +:+ x), y. by rewrite app_assoc_string.
Qed.

(** X11.  The buyer image of a record is [N/A] or a source of an image of
    the container on the asset host [alicdn.com], and it never starts with
    two slashes: such a source gets [https:] in front. *)
Theorem buyer_image_shape
    (urljoin : string → string → option string) (current_date : string)
    (container : node) :
  let img := field (extract_rfq_data_improved urljoin current_date container)
               "Buyer Image" in
  img = "N/A" ∨
  (Py.contains "alicdn.com" img = true ∧
   Py.startswith img "//" = false ∧
   ∃ src, src ∈ ((λ i, default "" (get_attr i "src")) <$> find_all_img container) ∧
          (img = src ∨ img = "https:" +:+ src)).
Proof.
  cbv zeta.
  destruct (extract_default_or_later urljoin current_date container)
    as [Hr|(_ & Hi & _)].
  - left. apply field_lookup.
    by rewrite (extract_raised_defaults _ _ _ _ Hr) by discriminate.
  - unfold buyer_image in Hi. cbv zeta in Hi.
    destruct (List.find image_ok _) as [src|] eqn:Hf.
    + right. rewrite lookup_insert_eq in Hi. rewrite (field_lookup _ _ _ Hi).
      apply find_some in Hf as [Hin Hok]. apply list_elem_of_In in Hin.
      unfold image_ok in Hok. apply andb_true_iff in Hok as [_ Hhost].
      destruct (Py.startswith src "//") eqn:Hs.
      * split_and!; [by apply contains_app_r|done|]. exists src. split; [done|by right].
      * split_and!; [done|done|]. exists src. split; [done|by left].
    + left. by apply field_lookup.
Qed.

Lemma lstrip_suffix (s : string) : ∃ a, s = a +:+ Py.lstrip s.
Proof.
  induction s as [|c s [a IH]]; [by exists ""|]. cbn [Py.lstrip].
  destruct (Py.is_space c); [|by exists ""].
  exists (String c a). by rewrite app_cons, <- IH.
Qed.

Lemma rstrip_prefix (s : string) : ∃ b, s = Py.rstrip s +:+ b.
Proof.
  induction s as [|c s [b IH]]; [by exists ""|]. cbn [Py.rstrip].
  destruct (Py.rstrip s) as [|c' r] eqn:Hr.
  - destruct (Py.is_space c); [by exists (String c s)|]. exists b.
    by rewrite app_cons, <- IH.
  - exists b. by rewrite app_cons, <- IH.
Qed.

Lemma contains_strip (w s : string) :
  Py.contains w (Py.strip s) = true → Py.contains w s = true.
Proof.
  unfold Py.strip. intros (x & y & Hxy)%contains_split.
  destruct (lstrip_suffix s) as [a Ha]. destruct (rstrip_prefix (Py.lstrip s)) as [b Hb].
  apply contains_split. exists (a +:+ x), (y +:+ b).
  rewrite Ha at 1. rewrite Hb at 1. rewrite Hxy.
  by rewrite !app_assoc_string.
Qed.

Lemma any_in_strip (ws : list string) (s : string) :
  Py.any_in ws s = false → Py.any_in ws (Py.strip s) = false.
Proof.
  unfold Py.any_in. induction ws as [|w ws IH]; [done|]. cbn [existsb].
  intros [Hw Hws]%orb_false_iff. rewrite IH by done. rewrite orb_false_r.
  destruct (Py.contains w (Py.strip s)) eqn:Hc; [|done].
  apply contains_strip in Hc. congruence.
Qed.

Lemma name_loop_value (P : string → Prop) patterns text (d : dict) :
  (∀ m, name_ok m = true → P (Py.strip m)) →
  (∀ v, d !! "Buyer Name" = Some v → P v) →
  ∀ v, name_loop patterns text d !! "Buyer Name" = Some v → P v.
Proof.
  intros Hok. revert d. induction patterns as [|p ps IH]; intros d Hd; [done|].
  cbn [name_loop]. cbv zeta.
  destruct (List.find name_ok (Re.findall p text)) as [m|] eqn:Hf.
  - apply find_some in Hf as [_ Hm].
    assert (Hd' : ∀ v, <["Buyer Name" := Py.strip m]> d !! "Buyer Name" = Some v → P v).
    { rewrite lookup_insert_eq. intros v [= <-]. by apply Hok. }
    destruct (negb _); [done|]. by apply IH.
  - destruct (negb _); [done|]. by apply IH.
Qed.

(** X12.  The buyer name of a record never contains one of the excluded
    words of the site's boilerplate. *)
Theorem buyer_name_not_boilerplate
    (urljoin : string → string → option string) (current_date : string)
    (container : node) :
  Py.any_in exclude_words
    (field (extract_rfq_data_improved urljoin current_date container) "Buyer Name")
  = false.
Proof.
  assert (Hdn : defaults current_date !! "Buyer Name" = Some "N/A") by reflexivity.
  destruct (extract_default_or_later urljoin current_date container)
    as [Hr|(Hn & _)].
  - assert (Hv : extract_rfq_data_improved urljoin current_date container
                   !! "Buyer Name" = Some "N/A").
    { by rewrite (extract_raised_defaults _ _ _ _ Hr) by discriminate. }
    by rewrite (field_lookup _ _ _ Hv).
  - unfold field. rewrite lookup_total_alt, Hn.
    destruct (name_loop Patterns.name_patterns (get_text container)
                (defaults current_date) !! "Buyer Name") as [v|] eqn:Hv; [|done].
    clear Hn. revert v Hv. cbn [default from_option id].
    apply (name_loop_value (λ v, Py.any_in exclude_words v = false)).
    + intros m Hm. unfold name_ok in Hm. apply andb_true_iff in Hm as [Hm _].
      apply negb_true_iff in Hm. by apply any_in_strip.
    + rewrite Hdn. by intros v [= <-].
Qed.

(** * Bounds of a page and of a run *)

Lemma containers_loop_length urljoin current_date rfq_containers page_data
    processed_urls seen :
  length page_data < 20 →
  length (containers_loop urljoin current_date rfq_containers page_data
            processed_urls seen).1 ≤ 20.
Proof.
  revert page_data processed_urls seen.
  induction rfq_containers as [|c cs IH]; intros page_data processed_urls seen Hl.
  - cbn. lia.
  - cbn [containers_loop]. cbv zeta.
    destruct (accept _ processed_urls seen); [|by apply IH].
    destruct (20 <=? length (page_data ++ [_])) eqn:Hc.
    + cbn [fst]. rewrite length_app. cbn. lia.
    + apply IH. by apply Nat.leb_gt in Hc.
Qed.

Lemma scrape_page_length urljoin current_date render self url page_num :
  length (scrape_page_with_selenium urljoin current_date render self url page_num).1
    ≤ 20.
Proof.
  unfold scrape_page_with_selenium.
  destruct (render (length (fetched self)) url) as [soup|].
  - pose proof (containers_loop_length urljoin current_date
                  (resolve soup (get_rfq_containers soup)) [] ∅ (seen_urls self)) as Hl.
    destruct (containers_loop _ _ _ _ _ _) as [pd seen]. cbn in *. lia.
  - cbn. lia.
Qed.

(** X13.  One call of [scrape_page_with_selenium] returns at most twenty
    records, whatever the page holds, and none when rendering fails: the
    seen-set is then left as it was. *)
Theorem page_yields_at_most_twenty
    (urljoin : string → string → option string) (current_date : string)
    (render : nat → string → option node) (self : scraper) (url : string)
    (page_num : nat) :
  length (scrape_page_with_selenium urljoin current_date render self url page_num).1
    ≤ 20 ∧
  (render (length (fetched self)) url = None →
   scrape_page_with_selenium urljoin current_date render self url page_num =
     ([], {| seen_urls := seen_urls self;
             fetched := fetched self ++ [event page_num url 0] |})).
Proof.
  split; [apply scrape_page_length|].
  unfold scrape_page_with_selenium. by intros ->.
Qed.

(** A fetch that fails. *)
Lemma page_yields_nothing_on_failure :
  scrape_page_with_selenium Scenario.urljoin Scenario.today Scenario.render_once
    {| seen_urls := ∅; fetched := [event 1 Scenario.plain_url 1] |}
    (Scenario.plain_url +:+ "&page=2") 2 =
  ([], {| seen_urls := ∅;
          fetched := [event 1 Scenario.plain_url 1] ++
                     [event 2 (Scenario.plain_url +:+ "&page=2") 0] |}).
Proof.
  apply (page_yields_at_most_twenty Scenario.urljoin Scenario.today Scenario.render_once
           {| seen_urls := ∅; fetched := [event 1 Scenario.plain_url 1] |}).
  reflexivity.
Defined.

Lemma page_attempt_length urljoin current_date render base_url self page :
  length (page_attempt urljoin current_date render base_url self page).1 ≤ 20.
Proof.
  unfold page_attempt. cbv zeta.
  pose proof (scrape_page_length urljoin current_date render self
                (page_url base_url page) page) as H1.
  destruct (scrape_page_with_selenium urljoin current_date render self
              (page_url base_url page) page) as [pd self1].
  destruct (is_empty pd); [|done].
  destruct (negb _); [|done].
  apply scrape_page_length.
Qed.

Lemma pages_loop_bounds urljoin current_date render pages base_url self all_data :
  length (pages_loop urljoin current_date render pages base_url self all_data).1
    ≤ length all_data + 20 * length pages ∧
  length (fetched (pages_loop urljoin current_date render pages base_url self all_data).2)
    ≤ length (fetched self) + 2 * length pages.
Proof.
  revert self all_data. induction pages as [|page pages' IH]; intros self all_data.
  - cbn. lia.
  - rewrite pages_loop_cons.
    pose proof (page_attempt_length urljoin current_date render base_url self page) as Hl.
    destruct (page_attempt_spec urljoin current_date render base_url self page)
      as (pd & evs & Heq & _ & _ & _ & _ & Hshape).
    rewrite Heq in *. cbn [fst] in Hl.
    assert (Hevs : length evs ≤ 2).
    { destruct Hshape as [(-> & _)|(-> & _)]; cbn; lia. }
    destruct (is_empty pd).
    + cbn [fst snd fetched length]. rewrite length_app. lia.
    + match goal with
      | |- context [pages_loop _ _ _ _ _ ?s ?a] => destruct (IH s a) as [H1 H2]
      end.
      cbn [fetched] in H2. rewrite !length_app in *. cbn [length]. lia.
Qed.

(** X14.  A run fetches at most two URLs for each page up to [max_pages]
    and returns at most twenty records for each; when the browser cannot
    be set up it fetches nothing and returns nothing. *)
Theorem run_bounds
    (urljoin : string → string → option string) (current_date : string)
    (render : nat → string → option node) (setup_ok : bool) (self : scraper)
    (base_url : string) (max_pages : nat) :
  let run := scrape_multiple_pages urljoin current_date render setup_ok self
               base_url max_pages in
  length run.1 ≤ 20 * max_pages ∧
  length (fetched run.2) ≤ length (fetched self) + 2 * max_pages ∧
  (setup_ok = false → run = ([], self)).
Proof.
  cbv zeta. unfold scrape_multiple_pages. destruct setup_ok.
  - destruct (pages_loop_bounds urljoin current_date render (seq 1 max_pages)
                base_url self []) as [H1 H2].
    rewrite length_seq in *. cbn [length] in H1. split_and!; [lia|lia|done].
  - cbn. split_and!; [lia|lia|done].
Qed.

(** Without a browser nothing is fetched. *)
Lemma run_bounds_no_browser :
  scrape_multiple_pages Scenario.urljoin Scenario.today Scenario.render_once
    false Scenario.fresh Scenario.plain_url 5 = ([], Scenario.fresh).
Proof.
  exact (proj2 (proj2 (run_bounds Scenario.urljoin Scenario.today Scenario.render_once
                         false Scenario.fresh Scenario.plain_url 5)) eq_refl).
Defined.

(** * The seen-set across runs *)

Lemma run_fresh urljoin current_date render setup_ok self base_url max_pages :
  let run := scrape_multiple_pages urljoin current_date render setup_ok self
               base_url max_pages in
  seen_urls run.2 = seen_urls self ∪ list_to_set (url_of <$> run.1) ∧
  (∀ r, r ∈ run.1 → url_of r ∉ seen_urls self).
Proof.
  cbv zeta. unfold scrape_multiple_pages. destruct setup_ok.
  - destruct (pages_loop_spec urljoin current_date render (seq 1 max_pages)
                base_url self [])
      as (new & evs & done & rest & Heq & _ & _ & _ & Hfresh & _).
    rewrite Heq. cbn [fst snd seen_urls]. split; [done|].
    intros r Hr. apply Hfresh. by apply list_elem_of_fmap_2.
  - cbn. split; [set_solver|]. intros r Hr. by apply elem_of_nil in Hr.
Qed.

(** X15.  After a run the seen-set is the seen-set before it together with
    the URLs of the records returned, and no record returned has a URL
    that was seen before the run. *)
Theorem seen_set_tracks_result
    (urljoin : string → string → option string) (current_date : string)
    (render : nat → string → option node) (setup_ok : bool) (self : scraper)
    (base_url : string) (max_pages : nat) :
  let run := scrape_multiple_pages urljoin current_date render setup_ok self
               base_url max_pages in
  seen_urls run.2 = seen_urls self ∪ list_to_set (url_of <$> run.1) ∧
  Forall (λ r, url_of r ∉ seen_urls self) run.1.
Proof.
  cbv zeta.
  destruct (run_fresh urljoin current_date render setup_ok self base_url max_pages)
    as [Hs Hf].
  split; [done|]. by apply Forall_forall.
Qed.

(** X16.  A second run on the same scraper object, with whatever pages,
    base URL and page limit, returns no URL that the first run returned. *)
Theorem second_run_disjoint
    (urljoin : string → string → option string) (current_date : string)
    (render1 render2 : nat → string → option node) (setup1 setup2 : bool)
    (self : scraper) (base1 base2 : string) (max1 max2 : nat) :
  let run1 := scrape_multiple_pages urljoin current_date render1 setup1 self
                base1 max1 in
  let run2 := scrape_multiple_pages urljoin current_date render2 setup2 run1.2
                base2 max2 in
  Forall (λ r2, Forall (λ r1, url_of r1 ≠ url_of r2) run1.1) run2.1.
Proof.
  cbv zeta.
  destruct (run_fresh urljoin current_date render1 setup1 self base1 max1) as [Hs _].
  cbv zeta in Hs.
  destruct (run_fresh urljoin current_date render2 setup2
              (scrape_multiple_pages urljoin current_date render1 setup1 self
                 base1 max1).2 base2 max2) as [_ Hf].
  cbv zeta in Hf.
  apply Forall_forall. intros r2 Hr2. apply Forall_forall. intros r1 Hr1 Heq.
  apply (Hf r2 Hr2). rewrite Hs, <- Heq.
  apply elem_of_union_r, elem_of_list_to_set. by apply list_elem_of_fmap_2.
Qed.

(** * The record of a container on which the extractor raises *)

Lemma accept_iff r (processed_urls seen : gset string) :
  accept r processed_urls seen = true ↔
  passes_filter r ∧ (url_of r ∉ processed_urls) ∧ (url_of r ∉ seen).
Proof.
  split; [apply accept_true|].
  intros ((Hna & Hlen & Hw) & Hp & Hs).
  unfold accept, title_of, url_of in *. cbv zeta.
  apply String.eqb_neq in Hna. apply Nat.ltb_ge in Hlen.
  rewrite Hna, Hlen, Hw. by rewrite !bool_decide_eq_false_2.
Qed.

(** X17.  When the extractor raises on a container, the record keeps the
    title and has [N/A] as inquiry URL and identifier.  If the title passes
    the filter the record is accepted like any other, under the URL [N/A],
    unless [N/A] has been seen: one such record at most enters a run. *)
Theorem raised_record_accepted_once
    (urljoin : string → string → option string) (current_date : string)
    (container : node) (processed_urls seen : gset string) :
  raises urljoin current_date container = true →
  let r := extract_rfq_data_improved urljoin current_date container in
  url_of r = "N/A" ∧
  field r "RFQ ID" = "N/A" ∧
  (accept r processed_urls seen = true ↔
   passes_filter r ∧ ("N/A" ∉ processed_urls) ∧ ("N/A" ∉ seen)).
Proof.
  intros Hr. cbv zeta.
  assert (Hu : url_of (extract_rfq_data_improved urljoin current_date container) = "N/A").
  { apply field_lookup. by rewrite (extract_raised_defaults _ _ _ _ Hr) by discriminate. }
  split_and!.
  - done.
  - apply field_lookup. by rewrite (extract_raised_defaults _ _ _ _ Hr) by discriminate.
  - by rewrite accept_iff, Hu.
Qed.

(** The card whose link [urljoin] refuses is accepted by a fresh scraper. *)
Lemma raised_record_bad_href :
  accept (extract_rfq_data_improved Scenario.urljoin Scenario.today
            Scenario.bad_href_container) ∅ ∅ = true ∧
  url_of (extract_rfq_data_improved Scenario.urljoin Scenario.today
            Scenario.bad_href_container) = "N/A".
Proof.
  destruct (raised_record_accepted_once Scenario.urljoin Scenario.today
              Scenario.bad_href_container ∅ ∅) as (Hu & _ & Ha).
  - vm_compute. reflexivity.
  - split; [|exact Hu]. apply Ha. split_and!.
    + unfold passes_filter, title_of. split_and!.
      * vm_compute. discriminate.
      * vm_compute. lia.
      * vm_compute. reflexivity.
    + apply not_elem_of_empty.
    + apply not_elem_of_empty.
Defined.

(** * The URLs of the pages *)

Lemma app_inv_head_string (a x y : string) : a +:+ x = a +:+ y → x = y.
Proof.
  induction a as [|c a IH]; [done|]. rewrite !app_cons. intros [= H]. by apply IH.
Qed.

(** X18.  Different pages are fetched under different URLs, whatever the
    base URL. *)
Theorem page_url_inj (base_url : string) (p q : nat) :
  p ≠ q → page_url base_url p ≠ page_url base_url q.
Proof.
  intros Hne Heq. apply Hne.
  destruct (decide (p = 1)) as [->|Hp], (decide (q = 1)) as [->|Hq]; [done|..].
  - pose proof (page_url_longer base_url q Hq) as Hl. rewrite <- Heq in Hl.
    cbn in Hl. lia.
  - pose proof (page_url_longer base_url p Hp) as Hl. rewrite Heq in Hl.
    cbn in Hl. lia.
  - unfold page_url in Heq.
    destruct (Nat.eqb_spec p 1) as [|_]; [done|].
    destruct (Nat.eqb_spec q 1) as [|_]; [done|].
    destruct (Py.contains "?" base_url);
      apply app_inv_head_string, app_inv_head_string in Heq;
      by apply (inj pretty) in Heq.
Qed.

(** Pages 2 and 3 of the plain URL. *)
Lemma page_url_inj_plain :
  page_url Scenario.plain_url 2 ≠ page_url Scenario.plain_url 3.
Proof. apply page_url_inj. lia. Defined.

(** * The alternative URL when the base URL has the recency marker *)

Lemma pretty_N_go_length_ge (x : N) (s : string) :
  String.length s ≤ String.length (pretty_N_go x s).
Proof.
  revert s. induction (N.lt_wf_0 x) as [x _ IH]; intros s.
  assert (x = 0 ∨ 0 < x)%N as [->|Hx] by lia; [by rewrite pretty_N_go_0|].
  rewrite pretty_N_go_step by done.
  etrans; [|apply IH; by apply N.div_lt]. cbn. lia.
Qed.

Lemma pretty_N_go_length_mono (x y : N) (s s' : string) :
  (x ≤ y)%N → String.length s ≤ String.length s' →
  String.length (pretty_N_go x s) ≤ String.length (pretty_N_go y s').
Proof.
  revert x s s'. induction (N.lt_wf_0 y) as [y _ IH]; intros x s s' Hxy Hs.
  assert (x = 0 ∨ 0 < x)%N as [->|Hx] by lia.
  - rewrite pretty_N_go_0. etrans; [exact Hs|apply pretty_N_go_length_ge].
  - rewrite (pretty_N_go_step x), (pretty_N_go_step y) by lia.
    apply IH.
    + apply N.div_lt; lia.
    + by apply N.Div0.div_le_mono.
    + cbn. lia.
Qed.

(** The decimal form of a number has at least as many digits as that of a
    smaller one. *)
Lemma pretty_length_mono (a b : nat) :
  a ≤ b → String.length (pretty a) ≤ String.length (pretty b).
Proof.
  intros Hab. unfold pretty, pretty_nat, pretty, pretty_N.
  destruct (decide (N.of_nat a = 0%N)) as [Ha|Ha],
           (decide (N.of_nat b = 0%N)) as [Hb|Hb].
  - done.
  - assert (0 < N.of_nat b)%N as Hpos by lia.
    rewrite pretty_N_go_step by done.
    etrans; [|apply pretty_N_go_length_ge]. cbn. lia.
  - lia.
  - apply pretty_N_go_length_mono; [lia|done].
Qed.

Lemma drop_app_length (a b : string) : Py.drop (String.length a) (a +:+ b) = b.
Proof. induction a as [|c a IH]; [by destruct b|]. by rewrite app_cons. Qed.

Lemma replace_go_length (fuel : nat) (s old new : string) :
  String.length s < fuel →
  old ≠ "" →
  String.length old ≤ String.length new →
  String.length s ≤ String.length (Py.replace_go fuel s old new) ∧
  (Py.contains old s = true →
   String.length s + (String.length new - String.length old)
     ≤ String.length (Py.replace_go fuel s old new)).
Proof.
  intros Hf Hold Hlen. revert s Hf.
  induction fuel as [|fuel IH]; intros s Hf; [lia|].
  cbn [Py.replace_go]. destruct (Py.startswith s old) eqn:Hs.
  - apply startswith_app in Hs as [t ->]. rewrite drop_app_length.
    rewrite str_length_app in Hf.
    assert (0 < String.length old) by (destruct old; [done|cbn; lia]).
    destruct (IH t) as [Ht _]; [lia|].
    rewrite !str_length_app. split; [lia|]. intros _. lia.
  - destruct s as [|c s].
    + split; [done|]. cbn [Py.contains]. by rewrite Hs.
    + cbn [String.length] in *. destruct (IH s) as [H1 H2]; [lia|].
      split; [lia|]. cbn [Py.contains]. rewrite Hs. cbn [orb].
      intros Hc. specialize (H2 Hc). lia.
Qed.

(** X19.  For a base URL with the recency marker the alternative URL of
    every page from 1 on differs from the URL fetched for the page; so a
    page that gives no record is always fetched a second time, under the
    alternative URL. *)
Theorem alt_url_with_marker (base_url : string) (page : nat) :
  Py.contains "&recently=Y" base_url = true →
  1 ≤ page →
  alt_url base_url page ≠ page_url base_url page ∧
  ∀ urljoin current_date render self,
    (scrape_page_with_selenium urljoin current_date render self
       (page_url base_url page) page).1 = [] →
    ∃ n,
      fetched (page_attempt urljoin current_date render base_url self page).2 =
        fetched self ++ [event page (page_url base_url page) 0;
                         event page (alt_url base_url page) n].
Proof.
  intros Hm Hp.
  assert (Hne : alt_url base_url page ≠ page_url base_url page).
  { intros Heq. apply (f_equal String.length) in Heq.
    unfold alt_url, Py.replace in Heq.
    change ("&recently=Y") with (String "&" "recently=Y") in Heq at 1.
    cbv iota in Heq.
    destruct (replace_go_length (S (String.length base_url)) base_url "&recently=Y"
                ("&recently=Y&startIndex=" +:+ pretty ((page - 1) * 20)))
      as [_ Hlen]; [lia|done|rewrite str_length_app; cbn; lia|].
    specialize (Hlen Hm). rewrite Heq in Hlen.
    rewrite str_length_app in Hlen. cbn [String.length] in Hlen.
    unfold page_url in Hlen. destruct (Nat.eqb_spec page 1) as [->|Hp1].
    - lia.
    - pose proof (pretty_length_mono page ((page - 1) * 20)) as Hd.
      destruct (Py.contains "?" base_url);
        rewrite !str_length_app in Hlen; cbn [String.length] in Hlen; lia. }
  split; [done|].
  intros urljoin current_date render self Hempty.
  destruct (page_attempt_spec urljoin current_date render base_url self page)
    as (pd & evs & Heq & _ & _ & _ & _ & [(-> & Hsame & Hpd)|(-> & _ & _)]).
  - exfalso. apply Hne, Hsame. by rewrite <- Hpd.
  - rewrite Heq. by exists (length pd).
Qed.

(** The listing URL of [main], page 3. *)
Lemma alt_url_with_marker_main :
  alt_url
    "https://sourcing.alibaba.com/rfq/rfq_search_list.htm?spm=a2700.8073608.1998677541.1.82be65aaoUUItC&country=AE&recently=Y&tracelog=newest"
    3 ≠
  page_url
    "https://sourcing.alibaba.com/rfq/rfq_search_list.htm?spm=a2700.8073608.1998677541.1.82be65aaoUUItC&country=AE&recently=Y&tracelog=newest"
    3.
Proof.
  apply alt_url_with_marker.
  - vm_compute. reflexivity.
  - lia.
Defined.

(** * [clean_text] applied again *)

Lemma plus_ws_here (c : ascii) (s : string) :
  Re.match_here false (Re.Plus Re.ws) (String c s) =
    if Py.is_space c
    then Some {| Re.group1 := ""; Re.rest := Py.lstrip s |}
    else None.
Proof.
  unfold Re.match_here, Re.Plus, Re.ws. cbn [Re.matchk].
  unfold Re.cls_match. rewrite orb_false_r.
  destruct (Py.is_space c); [|done].
  generalize (Nat.le_refl (String.length s)).
  generalize (String.length s) at 2 3. intros fuel. revert s.
  induction fuel as [|fuel IH]; intros s Hs.
  - by destruct s; [|cbn in Hs; lia].
  - destruct s as [|d s]; [done|]. cbn [Py.lstrip].
    rewrite orb_false_r. destruct (Py.is_space d); [|done].
    replace (String.length s <? String.length (String d s)) with true
      by (symmetry; apply Nat.ltb_lt; cbn; lia).
    cbn [String.length] in Hs. rewrite IH by lia. done.
Qed.

Lemma sub_go_fuel (r : Re.regex) (repl : string) (fuel1 fuel2 : nat) (s : string) :
  String.length s ≤ fuel1 → String.length s ≤ fuel2 →
  Re.sub_go fuel1 r repl s = Re.sub_go fuel2 r repl s.
Proof.
  revert fuel2 s. induction fuel1 as [|fuel1 IH]; intros fuel2 s H1 H2.
  - destruct s; [by destruct fuel2|cbn in H1; lia].
  - destruct s as [|c s]; [by destruct fuel2|].
    destruct fuel2 as [|fuel2]; [cbn in H2; lia|].
    cbn [Re.sub_go String.length] in *.
    destruct (Re.match_here false r (String c s)) as [m|]; [|f_equal; apply IH; lia].
    destruct (String.length (Re.rest m) <? S (String.length s)) eqn:Hlt.
    + apply Nat.ltb_lt in Hlt. f_equal. apply IH; lia.
    + f_equal. apply IH; lia.
Qed.

Lemma sub_ws_cons (c : ascii) (s : string) :
  Re.sub (Re.Plus Re.ws) " " (String c s) =
    if Py.is_space c
    then String " " (Re.sub (Re.Plus Re.ws) " " (Py.lstrip s))
    else String c (Re.sub (Re.Plus Re.ws) " " s).
Proof.
  unfold Re.sub. cbn [String.length Re.sub_go]. rewrite plus_ws_here.
  destruct (Py.is_space c); [|done]. cbn [Re.rest].
  pose proof (lstrip_length s).
  replace (String.length (Py.lstrip s) <? S (String.length s)) with true
    by (symmetry; apply Nat.ltb_lt; lia).
  change (" " +:+ ?x) with (String " " x). f_equal.
  apply sub_go_fuel; lia.
Qed.

Lemma sub_unsafe_cons (c : ascii) (s : string) :
  Re.sub Patterns.unsafe_char "" (String c s) =
    if Py.is_word c || Py.is_space c ||
       existsb (Ascii.eqb c)
         ["-"; "."; ","; "("; ")"; "/"; "&"; "%"; "#"; "@"; "!"; "?"; ":"; ";"]%char
    then String c (Re.sub Patterns.unsafe_char "" s)
    else Re.sub Patterns.unsafe_char "" s.
Proof.
  unfold Re.sub. cbn [String.length Re.sub_go]. rewrite match_here_unsafe.
  destruct (Py.is_word c || Py.is_space c || existsb _ _); [done|].
  cbn [Re.rest].
  replace (String.length s <? S (String.length s)) with true
    by (symmetry; apply Nat.ltb_lt; lia).
  done.
Qed.

Lemma safe_char_kept (c : ascii) :
  safe_char c = true →
  Py.is_word c || Py.is_space c ||
    existsb (Ascii.eqb c)
      ["-"; "."; ","; "("; ")"; "/"; "&"; "%"; "#"; "@"; "!"; "?"; ":"; ";"]%char = true.
Proof. by destruct c as [[] [] [] [] [] [] [] []]. Qed.

Lemma safe_space (c : ascii) :
  safe_char c = true → Py.is_space c = true → c = " "%char.
Proof. by destruct c as [[] [] [] [] [] [] [] []]. Qed.

Lemma sub_unsafe_safe (s : string) :
  all_chars safe_char s = true → Re.sub Patterns.unsafe_char "" s = s.
Proof.
  induction s as [|c s IH]; [done|]. cbn [all_chars].
  intros [Hc Hs]%andb_true_iff. rewrite sub_unsafe_cons, safe_char_kept by done.
  by rewrite IH.
Qed.

Lemma all_chars_app (p : ascii → bool) (a b : string) :
  all_chars p (a +:+ b) = all_chars p a && all_chars p b.
Proof.
  induction a as [|c a IH]; [by destruct b|].
  rewrite app_cons. cbn [all_chars]. by rewrite IH, andb_assoc.
Qed.

Lemma all_chars_strip (p : ascii → bool) (s : string) :
  all_chars p s = true → all_chars p (Py.strip s) = true.
Proof.
  intros Hs. unfold Py.strip.
  destruct (lstrip_suffix s) as [a Ha].
  destruct (rstrip_prefix (Py.lstrip s)) as [b Hb].
  rewrite Ha, Hb, !all_chars_app in Hs.
  by apply andb_true_iff in Hs as [_ [Hs _]%andb_true_iff].
Qed.

Lemma lstrip_head (s : string) :
  match Py.lstrip s with
  | EmptyString => True
  | String c _ => Py.is_space c = false
  end.
Proof.
  induction s as [|c s IH]; [done|]. cbn [Py.lstrip].
  by destruct (Py.is_space c) eqn:Hc.
Qed.

Lemma lstrip_idemp (s : string) : Py.lstrip (Py.lstrip s) = Py.lstrip s.
Proof.
  pose proof (lstrip_head s) as H. destruct (Py.lstrip s) as [|c r]; [done|].
  cbn [Py.lstrip]. by rewrite H.
Qed.

Lemma rstrip_cons_fixed (c : ascii) (s : string) :
  Py.rstrip (String c s) = String c s →
  Py.rstrip s = s ∧ (s = "" → Py.is_space c = false).
Proof.
  cbn [Py.rstrip]. destruct (Py.rstrip s) as [|d r] eqn:Hr.
  - destruct (Py.is_space c) eqn:Hc; [done|]. intros [= Heq]. by subst s.
  - intros [= Heq]. subst s. split; [done|]. intros [=].
Qed.

Lemma rstrip_fixed_cons (c : ascii) (s : string) :
  Py.rstrip s = s → (s = "" → Py.is_space c = false) →
  Py.rstrip (String c s) = String c s.
Proof.
  intros Hs Hc. cbn [Py.rstrip]. rewrite Hs. destruct s; [|done].
  by rewrite Hc.
Qed.

Lemma rstrip_idemp (s : string) : Py.rstrip (Py.rstrip s) = Py.rstrip s.
Proof.
  induction s as [|c s IH]; [done|]. cbn [Py.rstrip].
  destruct (Py.rstrip s) as [|d r] eqn:Hr.
  - destruct (Py.is_space c) eqn:Hc; [done|]. cbn [Py.rstrip]. by rewrite Hc.
  - apply rstrip_fixed_cons; [done|]. intros [=].
Qed.

Lemma rstrip_lstrip_fixed (s : string) :
  Py.rstrip s = s → Py.rstrip (Py.lstrip s) = Py.lstrip s ∧ (s ≠ "" → Py.lstrip s ≠ "").
Proof.
  induction s as [|c s IH]; [done|]. intros Hs.
  cbn [Py.lstrip]. destruct (Py.is_space c) eqn:Hc; [|done].
  apply rstrip_cons_fixed in Hs as [Hs Hne].
  destruct (IH Hs) as [H1 H2]. split; [done|]. intros _. apply H2.
  intros ->. specialize (Hne eq_refl). congruence.
Qed.

(** The strings a pass of [clean_text] leaves alone: safe characters, no
    space at either end and no two spaces in a row. *)
Lemma strip_fixed (s : string) :
  Py.lstrip s = s → Py.rstrip s = s → Py.strip s = s.
Proof. intros Hl Hr. unfold Py.strip. by rewrite Hl. Qed.

Lemma sub_ws_nonempty (s : string) :
  s ≠ "" → Re.sub (Re.Plus Re.ws) " " s ≠ "".
Proof.
  destruct s as [|c s]; [done|]. intros _. rewrite sub_ws_cons.
  by destruct (Py.is_space c).
Qed.

Lemma sub_ws_head (s : string) :
  Py.lstrip s = s → Py.lstrip (Re.sub (Re.Plus Re.ws) " " s) = Re.sub (Re.Plus Re.ws) " " s.
Proof.
  destruct s as [|c s]; [done|]. cbn [Py.lstrip].
  destruct (Py.is_space c) eqn:Hc.
  - intros Hs. pose proof (lstrip_length s) as Hl. rewrite Hs in Hl. cbn in Hl. lia.
  - intros _. rewrite sub_ws_cons, Hc. cbn [Py.lstrip]. by rewrite Hc.
Qed.

Lemma sub_ws_tail_fuel (n : nat) (s : string) :
  String.length s ≤ n →
  Py.rstrip s = s → Py.rstrip (Re.sub (Re.Plus Re.ws) " " s) = Re.sub (Re.Plus Re.ws) " " s.
Proof.
  revert s. induction n as [|n IH]; intros s Hn Hs.
  - by destruct s; [|cbn in Hn; lia].
  - destruct s as [|c s]; [done|]. cbn [String.length] in Hn.
    apply rstrip_cons_fixed in Hs as [Hs Hne]. rewrite sub_ws_cons.
    destruct (Py.is_space c) eqn:Hc.
    + destruct (rstrip_lstrip_fixed s Hs) as [H1 H2].
      pose proof (lstrip_length s).
      apply rstrip_fixed_cons; [apply IH; [lia|done]|].
      intros Hempty. exfalso.
      assert (s ≠ "") as Hs' by (intros ->; specialize (Hne eq_refl); congruence).
      by apply (sub_ws_nonempty (Py.lstrip s)); [apply H2|].
    + apply rstrip_fixed_cons; [apply IH; [lia|done]|done].
Qed.

Lemma sub_ws_no_double_fuel (n : nat) (s : string) :
  String.length s ≤ n →
  Py.contains "  " (Re.sub (Re.Plus Re.ws) " " s) = false.
Proof.
  revert s. induction n as [|n IH]; intros s Hn.
  - by destruct s; [|cbn in Hn; lia].
  - destruct s as [|c s]; [done|]. cbn [String.length] in Hn.
    rewrite sub_ws_cons. destruct (Py.is_space c) eqn:Hc.
    + pose proof (lstrip_length s). pose proof (lstrip_head s) as Hh.
      cbn [Py.contains Py.startswith]. rewrite (IH (Py.lstrip s)) by lia.
      destruct (Py.lstrip s) as [|d r]; [done|]. rewrite sub_ws_cons, Hh.
      cbn [Py.startswith]. destruct (Ascii.eqb_spec " " d) as [<-|]; [done|].
      by rewrite andb_false_r.
    + cbn [Py.contains Py.startswith]. rewrite (IH s) by lia.
      destruct (Ascii.eqb_spec " " c) as [<-|]; [done|]. done.
Qed.

Lemma sub_ws_all_safe_fuel (n : nat) (s : string) :
  String.length s ≤ n →
  all_chars safe_char s = true →
  all_chars safe_char (Re.sub (Re.Plus Re.ws) " " s) = true.
Proof.
  revert s. induction n as [|n IH]; intros s Hn Hs.
  - by destruct s; [|cbn in Hn; lia].
  - destruct s as [|c s]; [done|]. cbn [String.length] in Hn.
    cbn [all_chars] in Hs. apply andb_true_iff in Hs as [Hc Hs].
    rewrite sub_ws_cons. destruct (Py.is_space c).
    + cbn [all_chars]. pose proof (lstrip_length s).
      destruct (lstrip_suffix s) as [a Ha]. rewrite Ha, all_chars_app in Hs.
      apply andb_true_iff in Hs as [_ Hs]. by rewrite IH; [|lia|].
    + cbn [all_chars]. by rewrite Hc, IH; [|lia|].
Qed.

(** A string of safe characters without a space at either end and without
    two spaces in a row is left as it is. *)
Lemma sub_ws_fixed_fuel (n : nat) (s : string) :
  String.length s ≤ n →
  all_chars safe_char s = true →
  Py.contains "  " s = false →
  Re.sub (Re.Plus Re.ws) " " s = s.
Proof.
  revert s. induction n as [|n IH]; intros s Hn Hs Hd.
  - by destruct s; [|cbn in Hn; lia].
  - destruct s as [|c s]; [done|]. cbn [String.length] in Hn.
    cbn [all_chars] in Hs. apply andb_true_iff in Hs as [Hc Hs].
    cbn [Py.contains] in Hd. apply orb_false_iff in Hd as [Hst Hd].
    rewrite sub_ws_cons. destruct (Py.is_space c) eqn:Hsp.
    + apply safe_space in Hsp as ->; [|done]. f_equal.
      assert (Py.lstrip s = s) as ->.
      { destruct s as [|d s]; [done|]. cbn [Py.lstrip].
        destruct (Py.is_space d) eqn:Hd'; [|done].
        cbn [all_chars] in Hs. apply andb_true_iff in Hs as [Hsd _].
        apply safe_space in Hd' as ->; [|done]. cbn in Hst. by destruct s. }
      apply IH; [lia|done|done].
    + f_equal. apply IH; [lia|done|done].
Qed.

Lemma clean_text_fixed (s : string) :
  all_chars safe_char s = true →
  Py.lstrip s = s → Py.rstrip s = s →
  Py.contains "  " s = false →
  clean_text s = s.
Proof.
  intros Hs Hl Hr Hd. rewrite clean_text_eq, strip_fixed by done.
  rewrite (sub_ws_fixed_fuel (String.length s)) by done.
  by apply sub_unsafe_safe.
Qed.

Lemma clean_text_of_safe (u : string) :
  all_chars safe_char u = true →
  let v := clean_text u in
  all_chars safe_char v = true ∧ Py.lstrip v = v ∧ Py.rstrip v = v ∧
  Py.contains "  " v = false.
Proof.
  intros Hu v. subst v. rewrite clean_text_eq.
  set (x := Py.strip u).
  assert (Hx : all_chars safe_char x = true) by by apply all_chars_strip.
  assert (Hw : all_chars safe_char (Re.sub (Re.Plus Re.ws) " " x) = true)
    by by apply (sub_ws_all_safe_fuel (String.length x)).
  rewrite sub_unsafe_safe by done.
  assert (Hxr : Py.rstrip x = x) by apply rstrip_idemp.
  assert (Hxl : Py.lstrip x = x).
  { unfold x, Py.strip. pose proof (lstrip_head u) as Hh.
    destruct (rstrip_prefix (Py.lstrip u)) as [b Hb].
    destruct (Py.rstrip (Py.lstrip u)) as [|c r]; [done|].
    rewrite Hb, app_cons in Hh. cbn [Py.lstrip]. by rewrite Hh. }
  split_and!; [done| |by apply (sub_ws_tail_fuel (String.length x))|
               by apply (sub_ws_no_double_fuel (String.length x))].
  by apply sub_ws_head.
Qed.

(** X20.  A third pass of [clean_text] never changes a text, though a
    second one can: dropping a character between two spaces leaves two
    spaces in a row, which only the next pass collapses.  [save_to_csv]
    makes this second pass over the titles and quantities of the records. *)
Theorem clean_text_stable_after_two :
  (∀ text, clean_text (clean_text (clean_text text)) = clean_text (clean_text text)) ∧
  (∃ text, clean_text (clean_text text) ≠ clean_text text).
Proof.
  split.
  - intros text.
    destruct (clean_text_of_safe (clean_text text) (clean_text_all_safe text))
      as (H1 & H2 & H3 & H4).
    by apply clean_text_fixed.
  - exists "Cotton + polyester". vm_compute. intros [=].
Qed.

(** * [save_to_csv] *)

Lemma complete_lookup (d : dict) (col : string) :
  complete d → col ∈ required_columns → is_Some (d !! col).
Proof.
  intros Hd Hc. apply elem_of_dom, Hd. by apply elem_of_list_to_set.
Qed.

Lemma complete_url (d : dict) : complete d → d !! "Inquiry URL" = Some (url_of d).
Proof.
  intros Hd. destruct (complete_lookup d "Inquiry URL" Hd) as [u Hu].
  - unfold required_columns. set_solver.
  - rewrite Hu. f_equal. symmetry. by apply field_lookup.
Qed.

Lemma has_column_complete (data : list dict) (col : string) :
  data ≠ [] → Forall complete data → col ∈ required_columns →
  has_column data col = true.
Proof.
  intros Hne Hall Hc. destruct data as [|d data]; [done|].
  apply Forall_cons in Hall as [Hd _]. cbn [has_column existsb].
  by rewrite bool_decide_eq_true_2; [|apply complete_lookup].
Qed.

Lemma drop_duplicates_go_spec (key : string) (data : list dict)
    (before : list (option string)) :
  let kept := drop_duplicates_go key before data in
  sublist kept data ∧
  NoDup ((λ d : dict, d !! key) <$> kept) ∧
  (∀ d, d ∈ kept → d !! key ∉ before) ∧
  (∀ d, d ∈ data → d !! key ∉ before →
     ∃ e, e ∈ kept ∧ e !! key = d !! key ∧
          List.find (λ x, bool_decide (x !! key = d !! key)) data = Some e).
Proof.
  cbv zeta. revert before. induction data as [|d data IH]; intros before.
  - cbn. split_and!; [done|constructor|by intros d Hd; apply elem_of_nil in Hd|].
    intros d Hd. by apply elem_of_nil in Hd.
  - cbn [drop_duplicates_go].
    destruct (bool_decide (d !! key ∈ before)) eqn:Hb.
    + apply bool_decide_eq_true in Hb.
      destruct (IH before) as (Hsub & Hnd & Hfresh & Hfirst).
      split_and!; [by apply sublist_cons|done|done|].
      intros x Hx Hout. apply elem_of_cons in Hx as [->|Hx]; [done|].
      destruct (Hfirst x Hx Hout) as (e & He & Hk & Hf).
      exists e. split_and!; [done|done|]. cbn [List.find].
      rewrite bool_decide_eq_false_2; [done|]. intros Heq. by rewrite Heq in Hb.
    + apply bool_decide_eq_false in Hb.
      destruct (IH (d !! key :: before)) as (Hsub & Hnd & Hfresh & Hfirst).
      split_and!.
      * by apply sublist_skip.
      * cbn [fmap list_fmap]. constructor; [|done].
        intros Hin. apply list_elem_of_fmap in Hin as (e & He1 & He2).
        apply Hfresh in He2. apply He2. rewrite He1. left.
      * intros x Hx. apply elem_of_cons in Hx as [->|Hx]; [done|].
        apply Hfresh in Hx. intros Hin. apply Hx. by right.
      * intros x Hx Hout. cbn [List.find].
        destruct (decide (d !! key = x !! key)) as [Heq|Hneq].
        -- exists d. rewrite bool_decide_eq_true_2 by done.
           split_and!; [left|done|done].
        -- rewrite bool_decide_eq_false_2 by done.
           apply elem_of_cons in Hx as [->|Hx]; [done|].
           destruct (Hfirst x Hx) as (e & He & Hk & Hf).
           { intros Hin. apply elem_of_cons in Hin as [Hin|Hin]; [by symmetry in Hin|done]. }
           exists e. split_and!; [by right|done|done].
Qed.

Lemma drop_duplicates_go_id (key : string) (data : list dict)
    (before : list (option string)) :
  NoDup ((λ d : dict, d !! key) <$> data) →
  (∀ d, d ∈ data → d !! key ∉ before) →
  drop_duplicates_go key before data = data.
Proof.
  revert before. induction data as [|d data IH]; intros before Hnd Hout; [done|].
  cbn [drop_duplicates_go]. cbn [fmap list_fmap] in Hnd.
  apply NoDup_cons in Hnd as [Hd Hnd].
  rewrite bool_decide_eq_false_2 by (apply Hout; left).
  f_equal. apply IH; [done|].
  intros x Hx Hin. apply elem_of_cons in Hin as [Hin|Hin].
  - apply Hd. rewrite <- Hin. apply list_elem_of_fmap. by exists x.
  - by apply (Hout x); [right|].
Qed.

Lemma save_to_csv_complete (data : list dict) :
  data ≠ [] → Forall complete data →
  save_to_csv data = Some (row <$> drop_duplicates "Inquiry URL" data).
Proof.
  intros Hne Hall. unfold save_to_csv.
  assert (is_empty data = false) as -> by by destruct data.
  rewrite has_column_complete by (try done; unfold required_columns; set_solver).
  cbn [negb]. cbv zeta.
  assert (forallb (has_column data) required_columns = true) as ->; [|done].
  apply forallb_forall. intros c Hc. apply has_column_complete; [done|done|].
  by apply list_elem_of_In.
Qed.

Lemma row_cells (d : dict) :
  complete d → length (row d) = 16 ∧ Forall is_Some (row d).
Proof.
  intros Hd. split; [done|]. unfold row. apply Forall_fmap, Forall_forall.
  intros c Hc. cbn. unfold cell. destruct (bool_decide (c ∈ cleaned_columns)); [done|].
  by apply complete_lookup.
Qed.

(** X21.  For records that have every column, [save_to_csv] writes one row
    for each inquiry URL of the data: the rows come from records of the
    data in their order, no two of them have the same URL, every record
    has its URL in one of them, and that row is the one of the first record
    with this URL.  Each row has sixteen cells and none is missing. *)
Theorem save_to_csv_one_row_per_url (data : list dict) :
  data ≠ [] →
  Forall complete data →
  ∃ kept,
    save_to_csv data = Some (row <$> kept) ∧
    sublist kept data ∧
    NoDup (url_of <$> kept) ∧
    (∀ d, d ∈ data →
       ∃ e, e ∈ kept ∧ url_of e = url_of d ∧
            List.find (λ x, String.eqb (url_of x) (url_of d)) data = Some e) ∧
    Forall (λ r, length r = 16 ∧ Forall is_Some r) (row <$> kept).
Proof.
  intros Hne Hall. exists (drop_duplicates "Inquiry URL" data).
  destruct (drop_duplicates_go_spec "Inquiry URL" data [])
    as (Hsub & Hnd & _ & Hfirst).
  fold (drop_duplicates "Inquiry URL" data) in *.
  assert (Hkept : Forall complete (drop_duplicates "Inquiry URL" data)).
  { rewrite Forall_forall in Hall |- *. intros d Hd. apply Hall.
    by eapply elem_of_sublist. }
  split_and!.
  - by apply save_to_csv_complete.
  - done.
  - apply (NoDup_fmap_1 Some). rewrite <- list_fmap_compose.
    erewrite Forall_fmap_ext_1; [exact Hnd|].
    eapply Forall_impl; [exact Hkept|]. intros d Hd. cbn. by rewrite complete_url.
  - intros d Hd. rewrite Forall_forall in Hall.
    destruct (Hfirst d Hd) as (e & He & Hk & Hf); [apply not_elem_of_nil|].
    assert (He' : complete e).
    { rewrite Forall_forall in Hkept. by apply Hkept. }
    exists e. split_and!; [done| |].
    + rewrite !complete_url in Hk by auto. by injection Hk.
    + rewrite <- Hf. clear Hf Hfirst Hsub Hnd Hkept He Hne.
      induction data as [|x data IH]; [done|]. cbn [List.find].
      assert (String.eqb (url_of x) (url_of d) =
              bool_decide (x !! "Inquiry URL" = d !! "Inquiry URL")) as ->.
      { rewrite !complete_url by (try apply Hall; try done; left).
        destruct (String.eqb_spec (url_of x) (url_of d)) as [->|Hn].
        - by rewrite bool_decide_eq_true_2.
        - rewrite bool_decide_eq_false_2; [done|]. by intros [=]. }
      destruct (bool_decide (x !! "Inquiry URL" = d !! "Inquiry URL")) eqn:Hx; [done|].
      apply elem_of_cons in Hd as [->|Hd].
      * by rewrite bool_decide_eq_true_2 in Hx.
      * apply IH; [|done]. intros y Hy. apply Hall. by right.
  - apply Forall_fmap. eapply Forall_impl; [exact Hkept|].
    intros d Hd. by apply row_cells.
Qed.

(** Two records of the film card. *)
Lemma save_to_csv_film_twice :
  ∃ kept,
    save_to_csv [film_record; film_record] = Some (row <$> kept) ∧
    sublist kept [film_record; film_record] ∧
    NoDup (url_of <$> kept).
Proof.
  destruct (save_to_csv_one_row_per_url [film_record; film_record])
    as (kept & Heq & Hsub & Hnd & _).
  - intros [=].
  - repeat constructor; unfold complete; apply (bool_decide_unpack _);
      vm_compute; exact I.
  - exists kept. exact (conj Heq (conj Hsub Hnd)).
Defined.

Lemma run_complete urljoin current_date render setup_ok self base_url max_pages :
  Forall complete
    (scrape_multiple_pages urljoin current_date render setup_ok self base_url max_pages).1.
Proof.
  destruct (run_spec urljoin current_date render setup_ok self base_url max_pages)
    as (new & evs & done & rest & Heq & _ & Hex & _).
  rewrite Heq. eapply Forall_impl; [exact Hex|].
  intros r (c & ->). unfold complete. by rewrite extract_dom.
Qed.

(** X22.  Saving the result of a run loses no record: the records of a run
    have different URLs, so the removal of duplicates in [save_to_csv]
    removes nothing, and the file has one row for each record, in the order
    of the result.  The count [main] prints is the number of rows. *)
Theorem save_to_csv_keeps_run
    (urljoin : string → string → option string) (current_date : string)
    (render : nat → string → option node) (setup_ok : bool) (self : scraper)
    (base_url : string) (max_pages : nat) :
  let data := (scrape_multiple_pages urljoin current_date render setup_ok self
                 base_url max_pages).1 in
  data ≠ [] →
  save_to_csv data = Some (row <$> data).
Proof.
  intros data Hne.
  pose proof (run_complete urljoin current_date render setup_ok self base_url max_pages)
    as Hall. fold data in Hall.
  rewrite save_to_csv_complete by done. do 2 f_equal.
  apply drop_duplicates_go_id; [|intros d _; apply not_elem_of_nil].
  destruct (run_spec urljoin current_date render setup_ok self base_url max_pages)
    as (new & evs & done & rest & Heq & _ & _ & Hnd & _).
  assert (data = new) as Hd by (unfold data; by rewrite Heq).
  rewrite Hd in Hall |- *. clear Hd Heq.
  apply (NoDup_fmap_2 Some) in Hnd. rewrite <- list_fmap_compose in Hnd.
  erewrite Forall_fmap_ext_1; [exact Hnd|].
  eapply Forall_impl; [exact Hall|]. intros d Hd. cbn. by rewrite complete_url.
Qed.

(** The run on the plain URL. *)
Lemma save_to_csv_plain_run :
  save_to_csv
    (scrape_multiple_pages Scenario.urljoin Scenario.today Scenario.render_once
       true Scenario.fresh Scenario.plain_url 5).1 =
  Some (row <$>
    (scrape_multiple_pages Scenario.urljoin Scenario.today Scenario.render_once
       true Scenario.fresh Scenario.plain_url 5).1).
Proof.
  apply (save_to_csv_keeps_run Scenario.urljoin Scenario.today Scenario.render_once
           true Scenario.fresh Scenario.plain_url 5).
  intros H. apply (f_equal length) in H. vm_compute in H. discriminate H.
Defined.

(** * The walk of the locator towards the document *)

Lemma widen_drop (soup : node) (levels : nat) (link : handle) :
  ∃ k, k ≤ length link ∧ widen soup levels link = drop k link.
Proof.
  revert link. induction levels as [|levels IH]; intros link.
  - exists 0. split; [lia|done].
  - cbn [widen]. destruct link as [|i p]; cbn [parent].
    + by exists 0.
    + destruct (100 <? Py.len (text_at soup p)).
      * destruct (IH p) as (k & Hk & Heq). exists (S k). cbn. split; [lia|done].
      * exists 0. split; [lia|done].
Qed.

(** X23.  The container of a link is the link's ancestor, or the link
    itself, [k] levels up, for some [k] up to the number of levels of the
    walk: each ancestor passed on the way has more than a hundred characters
    of text, and the walk ended because the levels were used up, or the
    document was reached, or the next ancestor has at most a hundred
    characters. *)
Theorem widen_stops (soup : node) (levels : nat) (link : handle) :
  ∃ k,
    k ≤ levels ∧ k ≤ length link ∧
    widen soup levels link = drop k link ∧
    (∀ j, 1 ≤ j ≤ k → 100 < Py.len (text_at soup (drop j link))) ∧
    (k = levels ∨ k = length link ∨
     Py.len (text_at soup (drop (S k) link)) ≤ 100).
Proof.
  revert link. induction levels as [|levels IH]; intros link.
  - exists 0. split_and!; [done|lia|done|lia|by left].
  - cbn [widen]. destruct link as [|i p]; cbn [parent].
    + exists 0. split_and!; [lia|done|done|lia|by right; left].
    + destruct (100 <? Py.len (text_at soup p)) eqn:Hlen.
      * apply Nat.ltb_lt in Hlen.
        destruct (IH p) as (k & Hk & Hkl & Heq & Hpass & Hend).
        exists (S k). cbn [length drop]. split_and!; [lia|lia|done| |].
        -- intros j Hj. destruct j as [|j]; [lia|]. cbn [drop].
           destruct j as [|j]; [done|]. apply Hpass. lia.
        -- destruct Hend as [->|[->|Hend]]; [by left|by right; left|by right; right].
      * apply Nat.ltb_ge in Hlen.
        exists 0. split_and!; [lia|cbn; lia|done|lia|by right; right].
Qed.

(** The first link of the page with two links in one card: its container
    is the document, two levels up. *)
Lemma widen_stops_two_links :
  widen Scenario.two_link_page 5 [0; 0] = [] ∧
  ∃ k,
    k ≤ 5 ∧ k ≤ 2 ∧
    widen Scenario.two_link_page 5 [0; 0] = drop k [0; 0] ∧
    (∀ j, 1 ≤ j ≤ k → 100 < Py.len (text_at Scenario.two_link_page (drop j [0; 0]))) ∧
    (k = 5 ∨ k = 2 ∨ Py.len (text_at Scenario.two_link_page (drop (S k) [0; 0])) ≤ 100).
Proof.
  split; [vm_compute; reflexivity|].
  exact (widen_stops Scenario.two_link_page 5 [0; 0]).
Defined.

Lemma descendants_go_elem (base : handle) (l : list node) (i0 : nat) (x : handle * node) :
  x ∈ (fix go (i : nat) (l : list node) : list (handle * node) :=
         match l with
         | [] => []
         | c :: l' => (i :: base, c) :: descendants (i :: base) c ++ go (S i) l'
         end) i0 l ↔
  ∃ j c, l !! j = Some c ∧
         (x = ((i0 + j) :: base, c) ∨ x ∈ descendants ((i0 + j) :: base) c).
Proof.
  revert i0. induction l as [|c l IH]; intros i0.
  - split; [by intros ?%elem_of_nil|by intros (j & c & ? & _)].
  - rewrite elem_of_cons, elem_of_app, IH. split.
    + intros [->|[Hx|(j & c' & Hj & Hx)]].
      * exists 0, c. rewrite Nat.add_0_r. split; [done|by left].
      * exists 0, c. rewrite Nat.add_0_r. split; [done|by right].
      * exists (S j), c'. replace (i0 + S j) with (S i0 + j) by lia. done.
    + intros (j & c' & Hj & Hx). destruct j as [|j].
      * injection Hj as <-. rewrite Nat.add_0_r in Hx. destruct Hx; [by left|by right; left].
      * right; right. exists j, c'. replace (S i0 + j) with (i0 + S j) by lia. done.
Qed.

Lemma descendants_elem (base : handle) (nm : string) (ats : gmap string string)
    (cs : list node) (x : handle * node) :
  x ∈ descendants base (Tag nm ats cs) ↔
  ∃ j c, cs !! j = Some c ∧ (x = (j :: base, c) ∨ x ∈ descendants (j :: base) c).
Proof. cbn [descendants]. by rewrite descendants_go_elem. Qed.

Lemma descendants_trans :
  ∀ m base h p x,
    (h, p) ∈ descendants base m → x ∈ descendants h p → x ∈ descendants base m.
Proof.
  fix IH 1. intros [s|s|nm ats cs] base h p x Hp Hx;
    try by apply elem_of_nil in Hp.
  apply descendants_elem in Hp as (j & c & Hj & Hp).
  apply descendants_elem. exists j, c. split; [done|]. right.
  destruct Hp as [[= -> ->]|Hp]; [done|].
  assert (Hsub : ∀ j c, cs !! j = Some c →
            ∀ base h p x, (h, p) ∈ descendants base c → x ∈ descendants h p →
                          x ∈ descendants base c).
  { clear -IH. induction cs as [|c0 cs IHcs]; intros j c Hj; [done|].
    destruct j as [|j]; [injection Hj as <-; apply IH|by eapply IHcs]. }
  by eapply Hsub.
Qed.

Lemma descendants_below (soup : node) (l base : handle) (m n : node) :
  subtree soup base = Some m → l ≠ [] →
  subtree soup (l ++ base) = Some n →
  (l ++ base, n) ∈ descendants base m.
Proof.
  intros Hm. revert n. induction l as [|i l IH]; intros n Hne Hn; [done|].
  cbn [app subtree] in Hn.
  destruct (subtree soup (l ++ base)) as [p|] eqn:Hp; [|done]. cbn in Hn.
  destruct p as [s|s|nm ats cs]; try by (cbn in Hn; rewrite lookup_nil in Hn).
  cbn [contents_of] in Hn.
  assert (Hchild : ((i :: l) ++ base, n) ∈ descendants (l ++ base) (Tag nm ats cs)).
  { apply descendants_elem. exists i, n. split; [done|by left]. }
  destruct l as [|i' l'].
  - cbn in Hp. rewrite Hm in Hp. injection Hp as ->. done.
  - eapply descendants_trans; [|exact Hchild]. by apply IH.
Qed.

Lemma descendants_nodes :
  ∀ n base base', (descendants base n).*2 = (descendants base' n).*2.
Proof.
  fix IH 1. intros [s|s|nm ats cs] base base'; [reflexivity|reflexivity|].
  cbn [descendants]. generalize 0 as i.
  induction cs as [|c cs IHcs]; intros i; [done|].
  rewrite !fmap_cons, !fmap_app. cbn [snd]. f_equal.
  rewrite (IH c (i :: base) (i :: base')). f_equal. apply IHcs.
Qed.

Lemma find_detail_link_below (soup : node) (c link : handle) (n a : node) :
  subtree soup c = Some n →
  (link, a) ∈ descendants c n →
  is_detail_link a = true →
  ∃ l, find_detail_link n = Some l ∧ is_detail_link l = true.
Proof.
  intros Hn Ha Hlink. unfold find_detail_link.
  destruct (List.find is_detail_link (descendants [] n).*2) as [l|] eqn:Hf.
  - exists l. split; [done|]. by apply List.find_some in Hf as [_ ?].
  - exfalso. eapply List.find_none in Hf; [by rewrite Hlink in Hf|].
    apply list_elem_of_In. rewrite (descendants_nodes n [] c).
    apply list_elem_of_fmap. by exists (link, a).
Qed.

(** X24.  A container the locator returns is a detail link of the page or
    has a detail link below it; in the second case the link step of the
    extractor finds a detail link in the container. *)
Theorem container_holds_detail_link (soup : node) (c : handle) (n : node) :
  c ∈ get_rfq_containers soup →
  subtree soup c = Some n →
  (c ∈ detail_links soup ∧ is_detail_link n = true) ∨
  (∃ l, find_detail_link n = Some l ∧ is_detail_link l = true).
Proof.
  intros Hc Hn. unfold get_rfq_containers in Hc. apply subseteq_take in Hc.
  apply foldl_collect_from in Hc as [Hc|(link & Hl & ->)];
    [by apply elem_of_nil in Hc|].
  assert (Hlink : ∃ a, subtree soup link = Some a ∧ is_detail_link a = true).
  { unfold detail_links in Hl.
    apply list_elem_of_fmap in Hl as ([h a] & -> & Hl).
    apply list_elem_of_filter in Hl as [Ha Hl]. exists a. split; [|done].
    by apply (descendants_subtree soup soup []). }
  destruct Hlink as (a & Ha & Hdl).
  destruct (widen_drop soup 5 link) as (k & Hk & Heq).
  rewrite Heq in Hn |- *. destruct k as [|k].
  - left. rewrite drop_0 in Hn |- *. split; [done|]. congruence.
  - right. rewrite <- (take_drop (S k) link) in Ha.
    apply (find_detail_link_below soup (drop (S k) link) link n a); [done| |done].
    rewrite <- (take_drop (S k) link) at 1.
    apply (descendants_below soup); [done| |done].
    destruct link; [cbn in Hk; lia|done].
Qed.

(** On the page with two links in one card the container is the document,
    and the link step finds the first link. *)
Lemma container_holds_detail_link_two_links :
  ∃ l, find_detail_link Scenario.two_link_page = Some l ∧ is_detail_link l = true.
Proof.
  destruct (container_holds_detail_link Scenario.two_link_page [] Scenario.two_link_page)
    as [[Hc _]|H].
  - apply (bool_decide_unpack _). vm_compute. exact I.
  - reflexivity.
  - exfalso. apply (bool_decide_pack _) in Hc. vm_compute in Hc. exact Hc.
  - exact H.
Defined.

(** * The buyer name *)

(** [re.findall] returns captures of matches inside the text. *)
Lemma findall_go_sound (fuel : nat) (r : Re.regex) (s g : string) :
  g ∈ Re.findall_go fuel r s →
  ∃ pre s' m, s = pre +:+ s' ∧ Re.match_here false r s' = Some m ∧ Re.group1 m = g.
Proof.
  revert s. induction fuel as [|fuel IH]; intros s Hg; [by apply elem_of_nil in Hg|].
  cbn [Re.findall_go] in Hg.
  assert (Hnext : ∀ c s', s = String c s' → g ∈ Re.findall_go fuel r s' →
            ∃ pre s'' m, s = pre +:+ s'' ∧ Re.match_here false r s'' = Some m ∧
                         Re.group1 m = g).
  { intros c s' -> Hin. destruct (IH _ Hin) as (pre & s'' & m & -> & Hm & Hg').
    by exists (String c pre), s'', m. }
  destruct (Re.match_here false r s) as [m|] eqn:Hm.
  - assert (Hhere : g = Re.group1 m →
              ∃ pre s' m, s = pre +:+ s' ∧ Re.match_here false r s' = Some m ∧
                          Re.group1 m = g).
    { intros ->. by exists "", s, m. }
    destruct (String.length (Re.rest m) <? String.length s).
    + apply elem_of_cons in Hg as [Hg|Hg]; [by apply Hhere|].
      destruct (IH _ Hg) as (pre & s' & m' & Hs & Hm' & Hg').
      apply match_here_sound in Hm as (w & cap & Hw & _).
      exists (w +:+ pre), s', m'. split; [|done].
      by rewrite Hw, Hs, app_assoc_string.
    + destruct s as [|c s'].
      * apply list_elem_of_singleton in Hg. by apply Hhere.
      * apply elem_of_cons in Hg as [Hg|Hg]; [by apply Hhere|]. by eapply Hnext.
  - destruct s as [|c s']; [by apply elem_of_nil in Hg|]. by eapply Hnext.
Qed.

Lemma matches_classes (q : ascii → bool) (r : Re.regex) (w : string)
    (cap cap' : option string) :
  matches false r w cap cap' → classes_within q r → all_chars q w = true.
Proof.
  induction 1 as [ |p ch c Hc|p ch c Hc|r1 r2 w1 w2 c c1 c2 _ IH1 _ IH2|r1 r2 w c c1 _ IH
                 |r1 r2 w c c1 _ IH| |r w1 w2 c c1 c2 _ IH1 _ IH2|r w c c1 _ IH];
    cbn [classes_within]; intros Hq; try done.
  - unfold Re.cls_match in Hc. rewrite orb_false_r in Hc. cbn. by rewrite (Hq _ Hc).
  - destruct Hq as [H1 H2]. by rewrite all_chars_app, IH1, IH2.
  - destruct Hq as [H1 H2]. by apply IH.
  - destruct Hq as [H1 H2]. by apply IH.
  - by rewrite all_chars_app, IH1, IH2.
  - by apply IH.
Qed.

Lemma matches_seq_head (p : ascii → bool) (rs : list Re.regex) (w : string)
    (cap cap' : option string) :
  matches false (Re.Seq (Re.Cls p :: rs)) w cap cap' →
  ∃ c w', w = String c w' ∧ p c = true.
Proof.
  intros Hm. apply matches_cat_inv in Hm as (w1 & w2 & cap1 & -> & H1 & _).
  inversion H1 as [ |p' ch c' Hc| | | | | | |]; subst.
  unfold Re.cls_match in Hc. rewrite orb_false_r in Hc.
  exists ch, w2. by rewrite app_cons.
Qed.

Lemma upper_not_space (c : ascii) : Py.is_upper c = true → Py.is_space c = false.
Proof. by destruct c as [[] [] [] [] [] [] [] []]. Qed.

Lemma range_upper (c : ascii) :
  (nat_of_ascii "A" <=? nat_of_ascii c) && (nat_of_ascii c <=? nat_of_ascii "Z") = true →
  Py.is_upper c = true.
Proof. by destruct c as [[] [] [] [] [] [] [] []]. Qed.

Lemma strip_head (c : ascii) (s : string) :
  Py.is_space c = false → ∃ r, Py.strip (String c s) = String c r.
Proof.
  intros Hc. unfold Py.strip. cbn [Py.lstrip]. rewrite Hc. cbn [Py.rstrip].
  destruct (Py.rstrip s); [rewrite Hc|]; by eexists.
Qed.

Lemma strip_inside (s : string) : ∃ a b, s = a +:+ Py.strip s +:+ b.
Proof.
  unfold Py.strip. destruct (lstrip_suffix s) as [a Ha].
  destruct (rstrip_prefix (Py.lstrip s)) as [b Hb].
  exists a, b. by rewrite <- Hb.
Qed.

Lemma name_patterns_shape (p : Re.regex) (s : string) (m : Re.found) :
  p ∈ Patterns.name_patterns →
  Re.match_here false p s = Some m →
  (∃ rest, s = Re.group1 m +:+ rest) ∧
  all_chars letter_or_space (Re.group1 m) = true ∧
  ∃ c w', Re.group1 m = String c w' ∧ Py.is_upper c = true.
Proof.
  intros Hp Hm. apply match_here_sound in Hm as (w & cap & Hs & Hw & Hg).
  assert (Hshape : ∃ g rs, p = Re.Group (Re.Seq (Patterns.upper_ :: rs)) ∧
                           g = Re.Seq (Patterns.upper_ :: rs) ∧
                           classes_within letter_or_space g).
  { unfold Patterns.name_patterns in Hp.
    apply elem_of_cons in Hp as [->|Hp];
      [|apply list_elem_of_singleton in Hp as ->];
      eexists _, _; (split; [reflexivity|]); (split; [reflexivity|]);
      cbn; repeat split; by intros [[] [] [] [] [] [] [] []]. }
  destruct Hshape as (g & rs & -> & -> & Hcls).
  apply matches_group_inv in Hw as [-> [cap1 Hw]]. cbn in Hg. rewrite Hg.
  split_and!.
  - by exists (Re.rest m).
  - by eapply matches_classes.
  - apply matches_seq_head in Hw as (c & w' & -> & Hc).
    exists c, w'. split; [done|]. by apply range_upper.
Qed.

Lemma name_loop_from (P : string → Prop) patterns text (d : dict) :
  (∀ p m, p ∈ patterns → m ∈ Re.findall p text → name_ok m = true → P (Py.strip m)) →
  (∀ v, d !! "Buyer Name" = Some v → P v) →
  ∀ v, name_loop patterns text d !! "Buyer Name" = Some v → P v.
Proof.
  revert d. induction patterns as [|p ps IH]; intros d Hok Hd; [done|].
  cbn [name_loop]. cbv zeta.
  assert (Hps : ∀ p m, p ∈ ps → m ∈ Re.findall p text → name_ok m = true →
                       P (Py.strip m)).
  { intros p' m Hp'. apply Hok. by right. }
  destruct (List.find name_ok (Re.findall p text)) as [m|] eqn:Hf.
  - apply find_some in Hf as [Hin Hm]. apply list_elem_of_In in Hin.
    assert (Hd' : ∀ v, <["Buyer Name" := Py.strip m]> d !! "Buyer Name" = Some v → P v).
    { rewrite lookup_insert_eq. intros v [= <-]. apply (Hok p); [left|done|done]. }
    destruct (negb _); [done|]. by apply IH.
  - destruct (negb _); [done|]. by apply IH.
Qed.

(** X25.  The buyer name of a record is [N/A] or a stretch of the text of
    the container that consists of letters and white space and starts with
    a capital letter. *)
Theorem buyer_name_shape
    (urljoin : string → string → option string) (current_date : string)
    (container : node) :
  let name := field (extract_rfq_data_improved urljoin current_date container)
                "Buyer Name" in
  name = "N/A" ∨
  (Py.contains name (get_text container) = true ∧
   all_chars letter_or_space name = true ∧
   ∃ c name', name = String c name' ∧ Py.is_upper c = true).
Proof.
  cbv zeta.
  assert (Hdn : defaults current_date !! "Buyer Name" = Some "N/A") by reflexivity.
  destruct (extract_default_or_later urljoin current_date container)
    as [Hr|(Hn & _)].
  - left. apply field_lookup.
    by rewrite (extract_raised_defaults _ _ _ _ Hr) by discriminate.
  - unfold field. rewrite lookup_total_alt, Hn.
    destruct (name_loop Patterns.name_patterns (get_text container)
                (defaults current_date) !! "Buyer Name") as [v|] eqn:Hv;
      [|exfalso].
    + clear Hn. revert v Hv. cbn [default from_option id].
      apply (name_loop_from (λ v, v = "N/A" ∨
               (Py.contains v (get_text container) = true ∧
                all_chars letter_or_space v = true ∧
                ∃ c v', v = String c v' ∧ Py.is_upper c = true))).
      * intros p m Hp Hin _. right. unfold Re.findall in Hin.
        apply findall_go_sound in Hin as (pre & s' & fm & Htext & Hm & <-).
        destruct (name_patterns_shape p s' fm Hp Hm) as ([rest Hrest] & Hall & c & w' & Hg & Hc).
        destruct (strip_inside (Re.group1 fm)) as (a & b & Hab).
        split_and!.
        -- apply contains_split. exists (pre +:+ a), (b +:+ rest).
           rewrite Htext, Hrest. rewrite Hab at 1. by rewrite !app_assoc_string.
        -- by apply all_chars_strip.
        -- rewrite Hg. destruct (strip_head c w' (upper_not_space c Hc)) as [r ->].
           by exists c, r.
      * rewrite Hdn. intros v [= <-]. by left.
    + revert Hv.
      assert (Hsome : ∀ ps (d : dict), is_Some (d !! "Buyer Name") →
                is_Some (name_loop ps (get_text container) d !! "Buyer Name")).
      { induction ps as [|p ps IH]; intros d Hd; [done|].
        cbn [name_loop]. cbv zeta.
        destruct (List.find name_ok _) as [m|].
        - destruct (negb _); [by rewrite lookup_insert_eq|].
          apply IH. by rewrite lookup_insert_eq.
        - destruct (negb _); [done|]. by apply IH. }
      intros Hnone. destruct (Hsome Patterns.name_patterns (defaults current_date))
        as [v Hv']; [by rewrite Hdn|congruence].
Qed.
